(** * Hybrid-Turtle master snapshot: classification, stateful stops, risk and rank

    A shallow embedding of the decision core of
    [Planning/20_build_master_snapshot_v5_6_stock_first_rank.py].

    Python floats are modelled by [fnum]: an exact rational, the two
    infinities, or NaN.  Arithmetic on finite values is exact (rounding is
    not modelled); the special values follow IEEE-754 as numpy and Python
    apply it, so [np.isfinite] and the comparisons keep their meaning.
    String enumerations of the script ("READY", "ETF_CORE", ...) are
    inductive types; the position-state dictionary is a [gmap] keyed by the
    upper-cased ticker. *)

From Stdlib Require Import ZArith QArith Qminmax Qabs Qround Lqa Lia List Bool
  Ascii String Sorted.
From stdpp Require Import gmap strings.

Local Open Scope Q_scope.

(** ** Floats *)

Module Float.

Inductive fnum : Type :=
| Fin (q : Q)
| PInf
| NInf
| NaN.

(** [np.isfinite] *)
Definition isfinite (x : fnum) : bool :=
  match x with Fin _ => true | _ => false end.

Definition Qltb (a b : Q) : bool := negb (Qle_bool b a).

(** [a < b], [a <= b], [a > b], [a >= b]: false as soon as one side is NaN. *)
Definition flt (a b : fnum) : bool :=
  match a, b with
  | NaN, _ | _, NaN => false
  | Fin x, Fin y => Qltb x y
  | NInf, NInf => false
  | NInf, _ => true
  | _, PInf => match a with PInf => false | _ => true end
  | _, _ => false
  end.

Definition fle (a b : fnum) : bool :=
  match a, b with
  | NaN, _ | _, NaN => false
  | Fin x, Fin y => Qle_bool x y
  | NInf, _ => true
  | _, PInf => true
  | _, _ => false
  end.

Definition fgt (a b : fnum) : bool := flt b a.
Definition fge (a b : fnum) : bool := fle b a.

Definition fneg (a : fnum) : fnum :=
  match a with
  | Fin x => Fin (- x)
  | PInf => NInf
  | NInf => PInf
  | NaN => NaN
  end.

Definition fadd (a b : fnum) : fnum :=
  match a, b with
  | NaN, _ | _, NaN => NaN
  | Fin x, Fin y => Fin (x + y)
  | PInf, NInf | NInf, PInf => NaN
  | PInf, _ | _, PInf => PInf
  | NInf, _ | _, NInf => NInf
  end.

Definition fsub (a b : fnum) : fnum := fadd a (fneg b).

(** Sign of a rational as a comparison with zero. *)
Definition Qsign (x : Q) : comparison := Qcompare x 0.

Definition inf_of_sign (c : comparison) : fnum :=
  match c with Gt => PInf | Lt => NInf | Eq => NaN end.

Definition fsign (a : fnum) : comparison :=
  match a with
  | Fin x => Qsign x
  | PInf => Gt
  | NInf => Lt
  | NaN => Eq
  end.

Definition sign_mul (c d : comparison) : comparison :=
  match c, d with
  | Eq, _ | _, Eq => Eq
  | Gt, Gt | Lt, Lt => Gt
  | _, _ => Lt
  end.

Definition fmul (a b : fnum) : fnum :=
  match a, b with
  | NaN, _ | _, NaN => NaN
  | Fin x, Fin y => Fin (x * y)
  | _, _ => inf_of_sign (sign_mul (fsign a) (fsign b))
  end.

(** Division.  Every division of the script that is modelled here is
    guarded by a test on its divisor; for completeness a finite value over
    zero follows numpy (signed infinity, NaN for 0/0). *)
Definition fdiv (a b : fnum) : fnum :=
  match a, b with
  | NaN, _ | _, NaN => NaN
  | Fin x, Fin y =>
      match Qsign y with
      | Eq => inf_of_sign (Qsign x)
      | _ => Fin (x / y)
      end
  | Fin _, _ => Fin 0
  | _, Fin y =>
      match Qsign y with
      | Lt => fneg a
      | _ => a
      end
  | _, _ => NaN
  end.

(** Python's two-argument [max(a, b)]: the first argument is kept unless
    the second compares strictly greater. *)
Definition pymax (a b : fnum) : fnum := if fgt b a then b else a.

(** Equality of floats as numbers (rationals up to [Qeq]). *)
Definition feq (a b : fnum) : Prop :=
  match a, b with
  | Fin x, Fin y => x == y
  | PInf, PInf | NInf, NInf | NaN, NaN => True
  | _, _ => False
  end.

End Float.
Export Float.

(** ** Market regime ([compute_market_regime]) *)

Module Regime.

Inductive market_regime : Type := BULLISH | BEARISH | SIDEWAYS | UNKNOWN.

Definition market_regime_eqb (a b : market_regime) : bool :=
  match a, b with
  | BULLISH, BULLISH | BEARISH, BEARISH
  | SIDEWAYS, SIDEWAYS | UNKNOWN, UNKNOWN => true
  | _, _ => false
  end.

Definition MA_200_PERIOD : nat := 200.
Definition REGIME_STABILITY_ENABLED : bool := true.
Definition REGIME_STABILITY_DAYS : nat := 3.

(** What [one_regime] reads of a benchmark: the price column after
    [dropna()], oldest bar first, and the age in days of its last bar. *)
Record benchmark : Type := mkBenchmark {
  base : list fnum;
  age_days : Z
}.

Record regime_info : Type := mkRegimeInfo {
  regime : market_regime;
  r_close : fnum;
  r_ma200 : fnum;
  r_age_days : Z;
  regime_stable : bool;
  days_in_chop_band : nat
}.

Definition fsum (l : list fnum) : fnum := fold_left fadd l (Fin 0).

Definition fmean (l : list fnum) : fnum :=
  fdiv (fsum l) (Fin (inject_Z (Z.of_nat (length l)))).

(** [s.iloc[-i]] for [i >= 1]; [None] is the IndexError. *)
Definition iloc_neg (l : list fnum) (i : nat) : option fnum :=
  nth_error (rev l) (i - 1).

(** [s.rolling(w).mean().iloc[-i]]: NaN while fewer than [w] bars are
    available at that position. *)
Definition rolling_mean_neg (w : nat) (l : list fnum) (i : nat) : option fnum :=
  match skipn (i - 1) (rev l) with
  | [] => None
  | r => Some (if (w <=? length r)%nat then fmean (firstn w r) else NaN)
  end.

Definition band_upper (band_pct ma : fnum) : fnum := fmul (fadd (Fin 1) band_pct) ma.
Definition band_lower (band_pct ma : fnum) : fnum := fmul (fsub (Fin 1) band_pct) ma.

(** One pass of the stability loop at bar [-i]: [true] when the bar counts
    as a day inside the band, [false] when the loop breaks. *)
Definition bar_in_band (band_pct : fnum) (l : list fnum) (i : nat) : bool :=
  match iloc_neg l i, rolling_mean_neg MA_200_PERIOD l i with
  | Some bar_close, Some bar_ma200 =>
      if negb (isfinite bar_ma200) || fle bar_ma200 (Fin 0) then false
      else fle (band_lower band_pct bar_ma200) bar_close
           && fle bar_close (band_upper band_pct bar_ma200)
  | _, _ => false
  end.

(** The [for i in range(1, ...)] loop with its [break]. *)
Fixpoint count_chop_days (band_pct : fnum) (l : list fnum) (idxs : list nat) : nat :=
  match idxs with
  | [] => O
  | i :: rest =>
      if bar_in_band band_pct l i
      then S (count_chop_days band_pct l rest)
      else O
  end.

Definition unknown_info (c m : fnum) (age : Z) : regime_info :=
  mkRegimeInfo UNKNOWN c m age false 0.

(** [one_regime]; the argument is [None] when [raw[bm]] raises, which the
    [except] clause turns into UNKNOWN. *)
Definition one_regime (max_data_age_days : Z) (band_pct : fnum)
    (bm : option benchmark) : regime_info :=
  match bm with
  | None => unknown_info NaN NaN 999
  | Some b =>
      let base := base b in
      if (length base <? 210)%nat then unknown_info NaN NaN 999
      else if (max_data_age_days <? age_days b)%Z then unknown_info NaN NaN (age_days b)
      else
        match iloc_neg base 1, rolling_mean_neg MA_200_PERIOD base 1 with
        | Some close, Some ma200 =>
            if negb (isfinite close && isfinite ma200 && fgt ma200 (Fin 0))
            then unknown_info close ma200 (age_days b)
            else
              let upper := band_upper band_pct ma200 in
              let lower := band_lower band_pct ma200 in
              let days :=
                if REGIME_STABILITY_ENABLED
                then count_chop_days band_pct base
                       (seq 1 (Nat.min (REGIME_STABILITY_DAYS + 2) (length base) - 1))
                else O in
              let raw_regime :=
                if fge close upper then BULLISH
                else if fle close lower then BEARISH
                else SIDEWAYS in
              if market_regime_eqb raw_regime SIDEWAYS && REGIME_STABILITY_ENABLED
              then
                if (days <? REGIME_STABILITY_DAYS)%nat
                then
                  if fgt close ma200
                  then mkRegimeInfo BULLISH close ma200 (age_days b) false days
                  else mkRegimeInfo BEARISH close ma200 (age_days b) false days
                else mkRegimeInfo SIDEWAYS close ma200 (age_days b) true days
              else mkRegimeInfo raw_regime close ma200 (age_days b) true days
        | _, _ => unknown_info NaN NaN 999
        end
  end.

(** The combination step of [compute_market_regime] when a second
    benchmark is configured. *)
Definition combine_regimes (r1 r2 : market_regime) : market_regime :=
  if market_regime_eqb r1 UNKNOWN || market_regime_eqb r2 UNKNOWN then UNKNOWN
  else if market_regime_eqb r1 BEARISH || market_regime_eqb r2 BEARISH then BEARISH
  else if market_regime_eqb r1 BULLISH && market_regime_eqb r2 BULLISH then BULLISH
  else SIDEWAYS.

(** The combined regime in the words of the specification: UNKNOWN if
    either benchmark is UNKNOWN; otherwise BEARISH if either is BEARISH,
    BULLISH only if both are BULLISH, and SIDEWAYS in the remaining cases. *)
Definition combined_regime_spec (r1 r2 : market_regime) : market_regime :=
  match r1, r2 with
  | UNKNOWN, _ | _, UNKNOWN => UNKNOWN
  | BEARISH, _ | _, BEARISH => BEARISH
  | BULLISH, BULLISH => BULLISH
  | _, _ => SIDEWAYS
  end.

(** The latest close and its 200-day average, as [one_regime] reads them. *)
Definition latest_close (l : list fnum) : fnum := default NaN (iloc_neg l 1).
Definition latest_ma200 (l : list fnum) : fnum :=
  default NaN (rolling_mean_neg MA_200_PERIOD l 1).

(** The [n] most recent bars each lie inside the band around their own
    200-day average. *)
Definition recent_days_in_band (band_pct : fnum) (l : list fnum) (n : nat) : bool :=
  forallb (bar_in_band band_pct l) (seq 1 n).

(** The latest close lies strictly inside the band. *)
Definition close_inside_band (band_pct : fnum) (l : list fnum) : bool :=
  flt (band_lower band_pct (latest_ma200 l)) (latest_close l)
  && flt (latest_close l) (band_upper band_pct (latest_ma200 l)).

(** Two benchmark series of 210 bars, one day old: a flat one, and one
    whose last bar jumps ten per cent. *)
Definition flat_benchmark : benchmark := mkBenchmark (repeat (Fin 100) 210) 1.
Definition jump_benchmark : benchmark :=
  mkBenchmark (repeat (Fin 100) 209 ++ [Fin 110]) 1.

(** [compute_market_regime]: the ["market_regime"] entry of its result. *)
Definition compute_market_regime (max_data_age_days : Z) (band_pct : fnum)
    (bm1 : option benchmark) (bm2 : option (option benchmark)) : market_regime :=
  let r1 := one_regime max_data_age_days band_pct bm1 in
  match bm2 with
  | None => regime r1
  | Some b2 =>
      let r2 := one_regime max_data_age_days band_pct b2 in
      combine_regimes (regime r1) (regime r2)
  end.

End Regime.

(** ** Shared enumerations and the position-state table *)

Module Types.

Inductive sleeve : Type := HEDGE | ETF_CORE | STOCK_CORE | STOCK_HIGH_RISK.

Definition sleeve_eqb (a b : sleeve) : bool :=
  match a, b with
  | HEDGE, HEDGE | ETF_CORE, ETF_CORE
  | STOCK_CORE, STOCK_CORE | STOCK_HIGH_RISK, STOCK_HIGH_RISK => true
  | _, _ => false
  end.

(** The [status] column. *)
Inductive status : Type := READY | WATCH | IGNORE | AVOID.

Definition status_eqb (a b : status) : bool :=
  match a, b with
  | READY, READY | WATCH, WATCH | IGNORE, IGNORE | AVOID, AVOID => true
  | _, _ => false
  end.

(** The [regime] column written by [classify]: TREND, RANGE, or one of the
    other labels it returns ("IGNORE", "AVOID", a market regime). *)
Inductive trade_regime : Type := TREND | RANGE | OTHER_REGIME.

Definition trade_regime_eqb (a b : trade_regime) : bool :=
  match a, b with
  | TREND, TREND | RANGE, RANGE | OTHER_REGIME, OTHER_REGIME => true
  | _, _ => false
  end.

(** [str.upper()] on ASCII letters. *)
Definition upper_ascii (c : ascii) : ascii :=
  let n := nat_of_ascii c in
  if ((97 <=? n) && (n <=? 122))%nat then ascii_of_nat (n - 32) else c.

Fixpoint upper (s : string) : string :=
  match s with
  | EmptyString => EmptyString
  | String c r => String (upper_ascii c) (upper r)
  end.

(** One record of [positions_state].  [read_positions_state] fills the ten
    keys; the record that [main] stores for a held instrument has the first
    five keys only, so the exit-history keys are optional and read through
    [dict.get] with the defaults below. *)
Record position_state : Type := mkState {
  entry_price : fnum;
  initial_stop : fnum;
  active_stop : fnum;
  adds_taken : Z;
  entry_date : string;
  last_exit_date : option string;
  last_exit_profit_R : option fnum;
  last_exit_reason : option string;
  whipsaw_count : option Z;
  last_whipsaw_date : option string
}.

Definition get_last_exit_date (s : position_state) : string :=
  default EmptyString (last_exit_date s).
Definition get_last_exit_profit_R (s : position_state) : fnum :=
  default NaN (last_exit_profit_R s).
Definition get_last_exit_reason (s : position_state) : string :=
  default EmptyString (last_exit_reason s).
Definition get_whipsaw_count (s : position_state) : Z :=
  default 0%Z (whipsaw_count s).
Definition get_last_whipsaw_date (s : position_state) : string :=
  default EmptyString (last_whipsaw_date s).

(** Python truthiness of a string. *)
Definition nonempty (s : string) : bool :=
  match s with EmptyString => false | _ => true end.

End Types.
Export Types.

(** ** Stateful stop and profit protection ([compute_stateful_stop]) *)

Module Stops.

Import Regime.

Definition CHOP_ATR_TIGHTENING_MULT : Q := 3 # 2.
Definition PROFIT_PROTECTION_ENABLED : bool := true.
Definition PROFIT_PROTECTION_LOCK_HALF_R_THRESHOLD : Q := 5 # 2.
Definition PROFIT_PROTECTION_LOCK_1R_THRESHOLD : Q := 3.
Definition BE_ADX_MIN : Q := 20.
Definition MIN_HOLD_DAYS_FOR_BE : Q := 5.

(** [BE_CONDITION_MODE]; any other configured string behaves as "none". *)
Inductive be_mode : Type := BE_none | BE_trend_only | BE_after_days.

(** The two settings read from [PARAMS_CONFIG]. *)
Record config : Type := mkConfig {
  BE_TRIGGER_R : fnum;
  BE_CONDITION_MODE : be_mode
}.

(** Defaults of [PARAMS_CONFIG.get]. *)
Definition default_config : config := mkConfig (Fin (3 # 2)) BE_none.

(** The keys of [row] that the function reads. *)
Record stop_row : Type := mkStopRow {
  is_held : bool;
  ticker : string;
  close : fnum;
  atr_14 : fnum;
  low_20 : fnum;
  row_sleeve : sleeve;
  stop_level : fnum;
  adx_14 : fnum;
  row_regime : trade_regime;
  holding_days : fnum;
  t212_avg_price : fnum
}.

(** The [stop_reason] texts, with the numbers they format. *)
Inductive stop_reason : Type :=
| SR_empty
| SR_SIDEWAYS_TIGHTENED
| SR_lock_1R (profit_R candidate : fnum)
| SR_lock_half_R (profit_R candidate : fnum)
| SR_breakeven (profit_R candidate : fnum)
| SR_BE_blocked_regime (r : trade_regime)
| SR_BE_blocked_adx (adx : fnum)
| SR_BE_blocked_days (days : fnum)
| SR_STATEFUL_kept_higher_prev_stop
| SR_NORMAL.

(** [not out["stop_reason"]] *)
Definition reason_is_empty (r : stop_reason) : bool :=
  match r with SR_empty => true | _ => false end.

Inductive protection_level : Type :=
| PPL_none
| PPL_3R_LOCK_1R_TRAILING
| PPL_2_5R_LOCK_HALF_R
| PPL_BREAKEVEN (trigger : fnum)
| PPL_BE_BLOCKED.

Record state_update : Type := mkUpdate {
  su_ticker : string;
  su_entry_price : fnum;
  su_initial_stop : fnum;
  su_active_stop : fnum;
  su_adds_taken : Z;
  su_entry_date : string
}.

Record stop_out : Type := mkStopOut {
  o_candidate_stop : fnum;
  o_active_stop : fnum;
  o_stop_reason : stop_reason;
  o_profit_R : fnum;
  o_profit_protection_level : protection_level;
  o_initial_R : fnum;
  o_state_update : option state_update;
  o_is_new_entry : bool
}.

Definition initial_out : stop_out :=
  mkStopOut NaN NaN SR_empty NaN PPL_none NaN None false.

(** [max(candidate_stop, x) if np.isfinite(candidate_stop) else x] *)
Definition raise_to (candidate_stop x : fnum) : fnum :=
  if isfinite candidate_stop then pymax candidate_stop x else x.

(** Python's [max] of a non-empty list. *)
Definition pymax_list (x : fnum) (rest : list fnum) : fnum := fold_left pymax rest x.

(** The local variables that the tiers of the profit-protection block
    assign. *)
Record tier_result : Type := mkTier {
  t_candidate : fnum;
  t_reason : stop_reason;
  t_level : protection_level;
  t_initial_R : fnum;
  t_profit_R : fnum
}.

Section WithConfig.

Variable cfg : config.
(** [date.today().isoformat()] *)
Variable today : string.

(** The breakeven gate: [None] when the conditions are met, otherwise the
    [be_block_reason]. *)
Definition be_gate (row : stop_row) : option stop_reason :=
  match BE_CONDITION_MODE cfg with
  | BE_trend_only =>
      if negb (trade_regime_eqb (row_regime row) TREND)
      then Some (SR_BE_blocked_regime (row_regime row))
      else if negb (isfinite (adx_14 row)) || flt (adx_14 row) (Fin BE_ADX_MIN)
      then Some (SR_BE_blocked_adx (adx_14 row))
      else None
  | BE_after_days =>
      if negb (isfinite (holding_days row))
         || flt (holding_days row) (Fin MIN_HOLD_DAYS_FOR_BE)
      then Some (SR_BE_blocked_days (holding_days row))
      else None
  | BE_none => None
  end.

(** The block under [if PROFIT_PROTECTION_ENABLED and ...]. *)
Definition profit_protection (row : stop_row) (entry_price initial_stop : fnum)
    (candidate_stop : fnum) (reason : stop_reason) : tier_result :=
  if PROFIT_PROTECTION_ENABLED && isfinite entry_price && isfinite initial_stop then
    let R := fsub entry_price initial_stop in
    if fgt R (Fin 0) then
      let profit := fsub (close row) entry_price in
      let profit_R := fdiv profit R in
      if fge profit_R (Fin PROFIT_PROTECTION_LOCK_1R_THRESHOLD) then
        let lock_1r_stop := fadd entry_price R in
        let trailing_options :=
          (if isfinite (low_20 row) then [low_20 row] else [])
          ++ (if isfinite (atr_14 row) && fgt (atr_14 row) (Fin 0)
              then [fsub (close row) (fmul (Fin 2) (atr_14 row))] else []) in
        let profit_stop := pymax_list lock_1r_stop trailing_options in
        let c := raise_to candidate_stop profit_stop in
        mkTier c (SR_lock_1R profit_R c) PPL_3R_LOCK_1R_TRAILING R profit_R
      else if fge profit_R (Fin PROFIT_PROTECTION_LOCK_HALF_R_THRESHOLD) then
        let lock_half_r_stop := fadd entry_price (fmul (Fin (1 # 2)) R) in
        let c := raise_to candidate_stop lock_half_r_stop in
        mkTier c (SR_lock_half_R profit_R c) PPL_2_5R_LOCK_HALF_R R profit_R
      else if fge profit_R (BE_TRIGGER_R cfg) then
        match be_gate row with
        | None =>
            let c := raise_to candidate_stop entry_price in
            mkTier c (SR_breakeven profit_R c) (PPL_BREAKEVEN (BE_TRIGGER_R cfg)) R profit_R
        | Some be_block_reason =>
            mkTier candidate_stop be_block_reason PPL_BE_BLOCKED R profit_R
        end
      else mkTier candidate_stop reason PPL_none R profit_R
    else mkTier candidate_stop reason PPL_none R NaN
  else mkTier candidate_stop reason PPL_none NaN NaN.

(** The sideways tightening that precedes it (stocks only). *)
Definition sideways_tightening (row : stop_row) (market_regime : market_regime)
    (candidate_stop : fnum) : fnum * stop_reason :=
  if market_regime_eqb market_regime SIDEWAYS
     && negb (sleeve_eqb (row_sleeve row) ETF_CORE)
  then
    if isfinite (atr_14 row) && fgt (atr_14 row) (Fin 0) then
      let chop_tight_stop :=
        fsub (close row) (fmul (Fin CHOP_ATR_TIGHTENING_MULT) (atr_14 row)) in
      (raise_to candidate_stop chop_tight_stop, SR_SIDEWAYS_TIGHTENED)
    else (candidate_stop, SR_empty)
  else (candidate_stop, SR_empty).

(** The "never loosen" step. *)
Definition stateful_active_stop (previous_active_stop candidate_stop : fnum) : fnum :=
  if isfinite previous_active_stop then
    if isfinite candidate_stop then pymax previous_active_stop candidate_stop
    else previous_active_stop
  else candidate_stop.

(** The final [if not out["stop_reason"]] block. *)
Definition final_reason (reason : stop_reason)
    (previous_active_stop active_stop candidate_stop : fnum) : stop_reason :=
  if reason_is_empty reason then
    if isfinite previous_active_stop && fgt active_stop candidate_stop
    then SR_STATEFUL_kept_higher_prev_stop
    else SR_NORMAL
  else reason.

Definition compute_stateful_stop (row : stop_row)
    (pos_state : gmap string position_state) (market_regime : market_regime)
    : stop_out :=
  if negb (is_held row) then initial_out
  else
    let t := upper (ticker row) in
    if negb (isfinite (close row)) then initial_out
    else
      let state := pos_state !! t in
      let entry_price := from_option entry_price NaN state in
      let initial_stop := from_option initial_stop NaN state in
      let previous_active_stop := from_option active_stop NaN state in
      let '(candidate_stop, reason) :=
        sideways_tightening row market_regime (stop_level row) in
      let tier := profit_protection row entry_price initial_stop candidate_stop reason in
      let candidate_stop := t_candidate tier in
      let active_stop := stateful_active_stop previous_active_stop candidate_stop in
      let reason :=
        final_reason (t_reason tier) previous_active_stop active_stop candidate_stop in
      let is_new_entry := negb (isfinite entry_price) in
      let entry_for_state :=
        if isfinite entry_price then entry_price else t212_avg_price row in
      let existing_entry_date := from_option entry_date EmptyString state in
      let entry_date_for_state :=
        if nonempty existing_entry_date then existing_entry_date
        else if is_new_entry then today else EmptyString in
      mkStopOut candidate_stop active_stop reason (t_profit_R tier) (t_level tier)
        (t_initial_R tier)
        (Some (mkUpdate t entry_for_state
                 (if isfinite initial_stop then initial_stop else stop_level row)
                 active_stop
                 (from_option adds_taken 0%Z state)
                 entry_date_for_state))
        is_new_entry.

(** The value of [out["stop_reason"]] when the "never loosen" step is
    reached: what the tightening and the profit tiers have recorded. *)
Definition reason_before_final (row : stop_row)
    (pos_state : gmap string position_state) (market_regime : market_regime)
    : stop_reason :=
  let state := pos_state !! upper (ticker row) in
  let '(candidate_stop, reason) :=
    sideways_tightening row market_regime (stop_level row) in
  t_reason (profit_protection row (from_option entry_price NaN state)
              (from_option initial_stop NaN state) candidate_stop reason).

(** Lines 5106-5115 of [main]: the record stored for a held instrument. *)
Definition record_of_update (u : state_update) : position_state :=
  mkState (su_entry_price u) (su_initial_stop u) (su_active_stop u)
    (su_adds_taken u) (su_entry_date u) None None None None None.

Definition store_state_update (row : stop_row) (out : stop_out)
    (pos_state : gmap string position_state) : gmap string position_state :=
  match o_state_update out with
  | Some u =>
      if is_held row then <[upper (ticker row) := record_of_update u]> pos_state
      else pos_state
  | None => pos_state
  end.

(** The effect of one instrument of one run on the state table. *)
Definition stop_step (pos_state : gmap string position_state)
    (inp : stop_row * market_regime) : gmap string position_state :=
  store_state_update (fst inp)
    (compute_stateful_stop (fst inp) pos_state (snd inp)) pos_state.

(** A sequence of evaluations (instruments of one run, then of the next
    run, ...), with the table after each of them. *)
Fixpoint stop_trace (pos_state : gmap string position_state)
    (inps : list (stop_row * market_regime)) : list (gmap string position_state) :=
  match inps with
  | [] => []
  | inp :: rest =>
      let s := stop_step pos_state inp in
      s :: stop_trace s rest
  end.

End WithConfig.

(** The active stop stored for key [k], NaN when there is none. *)
Definition stored_stop (pos_state : gmap string position_state) (k : string) : fnum :=
  from_option active_stop NaN (pos_state !! k).

(** [b] is not a loosening of [a]: once a stop is finite, its successor is
    finite and at least as high. *)
Definition not_lowered (a b : fnum) : Prop :=
  match a with
  | Fin x => match b with Fin y => x <= y | _ => False end
  | _ => True
  end.

(** A held stock in a sideways market: close 101, trailing stop 90 and ATR
    4, so that the tightened candidate is 95, below the stored stop of 97. *)
Definition sideways_row : stop_row :=
  mkStopRow true "abc" (Fin 101) (Fin 4) (Fin 99) STOCK_CORE (Fin 90)
    (Fin 25) RANGE NaN (Fin 100).

(** The scenario of the docstring: entry 100, stop 95, close 107.50, held
    in a RANGE regime with a trailing stop of 98 and a previous active stop
    of 97. *)
Definition scenario_state : position_state :=
  mkState (Fin 100) (Fin 95) (Fin 97) 0 "2026-10-01" None None None None None.

Definition scenario_table : gmap string position_state :=
  {[ "ABC" := scenario_state ]}.

Definition scenario_row : stop_row :=
  mkStopRow true "abc" (Fin (215 # 2)) (Fin 2) (Fin 99) STOCK_CORE (Fin 98)
    (Fin 25) RANGE NaN (Fin 100).

(** A record with an exit history (two stop-hit exits) that is held again,
    and a table with a record that has neither a finite entry price nor an
    exit date. *)
Definition history_state : position_state :=
  mkState (Fin 100) (Fin 95) (Fin 97) 0 "2026-10-01"
    (Some "2026-09-01") (Some (Fin (-1))) (Some "STOP_HIT") (Some 2%Z)
    (Some "2026-09-01").

Definition history_table : gmap string position_state :=
  {[ "ABC" := history_state ]}.

Definition orphan_table : gmap string position_state :=
  {[ "XYZ" := mkState NaN NaN (Fin 50) 0 "" None None None None None ]}.

(** ** Persisting the table ([write_positions_state]) *)

(** The rows written: a record is skipped when its entry price is not
    finite and it has no exit date. *)
Definition written (data : position_state) : bool :=
  isfinite (entry_price data) || nonempty (get_last_exit_date data).

(** The CSV row of a record: missing keys take the [dict.get] defaults and
    a non-finite entry price is written as an empty cell. *)
Definition csv_record (data : position_state) : position_state :=
  mkState (if isfinite (entry_price data) then entry_price data else NaN)
    (initial_stop data) (active_stop data) (adds_taken data) (entry_date data)
    (Some (get_last_exit_date data))
    (Some (get_last_exit_profit_R data))
    (Some (get_last_exit_reason data))
    (Some (get_whipsaw_count data))
    (Some (get_last_whipsaw_date data)).

Definition write_positions_state (state : gmap string position_state)
    : gmap string position_state :=
  csv_record <$> filter (fun kv => written (snd kv) = true) state.

End Stops.

(** ** Re-entry governor and the status pipeline of [main] *)

Module Entry.

Import Regime.

Definition TREND_EFFICIENCY_GATE_ENABLED : bool := true.
Definition TREND_EFFICIENCY_MIN_FOR_READY : Q := 3 # 10.
Definition FAST_FOLLOWER_ENABLED : bool := true.
Definition FAST_FOLLOWER_LOOKBACK_DAYS : Z := 10.
Definition FAST_FOLLOWER_VOLUME_RATIO_MIN : Q := 2.
Definition FAST_FOLLOWER_REQUIRE_NEW_HIGH : bool := true.
Definition WHIPSAW_KILL_SWITCH_ENABLED : bool := true.
Definition WHIPSAW_MEMORY_DAYS : Z := 30.
Definition WHIPSAW_PENALTY_DAYS : Z := 60.
Definition WHIPSAW_TRIGGER_COUNT : Z := 2.
Definition HEAT_CHECK_ENABLED : bool := true.
Definition HEAT_CHECK_MOMENTUM_PREMIUM : Q := 1 # 5.

(** The [reason] texts that the pipeline can leave in a row. *)
Inductive row_reason : Type :=
| R_classify (text : string)
| R_efficiency_gate (trend_eff : fnum)
| R_whipsaw_blocked (count remaining : Z)
| R_whipsaw_expired (days : Z)
| R_fast_follower_too_long (days : Z)
| R_fast_follower_not_at_high (close high_20 : fnum)
| R_fast_follower_volume_low (vol_ratio : fnum)
| R_RE_ENTRY_SQUEEZE (days : Z) (vol_ratio : fnum)
| R_market_not_bullish (m : market_regime)
| R_validation_error
| R_none.

Record whipsaw_info : Type := mkWhipsaw {
  whipsaw_blocked : bool;
  whipsaw_reason : row_reason;
  w_whipsaw_count : Z
}.

Record fast_follower_info : Type := mkFastFollower {
  fast_follower_eligible : bool;
  fast_follower_reason : row_reason;
  ff_last_exit_reason : string
}.

(** The keys of [row] read by the fast-follower check. *)
Record entry_row : Type := mkEntryRow {
  e_ticker : string;
  e_is_held : bool;
  e_close : fnum;
  e_high_20 : fnum;
  e_vol_ratio : fnum;
  e_trend_efficiency : fnum;
  e_market_regime : market_regime;
  e_cluster : string
}.

(** [s[:10]] *)
Definition first10 (s : string) : string := substring 0 10 s.

Section WithDates.

(** [datetime.strptime(s, "%Y-%m-%d")] as a day number; [None] is the
    ValueError. *)
Variable strptime : string -> option Z.

Definition check_whipsaw_blocked (ticker : string)
    (pos_state : gmap string position_state) (today_date : string) : whipsaw_info :=
  if negb WHIPSAW_KILL_SWITCH_ENABLED then mkWhipsaw false R_none 0
  else
    match pos_state !! upper ticker with
    | None => mkWhipsaw false R_none 0
    | Some state =>
        let whipsaw_count := get_whipsaw_count state in
        let last_whipsaw_date := get_last_whipsaw_date state in
        if (whipsaw_count <? WHIPSAW_TRIGGER_COUNT)%Z || negb (nonempty last_whipsaw_date)
        then mkWhipsaw false R_none whipsaw_count
        else
          match strptime last_whipsaw_date, strptime (first10 today_date) with
          | Some whipsaw_dt, Some today_dt =>
              let days_since_whipsaw := (today_dt - whipsaw_dt)%Z in
              if (days_since_whipsaw <? WHIPSAW_PENALTY_DAYS)%Z
              then mkWhipsaw true
                     (R_whipsaw_blocked whipsaw_count
                        (WHIPSAW_PENALTY_DAYS - days_since_whipsaw)%Z)
                     whipsaw_count
              else mkWhipsaw false (R_whipsaw_expired days_since_whipsaw) whipsaw_count
          | _, _ => mkWhipsaw false R_none whipsaw_count
          end
    end.

Definition check_fast_follower_reentry (ticker : string) (row : entry_row)
    (pos_state : gmap string position_state) (today_date : string)
    : fast_follower_info :=
  if negb FAST_FOLLOWER_ENABLED then mkFastFollower false R_none EmptyString
  else if e_is_held row then mkFastFollower false R_none EmptyString
  else
    match pos_state !! upper ticker with
    | None => mkFastFollower false R_none EmptyString
    | Some state =>
        let last_exit_date := get_last_exit_date state in
        let last_exit_reason := get_last_exit_reason state in
        if negb (String.eqb last_exit_reason "STOP_HIT")
        then mkFastFollower false R_none last_exit_reason
        else if negb (nonempty last_exit_date)
        then mkFastFollower false R_none last_exit_reason
        else
          match strptime (first10 last_exit_date), strptime (first10 today_date) with
          | Some exit_dt, Some today_dt =>
              let days_since_exit := (today_dt - exit_dt)%Z in
              if (FAST_FOLLOWER_LOOKBACK_DAYS <? days_since_exit)%Z
              then mkFastFollower false (R_fast_follower_too_long days_since_exit)
                     last_exit_reason
              else if negb (isfinite (e_close row) && isfinite (e_high_20 row))
              then mkFastFollower false R_none last_exit_reason
              else if FAST_FOLLOWER_REQUIRE_NEW_HIGH && flt (e_close row) (e_high_20 row)
              then mkFastFollower false
                     (R_fast_follower_not_at_high (e_close row) (e_high_20 row))
                     last_exit_reason
              else if negb (isfinite (e_vol_ratio row))
                      || flt (e_vol_ratio row) (Fin FAST_FOLLOWER_VOLUME_RATIO_MIN)
              then mkFastFollower false (R_fast_follower_volume_low (e_vol_ratio row))
                     last_exit_reason
              else mkFastFollower true
                     (R_RE_ENTRY_SQUEEZE days_since_exit (e_vol_ratio row))
                     last_exit_reason
          | _, _ => mkFastFollower false R_none last_exit_reason
          end
    end.

(** The status and reason that the per-instrument body of [main] leaves in
    the row.  [classified] is the pair returned by [classify];
    [validation_ok] is [_vr.ok], the verdict of [validate_ticker_full]
    (module [ticker_validation]). *)
Definition row_status (row : entry_row) (classified : status * row_reason)
    (pos_state : gmap string position_state) (today_str : string)
    (validation_ok : bool) : status * row_reason :=
  let '(status, reason) := classified in
  (* trend efficiency gate *)
  let '(status, reason) :=
    if TREND_EFFICIENCY_GATE_ENABLED && status_eqb status READY then
      if isfinite (e_trend_efficiency row)
         && flt (e_trend_efficiency row) (Fin TREND_EFFICIENCY_MIN_FOR_READY)
      then (WATCH, R_efficiency_gate (e_trend_efficiency row))
      else (status, reason)
    else (status, reason) in
  (* whipsaw kill switch *)
  let whipsaw_info := check_whipsaw_blocked (e_ticker row) pos_state today_str in
  let '(status, reason) :=
    if whipsaw_blocked whipsaw_info && status_eqb status READY
    then (WATCH, whipsaw_reason whipsaw_info)
    else (status, reason) in
  (* fast-follower re-entry *)
  let fast_follower :=
    check_fast_follower_reentry (e_ticker row) row pos_state today_str in
  let '(status, reason) :=
    if fast_follower_eligible fast_follower && negb (e_is_held row)
    then (READY, fast_follower_reason fast_follower)
    else (status, reason) in
  (* strict BULLISH-only signals for new entries *)
  let '(status, reason) :=
    if negb (e_is_held row) && negb (market_regime_eqb (e_market_regime row) BULLISH)
    then (IGNORE, R_market_not_bullish (e_market_regime row))
    else (status, reason) in
  (* validation errors block new entries *)
  if negb validation_ok && negb (e_is_held row) && status_eqb status READY
  then (WATCH, R_validation_error)
  else (status, reason).

End WithDates.

(** A reading of [strptime] for zero-padded ISO dates ("2026-11-03"), as a
    day number of the proleptic Gregorian calendar; it is used to run the
    checks on concrete dates. *)
Definition digit (c : ascii) : option Z :=
  let n := nat_of_ascii c in
  if ((48 <=? n) && (n <=? 57))%nat then Some (Z.of_nat (n - 48)) else None.

Fixpoint digits (s : string) (acc : Z) : option Z :=
  match s with
  | EmptyString => Some acc
  | String c r =>
      match digit c with
      | Some d => digits r (10 * acc + d)%Z
      | None => None
      end
  end.

Definition is_leap (y : Z) : bool :=
  ((y mod 4 =? 0) && (negb (y mod 100 =? 0) || (y mod 400 =? 0)))%Z.

Definition days_in_month (y m : Z) : Z :=
  if (m =? 2)%Z then (if is_leap y then 29 else 28)%Z
  else if ((m =? 4) || (m =? 6) || (m =? 9) || (m =? 11))%Z then 30%Z
  else 31%Z.

Definition days_from_civil (y m d : Z) : Z :=
  let y := (if m <=? 2 then y - 1 else y)%Z in
  let era := (y / 400)%Z in
  let yoe := (y - era * 400)%Z in
  let doy := ((153 * (if 2 <? m then m - 3 else m + 9) + 2) / 5 + d - 1)%Z in
  let doe := (yoe * 365 + yoe / 4 - yoe / 100 + doy)%Z in
  (era * 146097 + doe - 719468)%Z.

Definition iso_strptime (s : string) : option Z :=
  if negb ((String.length s =? 10)%nat
           && String.eqb (substring 4 1 s) "-"
           && String.eqb (substring 7 1 s) "-")
  then None
  else
    match digits (substring 0 4 s) 0, digits (substring 5 2 s) 0,
          digits (substring 8 2 s) 0 with
    | Some y, Some m, Some d =>
        if ((1 <=? m) && (m <=? 12) && (1 <=? d) && (d <=? days_in_month y m))%Z
        then Some (days_from_civil y m d)
        else None
    | _, _, _ => None
    end.

(** A symbol stopped out twice, the second time on 2026-10-30, that closes
    at its 20-day high on 2.5 times the usual volume on 2026-11-03. *)
Definition whipsawed_state : position_state :=
  mkState NaN NaN NaN 0 ""
    (Some "2026-10-30") (Some (Fin (-1))) (Some "STOP_HIT") (Some 2%Z)
    (Some "2026-10-30").

Definition whipsawed_table : gmap string position_state :=
  {[ "ABC" := whipsawed_state ]}.

Definition squeeze_row : entry_row :=
  mkEntryRow "ABC" false (Fin 50) (Fin 50) (Fin (5 # 2)) (Fin (1 # 2)) BULLISH "TECH".

(** [check_heat_check]: the [blocked] flag.  The threshold is the global
    [HEAT_CHECK_CLUSTER_THRESHOLD] (3, or 4 in small-account mode). *)
Definition check_heat_check (HEAT_CHECK_CLUSTER_THRESHOLD : Z)
    (is_held : bool) (cluster : string) (rank_score : fnum)
    (cluster_holdings : gmap string Z)
    (cluster_momentum_avg : gmap string fnum) : bool :=
  if negb HEAT_CHECK_ENABLED then false
  else if is_held then false
  else if negb (nonempty cluster) then false
  else
    let held_count := default 0%Z (cluster_holdings !! cluster) in
    if (held_count <? HEAT_CHECK_CLUSTER_THRESHOLD)%Z then false
    else if negb (isfinite rank_score) then true
    else
      let avg_rank := default NaN (cluster_momentum_avg !! cluster) in
      if negb (isfinite avg_rank) then false
      else
        let threshold :=
          fmul avg_rank (fsub (Fin 1) (Fin HEAT_CHECK_MOMENTUM_PREMIUM)) in
        negb (fle rank_score threshold).

(** The heat-check pass over the finished rows: a blocked READY candidate
    is downgraded to WATCH. *)
Definition heat_checked_status (HEAT_CHECK_CLUSTER_THRESHOLD : Z)
    (row : entry_row) (st : status) (rank_score : fnum)
    (cluster_holdings : gmap string Z)
    (cluster_momentum_avg : gmap string fnum) : status :=
  if HEAT_CHECK_ENABLED then
    if negb (e_is_held row) && (status_eqb st READY || status_eqb st WATCH) then
      if check_heat_check HEAT_CHECK_CLUSTER_THRESHOLD (e_is_held row)
           (e_cluster row) rank_score cluster_holdings cluster_momentum_avg
      then if status_eqb st READY then WATCH else st
      else st
    else st
  else st.

(** The status written to the snapshot for one instrument. *)
Definition final_status (strptime : string -> option Z)
    (HEAT_CHECK_CLUSTER_THRESHOLD : Z) (row : entry_row)
    (classified : status * row_reason)
    (pos_state : gmap string position_state) (today_str : string)
    (validation_ok : bool) (rank_score : fnum)
    (cluster_holdings : gmap string Z)
    (cluster_momentum_avg : gmap string fnum) : status :=
  heat_checked_status HEAT_CHECK_CLUSTER_THRESHOLD row
    (fst (row_status strptime row classified pos_state today_str validation_ok))
    rank_score cluster_holdings cluster_momentum_avg.

End Entry.

(** ** The universe and its de-duplication ([enforce_unique_underlyings]) *)

Module Universe.

Record universe_row : Type := mkRow {
  u_ticker : string;
  u_ticker_yf : string;
  u_sleeve : sleeve
}.

(** [SLEEVE_PRIORITY] *)
Definition SLEEVE_PRIORITY (s : sleeve) : nat :=
  match s with
  | HEDGE => 0
  | ETF_CORE => 1
  | STOCK_CORE => 2
  | STOCK_HIGH_RISK => 3
  end.

Record dropped_row : Type := mkDropped {
  d_ticker_yf : string;
  d_kept_sleeve : sleeve;
  d_dropped_sleeve : sleeve;
  d_ticker : string
}.

(** Insertion of a key in a list sorted by code points. *)
Fixpoint insert_key (k : string) (l : list string) : list string :=
  match l with
  | [] => [k]
  | x :: r => if String.leb k x then k :: l else x :: insert_key k r
  end.

(** The group keys of [groupby("ticker_yf")]: distinct and sorted. *)
Definition group_keys (dfu : list universe_row) : list string :=
  fold_right insert_key [] (nodup string_dec (map u_ticker_yf dfu)).

(** The rows of one group, in frame order. *)
Definition group_of (tyf : string) (dfu : list universe_row) : list universe_row :=
  List.filter (fun r => String.eqb (u_ticker_yf r) tyf) dfu.

(** The [__prio] column. *)
Definition prio (r : universe_row) : nat := SLEEVE_PRIORITY (u_sleeve r).

(** [g.sort_values("__prio")], with rows of equal priority kept in frame
    order.  (pandas does not promise that order; rows of equal priority
    have the same sleeve, so the sleeve of the kept row does not depend on
    it.) *)
Fixpoint insert_by_prio (r : universe_row) (l : list universe_row) : list universe_row :=
  match l with
  | [] => [r]
  | x :: rest =>
      if (prio r <=? prio x)%nat then r :: l
      else x :: insert_by_prio r rest
  end.

Definition sort_by_prio (g : list universe_row) : list universe_row :=
  fold_right insert_by_prio [] g.

Definition enforce_unique_underlyings (dfu : list universe_row)
    : list universe_row * list dropped_row :=
  match dfu with
  | [] => (dfu, [])
  | _ =>
      let groups := map (fun tyf => (tyf, sort_by_prio (group_of tyf dfu))) (group_keys dfu) in
      (flat_map (fun kg => match snd kg with
                           | keep :: _ => [keep]
                           | [] => []
                           end) groups,
       flat_map (fun kg => match snd kg with
                           | keep :: rest =>
                               map (fun r => mkDropped (fst kg) (u_sleeve keep)
                                               (u_sleeve r) (u_ticker r)) rest
                           | [] => []
                           end) groups)
  end.

(** The rows kept for the keys [ks], key by key. *)
Definition kept (dfu : list universe_row) (ks : list string) : list universe_row :=
  flat_map (fun kg : string * list universe_row =>
              match snd kg with keep :: _ => [keep] | [] => [] end)
    (map (fun tyf => (tyf, sort_by_prio (group_of tyf dfu))) ks).

(** The first row of a list has the least priority number of the list. *)
Definition head_minimal (l : list universe_row) : Prop :=
  match l with
  | [] => True
  | h :: _ => forall x, In x l -> (prio h <= prio x)%nat
  end.

(** The universe list read for a sleeve. *)
Definition sleeve_list (hedge etfs core risk : list string) (s : sleeve) : list string :=
  match s with
  | HEDGE => hedge
  | ETF_CORE => etfs
  | STOCK_CORE => core
  | STOCK_HIGH_RISK => risk
  end.

Section WithTickerMap.

(** [map_ticker(t, tmap)]: the Yahoo ticker of a listed symbol. *)
Variable map_ticker : string -> string.

(** Lines 4912-4921 of [main]: the four lists, HEDGE first. *)
Definition build_universe (hedge etfs core risk : list string) : list universe_row :=
  map (fun t => mkRow t (map_ticker t) HEDGE) hedge
  ++ map (fun t => mkRow t (map_ticker t) ETF_CORE) etfs
  ++ map (fun t => mkRow t (map_ticker t) STOCK_CORE) core
  ++ map (fun t => mkRow t (map_ticker t) STOCK_HIGH_RISK) risk.

Definition lists_underlying (tyf : string) (l : list string) : bool :=
  existsb (fun t => String.eqb (map_ticker t) tyf) l.

(** The sleeve the specification assigns to an underlying: the first of
    HEDGE, ETF_CORE, STOCK_CORE, STOCK_HIGH_RISK whose list names it. *)
Definition sleeve_by_priority (hedge etfs core risk : list string) (tyf : string)
    : sleeve :=
  if lists_underlying tyf hedge then HEDGE
  else if lists_underlying tyf etfs then ETF_CORE
  else if lists_underlying tyf core then STOCK_CORE
  else STOCK_HIGH_RISK.

End WithTickerMap.

(** Four small lists in which GLD is both a hedge and an ETF and NVDA is
    listed twice under different broker codes. *)
Definition example_map (t : string) : string :=
  if String.eqb t "NVDA_US_EQ" then "NVDA" else t.

Definition example_universe : list universe_row :=
  build_universe example_map ["GLD"] ["GLD"; "VWRL"] ["NVDA_US_EQ"] ["NVDA"].

End Universe.

(** ** The per-instrument loop of [main] and its skips *)

Module Loop.

Import Universe.

Inductive skip_reason : Type :=
| INSUFFICIENT_BARS
| STALE_DATA (age_days : Z)
| EXCEPTION (name : string).

Record skip : Type := mkSkip {
  s_ticker : string;
  s_ticker_yf : string;
  s_reason : skip_reason
}.

(** Every [reason] is a non-empty text. *)
Definition reason_text (r : skip_reason) : string :=
  match r with
  | INSUFFICIENT_BARS => "INSUFFICIENT_BARS"
  | STALE_DATA _ => "STALE_DATA age_days="
  | EXCEPTION name => "EXCEPTION " ++ name
  end.

Section WithData.

(** A downloaded frame after [dropna(how="all")] and [sort_index()]. *)
Variable frame : Type.
(** [raw[tyf]]; [None] is the KeyError. *)
Variable raw : string -> option frame.
Variable df_empty : frame -> bool.
Variable len : frame -> nat.
(** [(now_utc.normalize() - last_bar.normalize()).days] *)
Variable age_days : frame -> Z.
Variable max_data_age_days : Z.

(** The output row of an evaluated instrument and the rest of the loop
    body (from [compute_metrics] to [out_rows.append(row)]): it returns the
    row, or the name of the exception it raised, and the state table as it
    left it. *)
Variable out_row : Type.
Variable evaluate :
  universe_row -> frame -> gmap string position_state ->
  (string + out_row) * gmap string position_state.

Record run : Type := mkRun {
  out_rows : list (universe_row * out_row);
  skips : list skip;
  pos_state : gmap string position_state
}.

Definition add_skip (u : universe_row) (r : skip_reason) (acc : run) : run :=
  mkRun (out_rows acc)
    (skips acc ++ [mkSkip (u_ticker u) (u_ticker_yf u) r])
    (pos_state acc).

(** One iteration of [for _, u in dfu.iterrows()]. *)
Definition loop_body (acc : run) (u : universe_row) : run :=
  match raw (u_ticker_yf u) with
  | None => add_skip u (EXCEPTION "KeyError") acc
  | Some df =>
      if df_empty df || (len df <? 230)%nat then add_skip u INSUFFICIENT_BARS acc
      else if (max_data_age_days <? age_days df)%Z
      then add_skip u (STALE_DATA (age_days df)) acc
      else
        match evaluate u df (pos_state acc) with
        | (inr row, st) => mkRun (out_rows acc ++ [(u, row)]) (skips acc) st
        | (inl name, st) =>
            mkRun (out_rows acc)
              (skips acc ++ [mkSkip (u_ticker u) (u_ticker_yf u) (EXCEPTION name)])
              st
        end
  end.

Definition main_loop (dfu : list universe_row)
    (state : gmap string position_state) : run :=
  fold_left loop_body dfu (mkRun [] [] state).

(** The instruments of the claim: a series that is empty, shorter than 230
    bars, or stale. *)
Definition data_skipped (u : universe_row) : bool :=
  match raw (u_ticker_yf u) with
  | None => false
  | Some df =>
      df_empty df || (len df <? 230)%nat || (max_data_age_days <? age_days df)%Z
  end.

End WithData.

(** A download of three series, given as (number of bars, age in days): a
    good one, a short one and a stale one; and a universe that also names a
    symbol without data. *)
Definition example_raw (tyf : string) : option (nat * Z) :=
  if String.eqb tyf "AAA" then Some (250%nat, 1%Z)
  else if String.eqb tyf "BBB" then Some (100%nat, 1%Z)
  else if String.eqb tyf "CCC" then Some (250%nat, 30%Z)
  else None.

Definition example_evaluate (u : universe_row) (df : nat * Z)
    (st : gmap string position_state)
    : (string + string) * gmap string position_state :=
  (inr (u_ticker u), st).

Definition example_dfu : list universe_row :=
  [mkRow "BBB" "BBB" STOCK_CORE; mkRow "AAA" "AAA" STOCK_CORE;
   mkRow "CCC" "CCC" ETF_CORE; mkRow "DDD" "DDD" STOCK_HIGH_RISK].

Definition example_run : run string :=
  main_loop (nat * Z) example_raw (fun df => (fst df =? 0)%nat) fst snd 5 string
    example_evaluate example_dfu ∅.

End Loop.

(** ** Open risk and its aggregation ([add_risk_columns]) *)

Module Risk.

(** [assign_cluster] *)
Definition assign_cluster (ticker_yf : string) (sl : sleeve)
    (cluster_map : gmap string string) : string :=
  match cluster_map !! ticker_yf with
  | Some c => c
  | None =>
      match sl with
      | ETF_CORE => "ETF_CORE"
      | HEDGE => "HEDGE"
      | _ => "STOCKS"
      end
  end.

(** The columns read by the held-risk block. *)
Record risk_row : Type := mkRiskRow {
  k_sleeve : sleeve;
  k_cluster : string;
  k_is_held : bool;
  k_t212_quantity : fnum;
  k_close : fnum;
  k_active_stop : fnum;
  k_stop_level : fnum;
  k_fx_to_gbp_est : fnum
}.

Definition held_stop_used (r : risk_row) : fnum :=
  if isfinite (k_active_stop r) then k_active_stop r else k_stop_level r.

Definition held_stop_dist_local (r : risk_row) : fnum :=
  let d := fsub (k_close r) (held_stop_used r) in
  if flt d (Fin 0) then Fin 0 else d.

Definition held_risk_gbp (r : risk_row) : fnum :=
  if k_is_held r
  then fmul (fmul (k_t212_quantity r) (held_stop_dist_local r)) (k_fx_to_gbp_est r)
  else Fin 0.

Definition isnan (x : fnum) : bool :=
  match x with NaN => true | _ => false end.

(** [Series.sum(skipna=True)] and the group sum of [transform("sum")]. *)
Fixpoint nansum (l : list fnum) : fnum :=
  match l with
  | [] => Fin 0
  | x :: rest => if isnan x then nansum rest else fadd x (nansum rest)
  end.

Definition open_risk_gbp_total (df : list risk_row) : fnum :=
  nansum (map held_risk_gbp df).

Definition open_risk_gbp_ex_hedge (df : list risk_row) : fnum :=
  nansum (map held_risk_gbp
            (List.filter (fun r => negb (sleeve_eqb (k_sleeve r) HEDGE)) df)).

Definition hedge_risk_gbp (df : list risk_row) : fnum :=
  nansum (map held_risk_gbp
            (List.filter (fun r => sleeve_eqb (k_sleeve r) HEDGE) df)).

(** The value of [cluster_risk_gbp] on the rows of cluster [c]. *)
Definition cluster_risk_gbp (df : list risk_row) (c : string) : fnum :=
  nansum (map held_risk_gbp
            (List.filter (fun r => String.eqb (k_cluster r) c) df)).

(** The distinct clusters of the frame. *)
Definition clusters (df : list risk_row) : list string :=
  nodup string_dec (map k_cluster df).

(** The plain sum of a list of amounts. *)
Definition sum_list (l : list fnum) : fnum := fold_right fadd (Fin 0) l.

(** Sum of the per-cluster exposure over the clusters selected by [keep]. *)
Definition sum_cluster_risk (df : list risk_row) (keep : string -> bool) : fnum :=
  sum_list (map (cluster_risk_gbp df) (List.filter keep (clusters df))).

Definition not_hedge_cluster (c : string) : bool := negb (String.eqb c "HEDGE").

Definition any_cluster (c : string) : bool := true.

(** Membership of a cluster label in a list of labels. *)
Definition mem (c : string) (ks : list string) : bool := existsb (String.eqb c) ks.

(** A held gold tracker of the HEDGE sleeve that the cluster map files
    under GOLD (10 units, close 10, stop 9, quoted in pounds), next to a
    held stock (5 units, close 20, stop 18); and the same two positions
    when the cluster map is empty. *)
Definition example_cluster_map : gmap string string :=
  {[ "SGLN.L" := "GOLD"; "NVDA" := "SEMIS" ]}.

Definition unmapped_frame : list risk_row :=
  [mkRiskRow HEDGE (assign_cluster "SGLN.L" HEDGE ∅) true
     (Fin 10) (Fin 10) (Fin 9) (Fin 8) (Fin 1);
   mkRiskRow STOCK_CORE (assign_cluster "NVDA" STOCK_CORE ∅) true
     (Fin 5) (Fin 20) NaN (Fin 18) (Fin 1)].

Definition example_frame : list risk_row :=
  [mkRiskRow HEDGE (assign_cluster "SGLN.L" HEDGE example_cluster_map) true
     (Fin 10) (Fin 10) (Fin 9) (Fin 8) (Fin 1);
   mkRiskRow STOCK_CORE (assign_cluster "NVDA" STOCK_CORE example_cluster_map) true
     (Fin 5) (Fin 20) NaN (Fin 18) (Fin 1)].

End Risk.

(** ** Ranking ([add_rank_score]) and the metrics it ranks on *)

Module Rank.

Definition LOOKBACK_HIGH_20 : nat := 20.
Definition LOOKBACK_LOW_20 : nat := 20.
Definition LOOKBACK_HIGH_55 : nat := 55.
Definition RS_LOOKBACK_DAYS : nat := 63.
Definition TREND_EFFICIENCY_ENABLED : bool := true.
Definition TREND_EFFICIENCY_BOOST_THRESHOLD : Q := 45 # 100.
Definition TREND_EFFICIENCY_PENALTY_THRESHOLD : Q := 3 # 10.
Definition RS_RANKING_ENABLED : bool := true.

(** The last [n] values of a series. *)
Definition last_n (n : nat) (l : list fnum) : list fnum :=
  skipn (length l - n) l.

Definition has_nan (l : list fnum) : bool := existsb Risk.isnan l.

Definition fmax (a b : fnum) : fnum := if flt a b then b else a.
Definition fmin (a b : fnum) : fnum := if flt b a then b else a.

(** [price.rolling(n).max().iloc[-1]] and [.min()]: NaN unless the window
    holds [n] valid observations. *)
Definition rolling_max_last (n : nat) (price : list fnum) : fnum :=
  match last_n n price with
  | [] => NaN
  | x :: w =>
      if (length price <? n)%nat || has_nan (x :: w) then NaN
      else fold_left fmax w x
  end.

Definition rolling_min_last (n : nat) (price : list fnum) : fnum :=
  match last_n n price with
  | [] => NaN
  | x :: w =>
      if (length price <? n)%nat || has_nan (x :: w) then NaN
      else fold_left fmin w x
  end.

(** Python's [x != 0] and truthiness of a float: NaN counts as non-zero. *)
Definition nonzero (x : fnum) : bool :=
  match x with
  | Fin q => negb (Qeq_bool q 0)
  | _ => true
  end.

Record price_metrics : Type := mkMetrics {
  m_close : fnum;
  m_high_20 : fnum;
  m_low_20 : fnum;
  m_high_55 : fnum;
  m_dist_20 : fnum;
  m_dist_55 : fnum;
  m_range_position_20 : fnum;
  m_return_3m : fnum
}.

(** The level and distance metrics of [compute_metrics] on the cleaned
    price series. *)
Definition compute_metrics (price : list fnum) : price_metrics :=
  let close := List.last price NaN in
  let high_20 := rolling_max_last LOOKBACK_HIGH_20 price in
  let low_20 := rolling_min_last LOOKBACK_LOW_20 price in
  let high_55 := rolling_max_last LOOKBACK_HIGH_55 price in
  let dist_20 :=
    if nonzero high_20 then fmul (fdiv (fsub high_20 close) high_20) (Fin 100) else NaN in
  let dist_55 :=
    if nonzero high_55 then fmul (fdiv (fsub high_55 close) high_55) (Fin 100) else NaN in
  let range_position_20 :=
    if nonzero (fsub high_20 low_20)
    then fdiv (fsub close low_20) (fsub high_20 low_20) else NaN in
  let return_3m :=
    if RS_RANKING_ENABLED && (RS_LOOKBACK_DAYS <=? length price)%nat then
      let price_3m_ago := nth (RS_LOOKBACK_DAYS - 1) (rev price) NaN in
      if isfinite price_3m_ago && fgt price_3m_ago (Fin 0)
      then fdiv (fsub close price_3m_ago) price_3m_ago else NaN
    else NaN in
  mkMetrics close high_20 low_20 high_55 dist_20 dist_55 range_position_20 return_3m.

(** [compute_relative_strength]: the [rs_vs_benchmark] entry. *)
Definition compute_relative_strength (stock_return_3m benchmark_return_3m : fnum) : fnum :=
  if negb RS_RANKING_ENABLED then NaN
  else if isfinite stock_return_3m && isfinite benchmark_return_3m
  then fsub stock_return_3m benchmark_return_3m
  else NaN.

(** The columns read by [add_rank_score]. *)
Record rank_row : Type := mkRankRow {
  r_is_held : bool;
  r_status : status;
  r_sleeve : sleeve;
  r_regime : trade_regime;
  distance_to_55d_high_pct : fnum;
  distance_to_20d_high_pct : fnum;
  range_position_20 : fnum;
  r_adx_14 : fnum;
  r_vol_ratio : fnum;
  r_extension_atr : fnum;
  r_trend_efficiency : fnum;
  rs_vs_benchmark : fnum
}.

(** The row that [main] hands to [add_rank_score] for an instrument with
    cleaned prices [price]. *)
Definition rank_row_of (price : list fnum) (benchmark_return_3m : fnum)
    (held : bool) (st : status) (sl : sleeve) (rg : trade_regime)
    (adx volr ext eff : fnum) : rank_row :=
  let m := compute_metrics price in
  mkRankRow held st sl rg (m_dist_55 m) (m_dist_20 m) (m_range_position_20 m)
    adx volr ext eff
    (compute_relative_strength (m_return_3m m) benchmark_return_3m).

Definition is_etf (r : rank_row) : bool := sleeve_eqb (r_sleeve r) ETF_CORE.
Definition is_core_tr (r : rank_row) : bool :=
  sleeve_eqb (r_sleeve r) STOCK_CORE && trade_regime_eqb (r_regime r) TREND.
Definition is_core_rg (r : rank_row) : bool :=
  sleeve_eqb (r_sleeve r) STOCK_CORE && trade_regime_eqb (r_regime r) RANGE.
Definition is_hi_tr (r : rank_row) : bool :=
  sleeve_eqb (r_sleeve r) STOCK_HIGH_RISK && trade_regime_eqb (r_regime r) TREND.
Definition is_hi_rg (r : rank_row) : bool :=
  sleeve_eqb (r_sleeve r) STOCK_HIGH_RISK && trade_regime_eqb (r_regime r) RANGE.

(** [rank_bucket] (the array [base]). *)
Definition rank_bucket (r : rank_row) : fnum :=
  if is_hi_rg r then Fin 4
  else if is_hi_tr r then Fin 3
  else if is_etf r then Fin 2
  else if is_core_rg r then Fin 1
  else if is_core_tr r then Fin 0
  else NaN.

Definition primary (r : rank_row) : fnum :=
  if is_core_rg r || is_hi_rg r then fmul (range_position_20 r) (Fin 100)
  else if is_core_tr r || is_hi_tr r then distance_to_20d_high_pct r
  else if is_etf r then distance_to_55d_high_pct r
  else NaN.

(** [np.clip] *)
Definition fclip (x lo hi : fnum) : fnum :=
  if flt x lo then lo else if fgt x hi then hi else x.

Definition tie (r : rank_row) : fnum :=
  let adx := r_adx_14 r in
  let volr := r_vol_ratio r in
  let ext := r_extension_atr r in
  let trend_eff := r_trend_efficiency r in
  let rs_score := rs_vs_benchmark r in
  let tie := Fin 0 in
  let tie := fadd tie (if isfinite adx then fdiv (fneg adx) (Fin 100) else Fin 0) in
  let tie := fadd tie (if isfinite volr
                       then fdiv (fneg (fclip volr (Fin 0) (Fin 5))) (Fin 100)
                       else Fin 0) in
  let tie := fadd tie (if isfinite ext
                       then fdiv (fclip ext (Fin (-5)) (Fin 5)) (Fin 1000)
                       else Fin 0) in
  let tie :=
    if TREND_EFFICIENCY_ENABLED then
      let tie := fadd tie (if isfinite trend_eff
                              && fge trend_eff (Fin TREND_EFFICIENCY_BOOST_THRESHOLD)
                           then Fin (- (1 # 2)) else Fin 0) in
      fadd tie (if isfinite trend_eff
                   && flt trend_eff (Fin TREND_EFFICIENCY_PENALTY_THRESHOLD)
                then Fin (3 # 10) else Fin 0)
    else tie in
  if RS_RANKING_ENABLED then
    let tie := fadd tie (if isfinite rs_score && fgt rs_score (Fin 0)
                         then fneg (fclip (fmul rs_score (Fin 200)) (Fin 0) (Fin 50))
                         else Fin 0) in
    fadd tie (if isfinite rs_score && flt rs_score (Fin 0)
              then fmul (fneg rs_score) (Fin 50) else Fin 0)
  else tie.

(** A positive finite price. *)
Definition is_positive (x : fnum) : bool := isfinite x && fgt x (Fin 0).

Definition positive_prices (price : list fnum) : bool := forallb is_positive price.

(** ADX, when it is defined, lies between 0 and 100. *)
Definition adx_in_range (x : fnum) : bool :=
  negb (isfinite x) || (fle (Fin 0) x && fle x (Fin 100)).

(** The benchmark's three-month return, when it is defined, is at most
    [bound]. *)
Definition return_at_most (bound : Q) (x : fnum) : bool :=
  negb (isfinite x) || fle x (Fin bound).

(** [x] is a finite number between [lo] and [hi]. *)
Definition within (lo hi : Q) (x : fnum) : Prop :=
  exists q, x = Fin q /\ lo <= q /\ q <= hi.

(** [x], when it is defined, is at least [bound]. *)
Definition at_least (bound : Q) (x : fnum) : Prop :=
  forall q, x = Fin q -> bound <= q.

(** The mask [ok] and the columns [rankable] and [rank_score]. *)
Definition rankable (r : rank_row) : bool :=
  negb (r_is_held r)
  && (status_eqb (r_status r) READY || status_eqb (r_status r) WATCH)
  && isfinite (rank_bucket r) && isfinite (primary r).

Definition rank_score (r : rank_row) : fnum :=
  if rankable r
  then fadd (fadd (fmul (rank_bucket r) (Fin 1000000)) (fmul (primary r) (Fin 1000)))
         (tie r)
  else NaN.

(** Two candidates in a market whose benchmark rose 30000-fold in three
    months: a flat core stock in a TREND regime, and a core stock in a
    RANGE regime that rose with the benchmark and closes at its high. *)
Definition flat_prices : list fnum := repeat (Fin 100) 230.
Definition soaring_prices : list fnum := repeat (Fin 1) 229 ++ [Fin 30001].

Definition flat_trend_stock : rank_row :=
  rank_row_of flat_prices (Fin 30000) false READY STOCK_CORE TREND
    (Fin 30) (Fin 1) (Fin 0) (Fin (1 # 2)).

Definition soaring_range_stock : rank_row :=
  rank_row_of soaring_prices (Fin 30000) false READY STOCK_CORE RANGE
    (Fin 30) (Fin 1) (Fin 0) (Fin (1 # 2)).

(** Two short series for a calm market (benchmark up 5 per cent): a flat
    one and one that closes at a new high. *)
Definition short_flat_prices : list fnum := repeat (Fin 100) 25.
Definition short_rising_prices : list fnum := repeat (Fin 100) 24 ++ [Fin 110].

End Rank.

(** ** Signals for held positions and re-entries *)

Module Signals.

Import Regime Stops Entry.

Definition LAGGARD_PURGE_ENABLED : bool := true.
Definition LAGGARD_HOLDING_DAYS : Z := 10.
Definition LAGGARD_MIN_LOSS_PCT : Q := 2.
Definition CLIMAX_EXIT_ENABLED : bool := true.
Definition CLIMAX_ATR_TIGHTEN_MULT : Q := 3 # 2.
Definition EXEC_GUARD_ENABLED : bool := true.
Definition EXEC_GUARD_MAX_ATR_ABOVE_TRIGGER : Q := 75 # 100.
Definition EXEC_GUARD_MAX_PCT_ABOVE_TRIGGER : Q := 3 # 100.
Definition PYRAMIDING_ENABLED : bool := true.
Definition PYRAMID_ADD_1_ATR : Q := 1 # 2.
Definition PYRAMID_ADD_2_ATR : Q := 1.
Definition PYRAMID_MAX_ADDS : Z := 2.
Definition REENTRY_ENABLED : bool := true.
Definition REENTRY_MIN_PROFIT_R : Q := 1 # 2.
Definition REENTRY_COOLDOWN_DAYS : Z := 5.

(** *** [compute_exit_signal] *)

(** The [held_action] column: empty, or one of the texts below. *)
Inductive held_action : Type :=
| A_none
| A_SELL
| A_HOLD
| A_EXIT_CLIMAX
| A_TRIM_LAGGARD.

Definition is_HOLD (a : held_action) : bool :=
  match a with A_HOLD => true | _ => false end.

Inductive exit_reason : Type :=
| ER_none
| ER_etf_exit (stop : fnum)
| ER_no_etf_trigger
| ER_stock_exit (stop : fnum)
| ER_no_stock_trigger.

(** The keys read by [compute_exit_signal]; [active_stop] and [stop_level]
    are read with [row.get] and may be absent. *)
Record exit_row : Type := mkExitRow {
  x_is_held : bool;
  x_close : fnum;
  x_sleeve : sleeve;
  x_active_stop : option fnum;
  x_low_20 : fnum;
  x_stop_level : option fnum
}.

Definition compute_exit_signal (row : exit_row) : held_action * exit_reason :=
  if negb (x_is_held row) then (A_none, ER_none)
  else if sleeve_eqb (x_sleeve row) ETF_CORE then
    let etf_stop := default (x_low_20 row) (x_active_stop row) in
    let etf_stop := if negb (isfinite etf_stop) then x_low_20 row else etf_stop in
    if flt (x_close row) etf_stop then (A_SELL, ER_etf_exit etf_stop)
    else (A_HOLD, ER_no_etf_trigger)
  else
    let stop_level := default (default NaN (x_stop_level row)) (x_active_stop row) in
    let stop_level :=
      if negb (isfinite stop_level) then default NaN (x_stop_level row)
      else stop_level in
    if isfinite stop_level && flt (x_close row) stop_level
    then (A_SELL, ER_stock_exit stop_level)
    else (A_HOLD, ER_no_stock_trigger).

(** The row as [main] hands it to [compute_exit_signal]: [active_stop] is
    the stateful stop, and for a held instrument with a finite stateful
    stop [stop_level] is overwritten with it. *)
Definition exit_row_of (row : stop_row) (out : stop_out) : exit_row :=
  mkExitRow (is_held row) (close row) (row_sleeve row) (Some (o_active_stop out))
    (low_20 row)
    (Some (if is_held row && isfinite (o_active_stop out)
           then o_active_stop out else stop_level row)).

(** *** [check_climax_exit] *)

(** [CLIMAX_ACTION]: "tighten_stop", "trim", or any other text. *)
Inductive climax_mode : Type := CM_tighten_stop | CM_trim | CM_other.

Inductive climax_action : Type := CA_none | CA_TIGHTEN_STOP | CA_TRIM | CA_SELL.

Definition is_CA_SELL (a : climax_action) : bool :=
  match a with CA_SELL => true | _ => false end.

Record climax_info : Type := mkClimax {
  climax_flag : bool;
  climax_action_of : climax_action;
  climax_suggested_stop : fnum
}.

(** The flag and the info dictionary; the reason text is a formatted
    message and is left out. *)
Definition check_climax_exit (CLIMAX_ACTION : climax_mode)
    (is_held is_climax_top : bool) (close atr active_stop : fnum)
    : bool * climax_info :=
  if negb CLIMAX_EXIT_ENABLED then (false, mkClimax false CA_none NaN)
  else if negb is_held then (false, mkClimax false CA_none NaN)
  else if negb is_climax_top then (false, mkClimax false CA_none NaN)
  else
    match CLIMAX_ACTION with
    | CM_tighten_stop =>
        if isfinite close && isfinite atr && fgt atr (Fin 0) then
          let suggested_stop := fsub close (fmul (Fin CLIMAX_ATR_TIGHTEN_MULT) atr) in
          let suggested_stop :=
            if isfinite active_stop then pymax suggested_stop active_stop
            else suggested_stop in
          (true, mkClimax true CA_TIGHTEN_STOP suggested_stop)
        else (true, mkClimax true CA_TIGHTEN_STOP NaN)
    | CM_trim => (true, mkClimax true CA_TRIM NaN)
    | CM_other => (true, mkClimax true CA_SELL NaN)
    end.

(** *** [check_laggard_purge] *)

(** [str.strip()] for ASCII white space. *)
Definition is_space (c : ascii) : bool :=
  let n := nat_of_ascii c in
  ((9 <=? n) && (n <=? 13) || (28 <=? n) && (n <=? 32))%nat.

Fixpoint lstrip (s : string) : string :=
  match s with
  | String c r => if is_space c then lstrip r else s
  | EmptyString => EmptyString
  end.

Fixpoint rstrip (s : string) : string :=
  match s with
  | String c r =>
      match rstrip r with
      | EmptyString => if is_space c then EmptyString else String c EmptyString
      | r' => String c r'
      end
  | EmptyString => EmptyString
  end.

Definition strip (s : string) : string := rstrip (lstrip s).

Record laggard_info : Type := mkLaggard {
  is_laggard : bool;
  l_holding_days : fnum;
  laggard_loss_pct : fnum
}.

(** [strptime] is [datetime.strptime(s, "%Y-%m-%d")] as a day number and
    [today] is [date.today()] as a day number; [row_holding_days] is
    [row.get("holding_days", np.nan)]. *)
Definition check_laggard_purge (strptime : string -> option Z) (today : Z)
    (is_held : bool) (ticker : string) (close row_holding_days : fnum)
    (pos_state : gmap string position_state) : laggard_info :=
  let out := mkLaggard false NaN NaN in
  if negb LAGGARD_PURGE_ENABLED then out
  else if negb is_held then out
  else
    let state := pos_state !! upper ticker in
    let entry_price := from_option entry_price NaN state in
    if negb (isfinite entry_price) || negb (isfinite close) then out
    else if fge close entry_price then out
    else
      let loss_pct := fmul (fdiv (fsub entry_price close) entry_price) (Fin 100) in
      let entry_date_str := strip (from_option entry_date EmptyString state) in
      let holding_days :=
        if negb (nonempty entry_date_str) || String.eqb entry_date_str "nan" then
          if isfinite row_holding_days then row_holding_days
          else if isfinite (from_option active_stop NaN state)
          then Fin (inject_Z (LAGGARD_HOLDING_DAYS + 1))
          else Fin 0
        else
          match strptime (first10 entry_date_str) with
          | Some entry_date_parsed => Fin (inject_Z (today - entry_date_parsed))
          | None => Fin 0
          end in
      if flt holding_days (Fin (inject_Z LAGGARD_HOLDING_DAYS))
      then mkLaggard false holding_days loss_pct
      else if flt loss_pct (Fin LAGGARD_MIN_LOSS_PCT)
      then mkLaggard false holding_days loss_pct
      else mkLaggard true holding_days loss_pct.

(** *** The [held_action] written by [main] *)

(** Lines 5165-5187: the exit signal, overridden by a climax SELL or by a
    laggard suggestion only while it is HOLD. *)
Definition final_held_action (action : held_action) (is_climax : bool)
    (climax : climax_info) (laggard : laggard_info) : held_action :=
  let action :=
    if is_climax && is_HOLD action then
      if is_CA_SELL (climax_action_of climax) then A_EXIT_CLIMAX else action
    else action in
  if is_laggard laggard && is_HOLD action then A_TRIM_LAGGARD else action.

(** *** [compute_add_signals] *)

Inductive add_action : Type := ADD_none | ADD_HOLD | ADD | ADD_WAIT.

Inductive add_reason : Type :=
| AR_none
| AR_PYRAMIDING_DISABLED
| AR_NOT_TREND_REGIME
| AR_NO_POSITION_STATE
| AR_NO_ENTRY_PRICE
| AR_NO_VALID_ATR
| AR_max_adds_taken
| AR_add_1_triggered
| AR_add_2_triggered
| AR_no_trigger.

Record add_info : Type := mkAdd {
  add_eligible : bool;
  add_level_1 : fnum;
  add_level_2 : fnum;
  add_action_of : add_action;
  add_reason_of : add_reason
}.

(** The function reads [is_held], [regime], [ticker], [atr_14] and [close]
    of the row. *)
Definition compute_add_signals (row : stop_row)
    (pos_state : gmap string position_state) : add_info :=
  let out := mkAdd false NaN NaN ADD_none in
  if negb PYRAMIDING_ENABLED then out AR_PYRAMIDING_DISABLED
  else if negb (is_held row) then out AR_none
  else if negb (trade_regime_eqb (row_regime row) TREND) then out AR_NOT_TREND_REGIME
  else
    match pos_state !! upper (ticker row) with
    | None => out AR_NO_POSITION_STATE
    | Some state =>
        let entry := entry_price state in
        let adds_taken := adds_taken state in
        if negb (isfinite entry) then out AR_NO_ENTRY_PRICE
        else
          let atr := atr_14 row in
          if negb (isfinite atr) || fle atr (Fin 0) then out AR_NO_VALID_ATR
          else
            let lvl1 := fadd entry (fmul (Fin PYRAMID_ADD_1_ATR) atr) in
            let lvl2 := fadd entry (fmul (Fin PYRAMID_ADD_2_ATR) atr) in
            if (PYRAMID_MAX_ADDS <=? adds_taken)%Z
            then mkAdd true lvl1 lvl2 ADD_HOLD AR_max_adds_taken
            else if (adds_taken =? 0)%Z && fge (close row) lvl1
            then mkAdd true lvl1 lvl2 ADD AR_add_1_triggered
            else if (adds_taken =? 1)%Z && fge (close row) lvl2
            then mkAdd true lvl1 lvl2 ADD AR_add_2_triggered
            else mkAdd true lvl1 lvl2 ADD_WAIT AR_no_trigger
    end.

(** *** [compute_execution_guard] *)

Inductive guard_reason : Type :=
| GR_GUARD_DISABLED
| GR_HELD_POSITION
| GR_NOT_READY
| GR_NO_TRIGGER
| GR_SKIP (atr_extension_fails pct_extension_fails : bool)
| GR_PASS.

Record guard_info : Type := mkGuard {
  exec_guard_pass : bool;
  exec_guard_reason : guard_reason;
  extension_atr_above_trigger : fnum;
  extension_pct_above_trigger : fnum
}.

Definition compute_execution_guard (is_held : bool) (st : status)
    (close trigger atr : fnum) : guard_info :=
  if negb EXEC_GUARD_ENABLED then mkGuard true GR_GUARD_DISABLED NaN NaN
  else if is_held then mkGuard true GR_HELD_POSITION NaN NaN
  else if negb (status_eqb st READY) then mkGuard true GR_NOT_READY NaN NaN
  else if negb (isfinite trigger) || fle trigger (Fin 0)
  then mkGuard true GR_NO_TRIGGER NaN NaN
  else
    let ext_atr :=
      if isfinite close && isfinite atr && fgt atr (Fin 0)
      then fdiv (fsub close trigger) atr else NaN in
    let ext_pct :=
      if isfinite close then fsub (fdiv close trigger) (Fin 1) else NaN in
    let atr_fails :=
      isfinite ext_atr && fgt ext_atr (Fin EXEC_GUARD_MAX_ATR_ABOVE_TRIGGER) in
    let pct_fails :=
      isfinite ext_pct && fgt ext_pct (Fin EXEC_GUARD_MAX_PCT_ABOVE_TRIGGER) in
    if atr_fails || pct_fails
    then mkGuard false (GR_SKIP atr_fails pct_fails) ext_atr ext_pct
    else mkGuard true GR_PASS ext_atr ext_pct.

(** *** [check_reentry_eligible] *)

Inductive reentry_reason : Type :=
| RR_none
| RR_profit_too_low (profit_R : fnum)
| RR_cooldown (days : Z)
| RR_EXIT_DATE_INVALID
| RR_whipsaw (r : row_reason)
| RR_ok (profit_R : fnum) (days : Z).

Record reentry_info : Type := mkReentry {
  reentry_eligible : bool;
  reentry_reason_of : reentry_reason;
  re_last_exit_profit_R : fnum
}.

(** The [row] argument of the function is not read. *)
Definition check_reentry_eligible (strptime : string -> option Z)
    (ticker : string) (pos_state : gmap string position_state)
    (today_date : string) : reentry_info :=
  if negb REENTRY_ENABLED then mkReentry false RR_none NaN
  else
    match pos_state !! upper ticker with
    | None => mkReentry false RR_none NaN
    | Some state =>
        let last_exit_date := get_last_exit_date state in
        let last_exit_profit_R := get_last_exit_profit_R state in
        if negb (nonempty last_exit_date) || negb (isfinite last_exit_profit_R)
        then mkReentry false RR_none NaN
        else if flt last_exit_profit_R (Fin REENTRY_MIN_PROFIT_R)
        then mkReentry false (RR_profit_too_low last_exit_profit_R) last_exit_profit_R
        else
          match strptime last_exit_date, strptime (first10 today_date) with
          | Some exit_dt, Some today_dt =>
              let days_since_exit := (today_dt - exit_dt)%Z in
              if (days_since_exit <? REENTRY_COOLDOWN_DAYS)%Z
              then mkReentry false (RR_cooldown days_since_exit) last_exit_profit_R
              else
                let whipsaw_info :=
                  check_whipsaw_blocked strptime ticker pos_state today_date in
                if whipsaw_blocked whipsaw_info
                then mkReentry false (RR_whipsaw (whipsaw_reason whipsaw_info))
                       last_exit_profit_R
                else mkReentry true (RR_ok last_exit_profit_R days_since_exit)
                       last_exit_profit_R
          | _, _ => mkReentry false RR_EXIT_DATE_INVALID last_exit_profit_R
          end
    end.

End Signals.

(** ** Classification of an instrument ([classify]) *)

Module Classify.

Import Regime.

Definition EXTENSION_ATR_THRESHOLD : Q := 1 # 2.
Definition DIST_READY : Q := 2.
Definition DIST_WATCH : Q := 3.
Definition RANGE_POSITION_BOTTOM : Q := 15 # 100.
Definition RANGE_POSITION_MID : Q := 35 # 100.
Definition ADX_TREND_THRESHOLD : Q := 20.
Definition ADX_STRONG_TREND : Q := 18.
Definition ADX_DIRECTION_FILTER : bool := true.
Definition ATR_PCT_CAP_ALL : Q := 8 # 100.
Definition ATR_PCT_CAP_HIGH_RISK : Q := 7 # 100.
Definition ATR_ENTRY_BUFFER_MULT : Q := 1 # 10.
Definition ATR_BUFFER_ADAPTIVE_BASE : Q := 8 # 100.
Definition ATR_BUFFER_ADAPTIVE_K : Q := 6 # 10.
Definition ATR_BUFFER_MIN : Q := 5 # 100.
Definition ATR_BUFFER_MAX : Q := 20 # 100.
Definition EARLY_BIRD_ENABLED : bool := true.
Definition EARLY_BIRD_RANGE_THRESHOLD : Q := 9 # 10.
Definition EARLY_BIRD_VOLUME_RATIO_MIN : Q := 3 # 2.
Definition EARLY_BIRD_ADX_MIN : Q := 15.

(** [ATR_BUFFER_MODE]: "adaptive", or any other text (fixed). *)
Inductive buffer_mode : Type := BM_adaptive | BM_fixed.

(** The two settings that a run can change: [ATR_BUFFER_MODE] comes from
    the parameter file and [ATR_PCT_CAP_ENABLED] is switched off by the
    small-account mode. *)
Record settings : Type := mkSettings {
  ATR_BUFFER_MODE : buffer_mode;
  ATR_PCT_CAP_ENABLED : bool
}.

Definition default_settings : settings := mkSettings BM_adaptive true.

(** Python's two-argument [min(a, b)]. *)
Definition pymin (a b : fnum) : fnum := if flt b a then b else a.

(** [compute_adaptive_atr_buffer] *)
Definition compute_adaptive_atr_buffer (mode : buffer_mode) (atr_pct : fnum) : fnum :=
  match mode with
  | BM_fixed => Fin ATR_ENTRY_BUFFER_MULT
  | BM_adaptive =>
      if negb (isfinite atr_pct) || fle atr_pct (Fin 0)
      then Fin ATR_BUFFER_ADAPTIVE_BASE
      else
        let buffer_mult :=
          fsub (Fin (18 # 100)) (fmul (Fin ATR_BUFFER_ADAPTIVE_K) atr_pct) in
        pymax (Fin ATR_BUFFER_MIN) (pymin (Fin ATR_BUFFER_MAX) buffer_mult)
  end.

(** The keys of [row] read by [classify] and by the early-bird check. *)
Record classify_row : Type := mkClassifyRow {
  c_sleeve : sleeve;
  c_is_held : bool;
  c_market_regime : market_regime;
  c_close : fnum;
  c_ma_200 : fnum;
  c_ma_50 : fnum;
  c_adx_14 : fnum;
  c_plus_di : fnum;
  c_minus_di : fnum;
  c_atr_14 : fnum;
  c_atr_pct : fnum;
  c_atr_spiking : bool;
  c_atr_collapsing : bool;
  c_data_anomaly_block : bool;
  c_liquidity_ok : bool;
  c_high_20 : fnum;
  c_low_20 : fnum;
  c_high_55 : fnum;
  c_low_55 : fnum;
  c_distance_to_20d_high_pct : fnum;
  c_distance_to_55d_high_pct : fnum;
  c_range_position_20 : fnum;
  c_vol_ratio : fnum;
  c_dollar_vol_20 : fnum
}.

(** [check_early_bird_eligible]: the flag. *)
Definition check_early_bird_eligible (row : classify_row) : bool :=
  if negb EARLY_BIRD_ENABLED then false
  else if sleeve_eqb (c_sleeve row) ETF_CORE then false
  else if negb (market_regime_eqb (c_market_regime row) BULLISH) then false
  else
    let close := c_close row in
    let high_55 := c_high_55 row in
    let low_55 := if negb (isfinite (c_low_55 row)) then c_low_20 row else c_low_55 row in
    let adx := c_adx_14 row in
    let vol_ratio := c_vol_ratio row in
    if negb (isfinite close && isfinite high_55 && isfinite low_55 && isfinite adx)
    then false
    else
      let range_55 := fsub high_55 low_55 in
      if fle range_55 (Fin 0) then false
      else
        let range_position_55 := fdiv (fsub close low_55) range_55 in
        if flt range_position_55 (Fin EARLY_BIRD_RANGE_THRESHOLD) then false
        else if negb (isfinite vol_ratio)
                || flt vol_ratio (Fin EARLY_BIRD_VOLUME_RATIO_MIN) then false
        else if flt adx (Fin EARLY_BIRD_ADX_MIN) then false
        else true.

(** The [regime] that [classify] returns: TREND or RANGE, the labels
    "IGNORE" and "AVOID", or the market regime itself. *)
Inductive class_regime : Type :=
| CG_TREND
| CG_RANGE
| CG_IGNORE
| CG_AVOID
| CG_market (m : market_regime).

(** The reason texts, with the numbers they format. *)
Inductive classify_reason : Type :=
| CR_data_anomaly
| CR_liquidity_failed
| CR_adx_direction_bearish
| CR_atr_pct_too_volatile (atr_pct : fnum) (cap : Q)
| CR_market_not_bullish (m : market_regime)
| CR_regime_failed_etf
| CR_too_extended
| CR_atr_spiking
| CR_from_55d_high (dist : fnum)
| CR_away (dist : fnum)
| CR_away_over_3 (dist : fnum)
| CR_close_below_200dma
| CR_atr_spiking_adx_bearish
| CR_from_20d_high_collapse_tightened (dist : fnum)
| CR_atr_collapsing_needs_vol (dist : fnum)
| CR_from_20d_high_vol_ok (dist vol_threshold : fnum)
| CR_from_20d_high_need_vol (dist vol_threshold : fnum)
| CR_55d_continuation
| CR_range_breakout_vol_ok (vol_ratio : fnum)
| CR_range_breakout_need_vol
| CR_range_bottom (pos : fnum)
| CR_mid_range (pos : fnum)
| CR_range_top (pos : fnum)
| CR_soft_cap (r : classify_reason).

Record classified : Type := mkClassified {
  k_regime : class_regime;
  k_status : status;
  k_reason : classify_reason;
  k_breakout_level : fnum;
  k_stop_level : fnum;
  k_entry_trigger : fnum;
  k_atr_buffer_mult_used : fnum
}.

(** [calc_entry_trigger] *)
Definition calc_entry_trigger (atr_buffer_mult_used brk atr_val : fnum) : fnum :=
  if isfinite brk && isfinite atr_val && fgt atr_val (Fin 0)
  then fadd brk (fmul atr_buffer_mult_used atr_val)
  else brk.

(** [_apply_atr_cap] *)
Definition apply_atr_cap (atr_spike_soft_cap : bool) (r : classified) : classified :=
  if atr_spike_soft_cap && status_eqb (k_status r) READY
  then mkClassified (k_regime r) WATCH (CR_soft_cap (k_reason r)) (k_breakout_level r)
         (k_stop_level r) (k_entry_trigger r) (k_atr_buffer_mult_used r)
  else r.

(** [(close - breakout_level) / atr_14], when defined. *)
Definition extension_atr (row : classify_row) (breakout_level : fnum) : fnum :=
  if isfinite breakout_level && isfinite (c_atr_14 row) && fgt (c_atr_14 row) (Fin 0)
  then fdiv (fsub (c_close row) breakout_level) (c_atr_14 row)
  else NaN.

Definition too_extended (row : classify_row) (breakout_level : fnum) : bool :=
  isfinite (extension_atr row breakout_level)
  && fgt (c_close row) breakout_level
  && fgt (extension_atr row breakout_level) (Fin EXTENSION_ATR_THRESHOLD).

(** The volume threshold of the TREND block. *)
Definition vol_threshold (row : classify_row) : fnum :=
  let dollar_vol := c_dollar_vol_20 row in
  let base_vol_threshold : Q :=
    if isfinite dollar_vol && fge dollar_vol (Fin 1000000000) then 8 # 10
    else if isfinite dollar_vol && fge dollar_vol (Fin 100000000) then 1
    else 12 # 10 in
  let base_vol_threshold :=
    if market_regime_eqb (c_market_regime row) BULLISH
    then base_vol_threshold - (2 # 10) else base_vol_threshold in
  let base_vol_threshold :=
    if fgt (c_distance_to_20d_high_pct row) (Fin 1)
    then base_vol_threshold + (3 # 10) else base_vol_threshold in
  pymax (Fin (1 # 2)) (Fin base_vol_threshold).

(** The block from the comment "RANGE: Turtle-style" to the end, which is
    also reached from the TREND block when none of its returns applies;
    [regime] is the regime established before. *)
Definition range_block (row : classify_row) (regime : class_regime)
    (atr_spike_soft_cap : bool) (buf : fnum) : classified :=
  let stop_level := c_low_20 row in
  let breakout_level := c_high_20 row in
  let entry_trigger := calc_entry_trigger buf breakout_level (c_atr_14 row) in
  if fgt (c_close row) breakout_level then
    if isfinite (c_vol_ratio row) && fge (c_vol_ratio row) (Fin (8 # 10))
    then apply_atr_cap atr_spike_soft_cap
           (mkClassified regime READY (CR_range_breakout_vol_ok (c_vol_ratio row))
              breakout_level stop_level entry_trigger buf)
    else mkClassified regime WATCH CR_range_breakout_need_vol
           breakout_level stop_level entry_trigger buf
  else
    let pos := c_range_position_20 row in
    if fle pos (Fin RANGE_POSITION_BOTTOM)
    then mkClassified regime WATCH (CR_range_bottom pos)
           breakout_level stop_level entry_trigger buf
    else if fle pos (Fin RANGE_POSITION_MID)
    then mkClassified regime WATCH (CR_mid_range pos)
           breakout_level stop_level entry_trigger buf
    else mkClassified regime WATCH (CR_range_top pos)
           breakout_level stop_level entry_trigger buf.

(** The block under [if regime == "TREND"]. *)
Definition trend_block (row : classify_row) (atr_spike_soft_cap : bool)
    (buf breakout_level stop_level entry_trigger : fnum) : classified :=
  let regime := CG_TREND in
  if too_extended row breakout_level
  then mkClassified regime IGNORE CR_too_extended
         breakout_level stop_level entry_trigger buf
  else
    let atr_collapse_risk :=
      c_atr_collapsing row && isfinite (c_atr_14 row) && fgt (c_atr_14 row) (Fin 0) in
    let dist := c_distance_to_20d_high_pct row in
    let vol_ratio := c_vol_ratio row in
    let vol_threshold := vol_threshold row in
    let vol_ok := isfinite vol_ratio && fge vol_ratio vol_threshold in
    let is_55d_breakout :=
      isfinite (c_distance_to_55d_high_pct row)
      && fle (c_distance_to_55d_high_pct row) (Fin DIST_READY)
      && fge (c_close row) (fmul (c_high_55 row) (Fin (99 # 100))) in
    let rest :=
      if fle dist (Fin DIST_READY) then
        if vol_ok
        then apply_atr_cap atr_spike_soft_cap
               (mkClassified regime READY (CR_from_20d_high_vol_ok dist vol_threshold)
                  breakout_level stop_level entry_trigger buf)
        else mkClassified regime WATCH (CR_from_20d_high_need_vol dist vol_threshold)
               breakout_level stop_level entry_trigger buf
      else if fle dist (Fin DIST_WATCH)
      then mkClassified regime WATCH (CR_away dist)
             breakout_level stop_level entry_trigger buf
      else if is_55d_breakout && vol_ok
      then apply_atr_cap atr_spike_soft_cap
             (mkClassified regime READY CR_55d_continuation
                (c_high_55 row) (c_low_20 row)
                (calc_entry_trigger buf (c_high_55 row) (c_atr_14 row)) buf)
      else range_block row regime atr_spike_soft_cap buf in
    if atr_collapse_risk && fle dist (Fin DIST_READY) then
      let atr_buffer := fmul (Fin (1 # 10)) (c_atr_14 row) in
      let above_breakout :=
        if isfinite atr_buffer then fgt (c_close row) (fadd breakout_level atr_buffer)
        else fgt (c_close row) breakout_level in
      if vol_ok && above_breakout
      then apply_atr_cap atr_spike_soft_cap
             (mkClassified regime READY (CR_from_20d_high_collapse_tightened dist)
                breakout_level stop_level entry_trigger buf)
      else mkClassified regime WATCH (CR_atr_collapsing_needs_vol dist)
             breakout_level stop_level entry_trigger buf
    else rest.

Definition classify (cfg : settings) (row : classify_row) : classified :=
  let sleeve := c_sleeve row in
  let close := c_close row in
  let ma200 := c_ma_200 row in
  let ma50 := c_ma_50 row in
  let adx := c_adx_14 row in
  let atr := c_atr_14 row in
  let buf := compute_adaptive_atr_buffer (ATR_BUFFER_MODE cfg) (c_atr_pct row) in
  let blocked reason := mkClassified CG_IGNORE IGNORE reason NaN NaN NaN buf in
  let early_bird_eligible :=
    if negb (c_is_held row) then check_early_bird_eligible row else false in
  let cap : Q :=
    if sleeve_eqb sleeve STOCK_HIGH_RISK then ATR_PCT_CAP_HIGH_RISK
    else ATR_PCT_CAP_ALL in
  if negb (c_is_held row) && c_data_anomaly_block row then blocked CR_data_anomaly
  else if negb (c_is_held row) && negb (c_liquidity_ok row)
  then blocked CR_liquidity_failed
  else if negb (c_is_held row) && ADX_DIRECTION_FILTER && negb early_bird_eligible
          && (isfinite (c_plus_di row) && isfinite (c_minus_di row)
              && fgt (c_minus_di row) (c_plus_di row))
  then blocked CR_adx_direction_bearish
  else if negb (c_is_held row) && ATR_PCT_CAP_ENABLED cfg
          && (isfinite (c_atr_pct row) && fgt (c_atr_pct row) (Fin cap))
  then blocked (CR_atr_pct_too_volatile (c_atr_pct row) cap)
  else if negb (c_is_held row)
          && negb (market_regime_eqb (c_market_regime row) BULLISH) then
    let breakout_level :=
      if sleeve_eqb sleeve ETF_CORE then c_high_55 row else c_high_20 row in
    let stop_level :=
      if sleeve_eqb sleeve ETF_CORE then c_low_20 row
      else pymax (fsub breakout_level (fmul (Fin 2) atr)) (c_low_20 row) in
    mkClassified (CG_market (c_market_regime row)) IGNORE
      (CR_market_not_bullish (c_market_regime row))
      breakout_level stop_level (calc_entry_trigger buf breakout_level atr) buf
  else if sleeve_eqb sleeve ETF_CORE then
    let breakout_level := c_high_55 row in
    let stop_level := c_low_20 row in
    let entry_trigger := calc_entry_trigger buf breakout_level atr in
    if negb (fgt close ma200 && fgt ma50 ma200 && fge adx (Fin ADX_STRONG_TREND))
    then mkClassified CG_IGNORE IGNORE CR_regime_failed_etf
           breakout_level stop_level entry_trigger buf
    else if too_extended row breakout_level
    then mkClassified CG_TREND IGNORE CR_too_extended
           breakout_level stop_level entry_trigger buf
    else if c_atr_spiking row
    then mkClassified CG_TREND IGNORE CR_atr_spiking
           breakout_level stop_level entry_trigger buf
    else
      let dist := c_distance_to_55d_high_pct row in
      if fle dist (Fin DIST_READY)
      then mkClassified CG_TREND READY (CR_from_55d_high dist)
             breakout_level stop_level entry_trigger buf
      else if fle dist (Fin DIST_WATCH)
      then mkClassified CG_TREND WATCH (CR_away dist)
             breakout_level stop_level entry_trigger buf
      else mkClassified CG_TREND IGNORE (CR_away_over_3 dist)
             breakout_level stop_level entry_trigger buf
  else
    let breakout_level := c_high_20 row in
    let stop_level := pymax (fsub breakout_level (fmul (Fin 2) atr)) (c_low_20 row) in
    let entry_trigger := calc_entry_trigger buf breakout_level atr in
    if flt close ma200
    then mkClassified CG_AVOID IGNORE CR_close_below_200dma
           breakout_level stop_level entry_trigger buf
    else
      let adx_bullish :=
        isfinite (c_plus_di row) && isfinite (c_minus_di row)
        && fgt (c_plus_di row) (c_minus_di row) in
      if c_atr_spiking row && negb adx_bullish
      then mkClassified CG_AVOID IGNORE CR_atr_spiking_adx_bearish
             breakout_level stop_level entry_trigger buf
      else
        let atr_spike_soft_cap := c_atr_spiking row in
        if fgt close ma200 && fgt ma50 ma200 && fge adx (Fin ADX_TREND_THRESHOLD)
        then trend_block row atr_spike_soft_cap buf breakout_level stop_level
               entry_trigger
        else range_block row CG_RANGE atr_spike_soft_cap buf.

(** *** Shapes of a classification result *)

(** The trigger of every result is the breakout level raised by the buffer. *)
Definition trigger_of_breakout (row : classify_row) (buf : fnum) (r : classified) : Prop :=
  k_atr_buffer_mult_used r = buf
  /\ k_entry_trigger r = calc_entry_trigger buf (k_breakout_level r) (c_atr_14 row).

(** The stop of a result is finite, at least [floor] and at most the
    breakout level. *)
Definition levels_ordered (floor : Q) (r : classified) : Prop :=
  exists s b, k_stop_level r = Fin s /\ k_breakout_level r = Fin b
              /\ floor <= s /\ s <= b.

End Classify.

(** ** Indicators: Wilder smoothing, ADX and trend efficiency *)

Module Indicators.

Definition ADX_PERIOD : positive := 14.
Definition TREND_EFFICIENCY_LOOKBACK : nat := 20.

(** [abs] on floats. *)
Definition fabs (x : fnum) : fnum :=
  match x with
  | Fin q => Fin (Qabs q)
  | NInf => PInf
  | _ => x
  end.

(** [a == b] on floats that are not NaN. *)
Definition same (a b : fnum) : bool :=
  match a, b with
  | Fin x, Fin y => Qeq_bool x y
  | PInf, PInf | NInf, NInf => true
  | _, _ => false
  end.

(** [Series.diff()]: NaN first, then the change from the previous value. *)
Fixpoint diff_from (prev : fnum) (l : list fnum) : list fnum :=
  match l with
  | [] => []
  | x :: rest => fsub x prev :: diff_from x rest
  end.

Definition diff (l : list fnum) : list fnum :=
  match l with
  | [] => []
  | x :: rest => NaN :: diff_from x rest
  end.

(** [Series.shift(1)] *)
Definition shift1 (l : list fnum) : list fnum :=
  match l with
  | [] => []
  | _ => NaN :: removelast l
  end.

(** [np.maximum]: NaN as soon as one side is NaN. *)
Definition npmaximum (a b : fnum) : fnum :=
  if Risk.isnan a || Risk.isnan b then NaN else if flt a b then b else a.

(** The recursion of pandas' [ewm(alpha, adjust=False).mean()] (with its
    defaults [ignore_na=False] and [min_periods=0]): [weighted] is the
    average so far and [old_wt] the weight it carries; a missing value
    repeats the average and lets its weight decay, and the first valid
    value starts the average. *)
Fixpoint ewm_steps (alpha : Q) (weighted : fnum) (old_wt : Q) (vals : list fnum)
    : list fnum :=
  match vals with
  | [] => []
  | cur :: rest =>
      if negb (Risk.isnan weighted) then
        let old_wt := old_wt * (1 - alpha) in
        if negb (Risk.isnan cur) then
          let weighted :=
            if same weighted cur then weighted
            else fdiv (fadd (fmul (Fin old_wt) weighted) (fmul (Fin alpha) cur))
                   (Fin (old_wt + alpha)) in
          weighted :: ewm_steps alpha weighted 1 rest
        else weighted :: ewm_steps alpha weighted old_wt rest
      else if negb (Risk.isnan cur) then cur :: ewm_steps alpha cur old_wt rest
      else weighted :: ewm_steps alpha weighted old_wt rest
  end.

Definition ewm_mean (alpha : Q) (vals : list fnum) : list fnum :=
  match vals with
  | [] => []
  | x :: rest => x :: ewm_steps alpha x 1 rest
  end.

(** [wilder_rma] *)
Definition wilder_rma (series : list fnum) (period : positive) : list fnum :=
  ewm_mean (1 # period) series.

(** One row of the downloaded frame. *)
Record bar : Type := mkBar {
  High : fnum;
  Low : fnum;
  Close : fnum
}.

(** Element-wise operations on columns of one frame. *)
Definition zip_with (f : fnum -> fnum -> fnum) (a b : list fnum) : list fnum :=
  map (fun p => f (fst p) (snd p)) (combine a b).

Definition plus_dm_of (up_move down_move : fnum) : fnum :=
  if fgt up_move down_move && fgt up_move (Fin 0) then up_move else Fin 0.

Definition minus_dm_of (up_move down_move : fnum) : fnum :=
  if fgt down_move up_move && fgt down_move (Fin 0) then down_move else Fin 0.

Definition true_range (b : bar) (prev_close : fnum) : fnum :=
  npmaximum (fsub (High b) (Low b))
    (npmaximum (fabs (fsub (High b) prev_close)) (fabs (fsub (Low b) prev_close))).

(** [100 * (dm_sm / atr)] *)
Definition di_of (dm_sm atr : fnum) : fnum := fmul (Fin 100) (fdiv dm_sm atr).

(** One value of [dx], after [fillna(0.0)]. *)
Definition dx_of (plus_di minus_di : fnum) : fnum :=
  let denom := fadd plus_di minus_di in
  let denom := if same denom (Fin 0) then NaN else denom in
  let dx := fmul (Fin 100) (fdiv (fabs (fsub plus_di minus_di)) denom) in
  if Risk.isnan dx then Fin 0 else dx.

(** [calculate_adx]: the series [adx], [plus_di] and [minus_di]. *)
Definition calculate_adx (df : list bar) (period : positive)
    : list fnum * list fnum * list fnum :=
  let high := map High df in
  let low := map Low df in
  let close := map Close df in
  let up_move := diff high in
  let down_move := map fneg (diff low) in
  let plus_dm := zip_with plus_dm_of up_move down_move in
  let minus_dm := zip_with minus_dm_of up_move down_move in
  let tr := map (fun p => true_range (fst p) (snd p)) (combine df (shift1 close)) in
  let atr := wilder_rma tr period in
  let plus_dm_sm := wilder_rma plus_dm period in
  let minus_dm_sm := wilder_rma minus_dm period in
  let plus_di := zip_with di_of plus_dm_sm atr in
  let minus_di := zip_with di_of minus_dm_sm atr in
  let dx := zip_with dx_of plus_di minus_di in
  (wilder_rma dx period, plus_di, minus_di).

(** [adx_14] of [compute_metrics]: the last value of the ADX series (NaN
    stands for the IndexError of an empty frame). *)
Definition adx_14_of (df : list bar) : fnum :=
  List.last (fst (fst (calculate_adx df ADX_PERIOD))) NaN.

(** A float that is not negative: a non-negative number, plus infinity or
    NaN. *)
Definition not_negative (x : fnum) : Prop :=
  match x with
  | Fin q => 0 <= q
  | NInf => False
  | _ => True
  end.

(** The [trend_efficiency] of [compute_metrics], on the cleaned prices. *)
Definition trend_efficiency (price : list fnum) : fnum :=
  if Rank.TREND_EFFICIENCY_ENABLED && (TREND_EFFICIENCY_LOOKBACK <=? length price)%nat
  then
    let recent := Rank.last_n (TREND_EFFICIENCY_LOOKBACK + 1) price in
    let net_move := fabs (fsub (List.last recent NaN) (hd NaN recent)) in
    let daily_moves :=
      List.filter (fun x => negb (Risk.isnan x)) (map fabs (diff recent)) in
    let total_path := Risk.nansum daily_moves in
    if fgt total_path (Fin 0) then fdiv net_move total_path else NaN
  else NaN.

End Indicators.

(** ** Position sizing and risk caps ([add_risk_columns]) *)

Module Caps.

(** *** Planned risk per share and projected size *)

(** [gap_buffer]: 5 per cent for ETFs and hedges, 15 per cent for stocks. *)
Definition gap_buffer (s : sleeve) : Q :=
  match s with
  | ETF_CORE | HEDGE => 105 # 100
  | _ => 115 # 100
  end.

(** [risk_per_share_local]: breakout minus stop, undefined unless finite
    and positive, inflated by the gap buffer. *)
Definition risk_per_share_local (breakout_level stop_level : fnum) (s : sleeve) : fnum :=
  let r := fsub breakout_level stop_level in
  let r := if negb (isfinite r) then NaN else r in
  let r := if fle r (Fin 0) then NaN else r in
  fmul r (Fin (gap_buffer s)).

Definition risk_per_share_gbp_est (breakout_level stop_level : fnum) (s : sleeve)
    (fx_to_gbp_est : fnum) : fnum :=
  fmul (risk_per_share_local breakout_level stop_level s) fx_to_gbp_est.

(** [np.floor] *)
Definition ffloor (x : fnum) : fnum :=
  match x with
  | Fin q => Fin (inject_Z (Qfloor q))
  | _ => x
  end.

(** [compute_projected_size]: projected shares, value and share of equity.
    [risk_pct] is the row's [risk_per_trade_pct_default], which the caller
    has just set to [risk_per_trade_pct]. *)
Definition compute_projected_size (total_equity_gbp risk_pct : fnum)
    (is_held : bool) (risk_per_share close fx : fnum) : fnum * fnum * fnum :=
  if is_held then (Fin 0, Fin 0, Fin 0)
  else
    let equity := total_equity_gbp in
    if negb (isfinite equity) || fle equity (Fin 0) then (Fin 0, Fin 0, Fin 0)
    else if negb (isfinite risk_per_share) || fle risk_per_share (Fin 0)
    then (Fin 0, Fin 0, Fin 0)
    else
      let projected_shares_raw := fdiv (fmul equity risk_pct) risk_per_share in
      let projected_shares :=
        fdiv (ffloor (fmul projected_shares_raw (Fin 1000))) (Fin 1000) in
      if negb (isfinite close) || fle close (Fin 0)
      then (projected_shares, Fin 0, Fin 0)
      else
        let projected_value := fmul (fmul projected_shares close) fx in
        let projected_pct :=
          if fgt equity (Fin 0) then fdiv projected_value equity else Fin 0 in
        (projected_shares, projected_value, projected_pct).

(** *** Dynamic caps *)

Inductive cap_mode : Type := BUILDING | MID_STAGE | MATURE.

Definition cap_mode_of (position_count : Z) : cap_mode :=
  if (position_count <? 5)%Z then BUILDING
  else if (position_count <? 8)%Z then MID_STAGE
  else MATURE.

(** The position cap handed to the block and warning functions for a row
    of sleeve [s]: the ETF cap, the high-risk cap, or else the core cap. *)
Definition max_position_pct (m : cap_mode) (s : sleeve) : Q :=
  match m, s with
  | BUILDING, ETF_CORE => 20 # 100
  | BUILDING, STOCK_HIGH_RISK => 12 # 100
  | BUILDING, _ => 18 # 100
  | MID_STAGE, ETF_CORE => 18 # 100
  | MID_STAGE, STOCK_HIGH_RISK => 10 # 100
  | MID_STAGE, _ => 15 # 100
  | MATURE, ETF_CORE => 15 # 100
  | MATURE, STOCK_HIGH_RISK => 8 # 100
  | MATURE, _ => 12 # 100
  end.

Definition max_sleeve_pct (m : cap_mode) (s : sleeve) : Q :=
  match m, s with
  | BUILDING, ETF_CORE => 80 # 100
  | BUILDING, STOCK_HIGH_RISK => 40 # 100
  | BUILDING, _ => 80 # 100
  | MID_STAGE, ETF_CORE => 60 # 100
  | MID_STAGE, STOCK_HIGH_RISK => 30 # 100
  | MID_STAGE, _ => 70 # 100
  | MATURE, ETF_CORE => 50 # 100
  | MATURE, STOCK_HIGH_RISK => 25 # 100
  | MATURE, _ => 60 # 100
  end.

(** *** Hard blocks ([compute_risk_caps_block_reason]) *)

Inductive block_reason : Type :=
| BR_none
| BR_ALREADY_HELD
| BR_MAX_CLUSTER (cluster : string)
| BR_MAX_SUPERCLUSTER (super_cluster : string)
| BR_MAX_POSITION_ACTUAL (actual_pct : fnum).

Definition is_BR_none (r : block_reason) : bool :=
  match r with BR_none => true | _ => false end.

Record caps_row : Type := mkCapsRow {
  p_is_held : bool;
  p_pyramiding_enabled : bool;
  p_add_eligible : bool;
  p_status : status;
  p_sleeve : sleeve;
  p_cluster : string;
  p_super_cluster : string;
  p_risk_per_trade_pct_default : fnum;
  p_cluster_risk_pct : fnum;
  p_super_cluster_risk_pct : fnum;
  p_position_pct_of_equity : fnum
}.

Definition compute_risk_caps_block_reason (row : caps_row)
    (max_cluster_pct max_position_pct max_supercluster_pct : fnum) : block_reason :=
  if p_is_held row then
    if p_pyramiding_enabled row && p_add_eligible row then BR_none
    else BR_ALREADY_HELD
  else if negb (status_eqb (p_status row) READY) then BR_none
  else
    let risk_per_trade := p_risk_per_trade_pct_default row in
    let cluster_risk_pct := p_cluster_risk_pct row in
    if isfinite cluster_risk_pct
       && fgt (fadd cluster_risk_pct risk_per_trade) max_cluster_pct
    then BR_MAX_CLUSTER (p_cluster row)
    else
      let sc_risk_pct := p_super_cluster_risk_pct row in
      if isfinite sc_risk_pct
         && fgt (fadd sc_risk_pct risk_per_trade) max_supercluster_pct
      then BR_MAX_SUPERCLUSTER (p_super_cluster row)
      else
        let actual_pct := p_position_pct_of_equity row in
        if fgt actual_pct max_position_pct
        then BR_MAX_POSITION_ACTUAL actual_pct
        else BR_none.

(** The column [risk_caps_block_reason] as [add_risk_columns] fills it, and
    [eligible_by_risk_caps].  [MAX_SUPERCLUSTER_RISK_PCT] is the global of
    that name (0.50, or 0.60 in small-account mode). *)
Definition risk_caps_block_reason (position_count : Z)
    (max_cluster_pct MAX_SUPERCLUSTER_RISK_PCT : fnum) (row : caps_row)
    : block_reason :=
  compute_risk_caps_block_reason row max_cluster_pct
    (Fin (max_position_pct (cap_mode_of position_count) (p_sleeve row)))
    MAX_SUPERCLUSTER_RISK_PCT.

Definition eligible_by_risk_caps (position_count : Z)
    (max_cluster_pct MAX_SUPERCLUSTER_RISK_PCT : fnum) (row : caps_row) : bool :=
  if negb (status_eqb (p_status row) READY) then false
  else is_BR_none
         (risk_caps_block_reason position_count max_cluster_pct
            MAX_SUPERCLUSTER_RISK_PCT row).

End Caps.

(** * Proofs *)

(** ** Facts about floats *)

Module FloatFacts.

Lemma Qltb_lt (a b : Q) : Qltb a b = true <-> a < b.
Proof.
  unfold Qltb. rewrite negb_true_iff.
  split; intros H.
  - apply Qnot_le_lt. intros Hle. apply Qle_bool_iff in Hle. congruence.
  - destruct (Qle_bool b a) eqn:E; [|reflexivity].
    apply Qle_bool_iff in E. exfalso. apply (Qlt_not_le _ _ H E).
Qed.

Lemma Qltb_ge (a b : Q) : Qltb a b = false <-> b <= a.
Proof.
  unfold Qltb. rewrite negb_false_iff. apply Qle_bool_iff.
Qed.

Lemma Qle_bool_false (a b : Q) : Qle_bool a b = false <-> b < a.
Proof.
  rewrite <- Qltb_lt. unfold Qltb. rewrite negb_true_iff. reflexivity.
Qed.

Lemma flt_fle (a b : fnum) : flt a b = true -> fle a b = true.
Proof.
  destruct a, b; simpl; try congruence.
  intros H. apply Qltb_lt in H. apply Qle_bool_iff. apply Qlt_le_weak, H.
Qed.

Lemma flt_Fin (x y : Q) : flt (Fin x) (Fin y) = true <-> x < y.
Proof. apply Qltb_lt. Qed.

Lemma fle_Fin (x y : Q) : fle (Fin x) (Fin y) = true <-> x <= y.
Proof. apply Qle_bool_iff. Qed.

Lemma isfinite_Fin (x : fnum) : isfinite x = true -> exists q, x = Fin q.
Proof. destruct x; simpl; try congruence. eauto. Qed.

#[export] Instance feq_equiv : Equivalence feq.
Proof.
  split.
  - intros []; simpl; auto. reflexivity.
  - intros [] []; simpl; auto. intros H; symmetry; exact H.
  - intros [] [] []; simpl; auto; try contradiction.
    intros H1 H2. etransitivity; eassumption.
Qed.

End FloatFacts.
Import FloatFacts.

(** ** Market regime *)

Module RegimeProofs.

Import Regime.

Lemma iloc_neg_1_nonempty (l : list fnum) :
  (1 <= length l)%nat -> exists c, iloc_neg l 1 = Some c.
Proof.
  intros H. unfold iloc_neg. simpl.
  destruct (rev l) as [|c r] eqn:E.
  - apply (f_equal (@length fnum)) in E. rewrite length_rev in E. simpl in E. lia.
  - exists c. reflexivity.
Qed.

Lemma rolling_mean_neg_1_nonempty (w : nat) (l : list fnum) :
  (1 <= length l)%nat -> exists m, rolling_mean_neg w l 1 = Some m.
Proof.
  intros H. unfold rolling_mean_neg. simpl.
  destruct (rev l) as [|c r] eqn:E.
  - apply (f_equal (@length fnum)) in E. rewrite length_rev in E. simpl in E. lia.
  - eexists. reflexivity.
Qed.

(** The loop of [one_regime] inspects the four latest bars. *)
Lemma loop_indices (l : list fnum) :
  (210 <= length l)%nat ->
  seq 1 (Nat.min (REGIME_STABILITY_DAYS + 2) (length l) - 1) = [1; 2; 3; 4]%nat.
Proof.
  intros H. unfold REGIME_STABILITY_DAYS.
  replace (Nat.min (3 + 2) (length l)) with 5%nat by lia. reflexivity.
Qed.

(** C6: with two benchmarks configured, the combined market regime is
    UNKNOWN if either benchmark's regime is UNKNOWN; otherwise it is BEARISH
    if either is BEARISH, BULLISH only if both are BULLISH, and SIDEWAYS in
    the remaining cases. *)
Theorem combined_regime_rule (max_data_age_days : Z) (band_pct : fnum)
    (bm1 bm2 : option benchmark) :
  compute_market_regime max_data_age_days band_pct bm1 (Some bm2)
  = combined_regime_spec
      (regime (one_regime max_data_age_days band_pct bm1))
      (regime (one_regime max_data_age_days band_pct bm2)).
Proof.
  unfold compute_market_regime, combine_regimes.
  destruct (regime (one_regime max_data_age_days band_pct bm1)),
           (regime (one_regime max_data_age_days band_pct bm2)); reflexivity.
Qed.

Lemma count_four (band_pct : fnum) (l : list fnum) :
  (count_chop_days band_pct l [1; 2; 3; 4] <? REGIME_STABILITY_DAYS)%nat
  = negb (recent_days_in_band band_pct l 3).
Proof.
  unfold recent_days_in_band, REGIME_STABILITY_DAYS. simpl.
  destruct (bar_in_band band_pct l 1); [|reflexivity].
  destruct (bar_in_band band_pct l 2); [|reflexivity].
  destruct (bar_in_band band_pct l 3); [|reflexivity].
  destruct (bar_in_band band_pct l 4); reflexivity.
Qed.

(** The regime of a fresh benchmark whose close and average are valid, as
    a function of the position of the close. *)
Lemma one_regime_fresh (max_data_age_days : Z) (band_pct : fnum) (b : benchmark) :
  (210 <= length (base b))%nat ->
  (age_days b <= max_data_age_days)%Z ->
  isfinite (latest_close (base b)) = true ->
  isfinite (latest_ma200 (base b)) = true ->
  fgt (latest_ma200 (base b)) (Fin 0) = true ->
  let close := latest_close (base b) in
  let ma200 := latest_ma200 (base b) in
  let info := one_regime max_data_age_days band_pct (Some b) in
  (regime info, regime_stable info) =
    if fge close (band_upper band_pct ma200) then (BULLISH, true)
    else if fle close (band_lower band_pct ma200) then (BEARISH, true)
    else if recent_days_in_band band_pct (base b) 3 then (SIDEWAYS, true)
    else if fgt close ma200 then (BULLISH, false)
    else (BEARISH, false).
Proof.
  intros Hlen Hage Hc Hm Hpos. cbv zeta.
  unfold one_regime.
  assert (Hl : (length (base b) <? 210)%nat = false) by (apply Nat.ltb_ge; lia).
  assert (Ha : (max_data_age_days <? age_days b)%Z = false) by (apply Z.ltb_ge; lia).
  rewrite Hl, Ha.
  destruct (iloc_neg_1_nonempty (base b)) as [c Hci]; [lia|].
  destruct (rolling_mean_neg_1_nonempty MA_200_PERIOD (base b)) as [m Hmi]; [lia|].
  unfold latest_close, latest_ma200 in *.
  rewrite Hci, Hmi in *.
  change (default NaN (Some c)) with c in *.
  change (default NaN (Some m)) with m in *.
  rewrite Hc, Hm, Hpos. simpl negb. cbv iota.
  rewrite loop_indices by lia.
  unfold REGIME_STABILITY_ENABLED.
  destruct (fge c (band_upper band_pct m)); [reflexivity|].
  destruct (fle c (band_lower band_pct m)); [reflexivity|].
  simpl market_regime_eqb. simpl andb. cbv iota.
  rewrite count_four.
  destruct (recent_days_in_band band_pct (base b) 3); simpl; [reflexivity|].
  destruct (fgt c m); reflexivity.
Qed.

Lemma inside_not_outside (c lo hi : fnum) :
  flt lo c && flt c hi = true -> fge c hi = false /\ fle c lo = false.
Proof.
  intros H. apply andb_true_iff in H as [H1 H2].
  unfold fge.
  destruct c, lo, hi; simpl in *; try congruence; try (split; reflexivity).
  all: repeat match goal with
       | H : Qltb _ _ = true |- _ => apply Qltb_lt in H
       end.
  all: split; try reflexivity; apply Qle_bool_false; assumption.
Qed.

(** The latest bar of a close strictly inside the band counts as a day
    inside the band. *)
Lemma latest_bar_in_band (band_pct : fnum) (l : list fnum) :
  isfinite (latest_ma200 l) = true ->
  fgt (latest_ma200 l) (Fin 0) = true ->
  close_inside_band band_pct l = true ->
  bar_in_band band_pct l 1 = true.
Proof.
  unfold close_inside_band, latest_close, latest_ma200, bar_in_band.
  destruct (iloc_neg l 1) as [c|]; simpl.
  2:{ intros _ _ H. rewrite andb_false_r in H. discriminate H. }
  destruct (rolling_mean_neg MA_200_PERIOD l 1) as [m|]; simpl.
  2:{ discriminate. }
  intros Hm Hpos H. rewrite Hm. simpl.
  assert (Hz : fle m (Fin 0) = false).
  { destruct m; simpl in *; try congruence.
    unfold fgt in Hpos. simpl in Hpos. apply Qltb_lt in Hpos.
    apply Qle_bool_false. exact Hpos. }
  rewrite Hz. apply andb_true_iff in H as [H1 H2].
  apply andb_true_iff. split; apply flt_fle; assumption.
Qed.

(** C7: for a benchmark with fresh data whose latest close lies inside the
    band around its 200-day average, the regime is SIDEWAYS exactly when
    the three most recent days lie inside the band; with fewer consecutive
    days inside it resolves directionally (BULLISH if close > MA200, else
    BEARISH) and is marked unstable, so one day crossing back into the band
    (the day before being outside) never gives SIDEWAYS; a close at or
    above the upper band gives BULLISH at once, marked stable. *)
Theorem regime_stability_rule (max_data_age_days : Z) (band_pct : fnum)
    (b : benchmark) :
  (210 <= length (base b))%nat ->
  (age_days b <= max_data_age_days)%Z ->
  isfinite (latest_close (base b)) = true ->
  isfinite (latest_ma200 (base b)) = true ->
  fgt (latest_ma200 (base b)) (Fin 0) = true ->
  let close := latest_close (base b) in
  let ma200 := latest_ma200 (base b) in
  let info := one_regime max_data_age_days band_pct (Some b) in
  (close_inside_band band_pct (base b) = true ->
     (regime info = SIDEWAYS <-> recent_days_in_band band_pct (base b) 3 = true)
     /\ (recent_days_in_band band_pct (base b) 3 = true ->
           regime_stable info = true)
     /\ (recent_days_in_band band_pct (base b) 3 = false ->
           regime info = (if fgt close ma200 then BULLISH else BEARISH)
           /\ regime_stable info = false)
     /\ (bar_in_band band_pct (base b) 2 = false -> regime info <> SIDEWAYS))
  /\ (fge close (band_upper band_pct ma200) = true ->
        regime info = BULLISH /\ regime_stable info = true).
Proof.
  intros Hlen Hage Hc Hm Hpos close ma200 info.
  pose proof (one_regime_fresh max_data_age_days band_pct b Hlen Hage Hc Hm Hpos) as E.
  cbv zeta in E. fold close ma200 info in E.
  split.
  - intros Hin.
    pose proof (latest_bar_in_band band_pct (base b) Hm Hpos Hin) as H1.
    destruct (inside_not_outside _ _ _ Hin) as [Hu Hl].
    fold close ma200 in Hu, Hl. rewrite Hu, Hl in E.
    destruct (recent_days_in_band band_pct (base b) 3) eqn:E3.
    + inversion E as [[Er Es]]. repeat split; try congruence.
      intros H2. unfold recent_days_in_band in E3. simpl in E3.
      rewrite H2 in E3. rewrite andb_false_r in E3. discriminate.
    + assert (Hr : regime info = (if fgt close ma200 then BULLISH else BEARISH)
                   /\ regime_stable info = false).
      { destruct (fgt close ma200); inversion E; split; reflexivity. }
      destruct Hr as [Hr Hs].
      assert (Hns : regime info <> SIDEWAYS).
      { rewrite Hr. destruct (fgt close ma200); discriminate. }
      split; [split; [intros; contradiction | intros; discriminate]|].
      split; [intros; discriminate|].
      split; [intros; split; assumption | intros; assumption].
  - intros Hu. rewrite Hu in E. inversion E. split; reflexivity.
Qed.

Lemma regime_stability_rule_witness :
  regime (one_regime 5 (Fin (2 # 100)) (Some flat_benchmark)) = SIDEWAYS
  /\ regime (one_regime 5 (Fin (2 # 100)) (Some jump_benchmark)) = BULLISH.
Proof.
  split.
  - assert (Hlen : (210 <= length (base flat_benchmark))%nat)
      by (vm_compute; lia).
    assert (Hage : (age_days flat_benchmark <= 5)%Z) by (vm_compute; discriminate).
    destruct (regime_stability_rule 5 (Fin (2 # 100)) flat_benchmark Hlen Hage
                eq_refl eq_refl eq_refl) as [Hin _].
    destruct (Hin eq_refl) as [Hiff _].
    apply Hiff. vm_compute. reflexivity.
  - assert (Hlen : (210 <= length (base jump_benchmark))%nat)
      by (vm_compute; lia).
    assert (Hage : (age_days jump_benchmark <= 5)%Z) by (vm_compute; discriminate).
    destruct (regime_stability_rule 5 (Fin (2 # 100)) jump_benchmark Hlen Hage
                eq_refl eq_refl eq_refl) as [_ Hup].
    destruct (Hup eq_refl) as [Hr _]. exact Hr.
Defined.

End RegimeProofs.

(** ** Stateful stops *)

Module StopsProofs.

Import Regime Stops.

Lemma be_gate_nonempty (cfg : config) (row : stop_row) (r : stop_reason) :
  be_gate cfg row = Some r -> reason_is_empty r = false.
Proof.
  unfold be_gate.
  destruct (BE_CONDITION_MODE cfg).
  - discriminate.
  - destruct (negb (trade_regime_eqb (row_regime row) TREND)).
    + intros [= <-]. reflexivity.
    + destruct (negb (isfinite (adx_14 row)) || flt (adx_14 row) (Fin BE_ADX_MIN));
        [intros [= <-]; reflexivity | discriminate].
  - destruct (negb (isfinite (holding_days row))
              || flt (holding_days row) (Fin MIN_HOLD_DAYS_FOR_BE));
      [intros [= <-]; reflexivity | discriminate].
Qed.

Lemma scenario_tiers (cfg : config) (row : stop_row) (c : fnum) (r : stop_reason) :
  BE_TRIGGER_R cfg = Fin (3 # 2) ->
  close row = Fin (215 # 2) ->
  profit_protection cfg row (Fin 100) (Fin 95) c r =
    match be_gate cfg row with
    | None =>
        mkTier (raise_to c (Fin 100))
          (SR_breakeven (Fin (15 # 10)) (raise_to c (Fin 100)))
          (PPL_BREAKEVEN (Fin (3 # 2))) (Fin 5) (Fin (15 # 10))
    | Some b => mkTier c b PPL_BE_BLOCKED (Fin 5) (Fin (15 # 10))
    end.
Proof.
  intros Ht Hc. unfold profit_protection. rewrite Ht, Hc.
  change (fsub (Fin 100) (Fin 95)) with (Fin 5).
  change (fdiv (fsub (Fin (215 # 2)) (Fin 100)) (Fin 5)) with (Fin (15 # 10)).
  reflexivity.
Qed.

(** Raising a stop that is at most 100 to breakeven at 100 gives 100. *)
Lemma raise_to_100 (c : fnum) :
  fle c (Fin 100) = true -> feq (raise_to c (Fin 100)) (Fin 100).
Proof.
  unfold raise_to, pymax, fgt.
  destruct c as [q| | |]; simpl; try discriminate; try reflexivity.
  intros H. apply Qle_bool_iff in H.
  destruct (Qltb q 100) eqn:E; simpl; [reflexivity|].
  apply Qltb_ge in E. apply Qle_antisym; assumption.
Qed.

Lemma stateful_100 (p c : fnum) :
  fle p (Fin 100) = true -> feq c (Fin 100) ->
  feq (stateful_active_stop p c) (Fin 100).
Proof.
  unfold stateful_active_stop, pymax, fgt.
  destruct p as [p| | |], c as [c| | |]; simpl; try discriminate; try contradiction;
    try (intros; assumption).
  intros Hp Hc. apply Qle_bool_iff in Hp.
  destruct (Qltb p c) eqn:E; simpl; [exact Hc|].
  apply Qltb_ge in E. rewrite Hc in E. apply Qle_antisym; assumption.
Qed.

(** C3: entry 100, initial stop 95, close 107.50 give profit_R = 1.5; at the
    default 1.5R trigger, when the breakeven gate passes (as it does when no
    gating condition is configured) and the previous active stop and the
    normal candidate stop (the stop that reaches the profit-protection
    step: the row's stop_level, tightened only in a sideways market) are
    at most 100, the active stop is raised to 100; when a configured gate
    fails, the candidate is left as it was, the level is BE_BLOCKED and the
    blocking reason is the recorded stop reason. *)
Theorem breakeven_scenario (mode : be_mode) (today : string) (row : stop_row)
    (pos_state : gmap string position_state) (mr : market_regime)
    (st : position_state) :
  is_held row = true ->
  close row = Fin (215 # 2) ->
  pos_state !! upper (ticker row) = Some st ->
  entry_price st = Fin 100 ->
  initial_stop st = Fin 95 ->
  let cfg := mkConfig (Fin (3 # 2)) mode in
  let out := compute_stateful_stop cfg today row pos_state mr in
  let candidate := fst (sideways_tightening row mr (stop_level row)) in
  feq (o_profit_R out) (Fin (3 # 2))
  /\ (mode = BE_none -> be_gate cfg row = None)
  /\ (market_regime_eqb mr SIDEWAYS = false -> candidate = stop_level row)
  /\ match be_gate cfg row with
     | None =>
         fle candidate (Fin 100) = true ->
         fle (active_stop st) (Fin 100) = true ->
         feq (o_active_stop out) (Fin 100)
         /\ o_profit_protection_level out = PPL_BREAKEVEN (Fin (3 # 2))
     | Some blocked =>
         o_candidate_stop out = candidate
         /\ o_active_stop out = stateful_active_stop (active_stop st) candidate
         /\ o_profit_protection_level out = PPL_BE_BLOCKED
         /\ o_stop_reason out = blocked
     end.
Proof.
  intros Hheld Hclose Hst He Hi cfg out candidate.
  assert (Hout : out =
    let tier := profit_protection cfg row (Fin 100) (Fin 95) candidate
                  (snd (sideways_tightening row mr (stop_level row))) in
    mkStopOut (t_candidate tier)
      (stateful_active_stop (active_stop st) (t_candidate tier))
      (final_reason (t_reason tier) (active_stop st)
         (stateful_active_stop (active_stop st) (t_candidate tier)) (t_candidate tier))
      (t_profit_R tier) (t_level tier) (t_initial_R tier)
      (o_state_update out) (o_is_new_entry out)).
  { subst out candidate. unfold compute_stateful_stop.
    rewrite Hheld, Hclose, Hst. simpl negb. cbv iota.
    simpl from_option. rewrite He, Hi.
    destruct (sideways_tightening row mr (stop_level row)) as [c0 r0].
    reflexivity. }
  rewrite Hout. clear Hout. cbv zeta.
  rewrite (scenario_tiers cfg row candidate _ eq_refl Hclose).
  split; [|split; [|split]].
  - destruct (be_gate cfg row); simpl; reflexivity.
  - intros ->. reflexivity.
  - intros Hmr. subst candidate. unfold sideways_tightening. rewrite Hmr.
    reflexivity.
  - destruct (be_gate cfg row) as [blocked|] eqn:Eg; simpl.
    + repeat split.
      unfold final_reason. rewrite (be_gate_nonempty _ _ _ Eg). reflexivity.
    + intros Hc Hp. split; [|reflexivity].
      apply stateful_100; [exact Hp|]. apply raise_to_100, Hc.
Qed.

(** *** The "never loosen" step *)

Lemma pymax_Fin (p c : Q) : feq (pymax (Fin p) (Fin c)) (Fin (Qmax p c)).
Proof.
  unfold pymax, fgt. simpl.
  destruct (Qltb p c) eqn:E; simpl.
  - apply Qltb_lt in E. symmetry. apply Q.max_r. apply Qlt_le_weak, E.
  - apply Qltb_ge in E. symmetry. apply Q.max_l. exact E.
Qed.

Lemma stateful_not_lowered (prev cand : fnum) :
  not_lowered prev (stateful_active_stop prev cand).
Proof.
  unfold stateful_active_stop, pymax, fgt.
  destruct prev as [p| | |]; simpl; auto.
  destruct cand as [c| | |]; simpl; try apply Qle_refl.
  destruct (Qltb p c) eqn:E; simpl.
  - apply Qltb_lt in E. apply Qlt_le_weak, E.
  - apply Qle_refl.
Qed.

Lemma not_lowered_refl (a : fnum) : not_lowered a a.
Proof. destruct a; simpl; auto. apply Qle_refl. Qed.

Lemma not_lowered_trans (a b c : fnum) :
  not_lowered a b -> not_lowered b c -> not_lowered a c.
Proof.
  destruct a, b, c; simpl; auto; try contradiction.
  apply Qle_trans.
Qed.

(** The output of a held instrument with a finite close, in terms of the
    steps of the function. *)
Lemma compute_stateful_stop_held (cfg : config) (today : string) (row : stop_row)
    (pos_state : gmap string position_state) (mr : market_regime) :
  is_held row = true ->
  isfinite (close row) = true ->
  let out := compute_stateful_stop cfg today row pos_state mr in
  let prev := stored_stop pos_state (upper (ticker row)) in
  o_active_stop out = stateful_active_stop prev (o_candidate_stop out)
  /\ o_stop_reason out =
       final_reason (reason_before_final cfg row pos_state mr) prev
         (o_active_stop out) (o_candidate_stop out)
  /\ (exists u, o_state_update out = Some u
                /\ su_active_stop u = o_active_stop out)
  /\ (market_regime_eqb mr SIDEWAYS = false ->
      o_profit_protection_level out = PPL_none ->
      reason_before_final cfg row pos_state mr = SR_empty).
Proof.
  intros Hheld Hclose. cbv zeta.
  unfold compute_stateful_stop, reason_before_final, stored_stop.
  rewrite Hheld, Hclose. simpl negb. cbv iota.
  destruct (sideways_tightening row mr (stop_level row)) as [c0 r0] eqn:Es.
  simpl. repeat split.
  - eexists. split; reflexivity.
  - intros Hmr Hlvl.
    unfold sideways_tightening in Es. rewrite Hmr in Es. simpl in Es.
    injection Es as <- <-.
    revert Hlvl. unfold profit_protection.
    repeat match goal with
           | |- context [if ?b then _ else _] => destruct b
           | |- context [match be_gate ?c ?r with _ => _ end] => destruct (be_gate c r)
           end; simpl; congruence.
Qed.

Lemma stop_step_not_lowered (cfg : config) (today : string)
    (s : gmap string position_state) (inp : stop_row * market_regime) (k : string) :
  not_lowered (stored_stop s k) (stored_stop (stop_step cfg today s inp) k).
Proof.
  destruct inp as [row mr]. unfold stop_step, store_state_update. simpl fst. simpl snd.
  destruct (is_held row) eqn:Hheld.
  2:{ destruct (o_state_update _); apply not_lowered_refl. }
  destruct (isfinite (close row)) eqn:Hclose.
  2:{ unfold compute_stateful_stop. rewrite Hheld, Hclose. simpl.
      apply not_lowered_refl. }
  destruct (compute_stateful_stop_held cfg today row s mr Hheld Hclose)
    as (Ha & _ & (u & Hu & Hua) & _).
  rewrite Hu.
  destruct (decide (upper (ticker row) = k)) as [<-|Hne].
  - unfold stored_stop at 2. rewrite lookup_insert_eq. simpl.
    rewrite Hua, Ha. apply stateful_not_lowered.
  - unfold stored_stop. rewrite lookup_insert_ne by exact Hne.
    apply not_lowered_refl.
Qed.

Lemma stop_trace_from_start (cfg : config) (today : string) (k : string)
    (inps : list (stop_row * market_regime)) :
  forall (s0 s' : gmap string position_state) (j : nat),
    (s0 :: stop_trace cfg today s0 inps) !! j = Some s' ->
    not_lowered (stored_stop s0 k) (stored_stop s' k).
Proof.
  induction inps as [|inp rest IH]; intros s0 s' j Hj.
  - destruct j as [|j]; simpl in Hj; [|destruct j; discriminate].
    injection Hj as <-. apply not_lowered_refl.
  - destruct j as [|j]; simpl in Hj.
    + injection Hj as <-. apply not_lowered_refl.
    + eapply not_lowered_trans; [apply (stop_step_not_lowered cfg today s0 inp k)|].
      apply (IH _ _ j). exact Hj.
Qed.




Lemma breakeven_scenario_witness :
  feq (o_active_stop
         (compute_stateful_stop default_config "2026-11-03" scenario_row
            scenario_table BULLISH)) (Fin 100)
  /\ o_stop_reason
       (compute_stateful_stop (mkConfig (Fin (3 # 2)) BE_trend_only) "2026-11-03"
          scenario_row scenario_table BULLISH) = SR_BE_blocked_regime RANGE.
Proof.
  split.
  - pose proof (breakeven_scenario BE_none "2026-11-03" scenario_row scenario_table
                  BULLISH scenario_state eq_refl eq_refl eq_refl eq_refl eq_refl)
      as (_ & _ & _ & H).
    exact (proj1 (H eq_refl eq_refl)).
  - pose proof (breakeven_scenario BE_trend_only "2026-11-03" scenario_row
                  scenario_table BULLISH scenario_state eq_refl eq_refl eq_refl
                  eq_refl eq_refl) as (_ & _ & _ & H).
    exact (proj2 (proj2 (proj2 H))).
Defined.

(** *** The held update and the write-back *)

Lemma write_lookup (state : gmap string position_state) (k : string) :
  write_positions_state state !! k =
    match state !! k with
    | Some data => if written data then Some (csv_record data) else None
    | None => None
    end.
Proof.
  unfold write_positions_state. rewrite lookup_fmap, map_lookup_filter.
  destruct (state !! k) as [data|]; simpl; [|reflexivity].
  destruct (written data); reflexivity.
Qed.

(** C10 (as amended): the update for a held instrument stores under its
    key a record whose entry_price, initial_stop, active_stop, adds_taken
    and entry_date are those of the state update (the previous entry price,
    initial stop, adds and entry date when there were any) and leaves the
    record of every other key as it was; when the table is written back, a
    record is written, with its ten fields, exactly when it has a finite
    entry_price or a non-empty last_exit_date, and a record with neither is
    left out. *)
Theorem held_update_and_write_back (cfg : config) (today : string) :
  (forall (row : stop_row) (pos_state : gmap string position_state)
          (mr : market_regime),
      is_held row = true ->
      isfinite (close row) = true ->
      let key := upper (ticker row) in
      let out := compute_stateful_stop cfg today row pos_state mr in
      let s' := stop_step cfg today pos_state (row, mr) in
      (exists r, s' !! key = Some r
         /\ active_stop r = o_active_stop out
         /\ (forall old, pos_state !! key = Some old ->
               adds_taken r = adds_taken old
               /\ (isfinite (entry_price old) = true -> entry_price r = entry_price old)
               /\ (isfinite (initial_stop old) = true ->
                   initial_stop r = initial_stop old)
               /\ (nonempty (entry_date old) = true -> entry_date r = entry_date old))
         /\ (pos_state !! key = None ->
             entry_price r = t212_avg_price row
             /\ initial_stop r = stop_level row
             /\ adds_taken r = 0%Z
             /\ entry_date r = today))
      /\ (forall k, k <> key -> s' !! k = pos_state !! k))
  /\ (forall (state : gmap string position_state) (k : string),
        match state !! k with
        | Some data =>
            if isfinite (entry_price data) || nonempty (get_last_exit_date data)
            then exists w, write_positions_state state !! k = Some w
                   /\ (isfinite (entry_price data) = true ->
                       entry_price w = entry_price data)
                   /\ initial_stop w = initial_stop data
                   /\ active_stop w = active_stop data
                   /\ adds_taken w = adds_taken data
                   /\ entry_date w = entry_date data
                   /\ get_last_exit_date w = get_last_exit_date data
                   /\ get_last_exit_profit_R w = get_last_exit_profit_R data
                   /\ get_last_exit_reason w = get_last_exit_reason data
                   /\ get_whipsaw_count w = get_whipsaw_count data
                   /\ get_last_whipsaw_date w = get_last_whipsaw_date data
            else write_positions_state state !! k = None
        | None => write_positions_state state !! k = None
        end).
Proof.
  split.
  - intros row pos_state mr Hheld Hclose key out s'.
    split.
    + subst s' out key. unfold stop_step, store_state_update. simpl fst. simpl snd.
      unfold compute_stateful_stop. rewrite Hheld, Hclose. simpl negb. cbv iota.
      destruct (sideways_tightening row mr (stop_level row)) as [c0 r0].
      simpl o_state_update. cbv iota. rewrite lookup_insert_eq.
      eexists. split; [reflexivity|]. simpl. split; [reflexivity|]. split.
      * intros old Hold. rewrite Hold. simpl.
        split; [reflexivity|]. split; [|split].
        -- intros ->. reflexivity.
        -- intros ->. reflexivity.
        -- intros ->. reflexivity.
      * intros Hnone. rewrite Hnone. simpl. repeat split; reflexivity.
    + intros k Hk. subst s' key. unfold stop_step, store_state_update.
      simpl fst. simpl snd.
      destruct (o_state_update _); [|reflexivity].
      rewrite Hheld. apply lookup_insert_ne. congruence.
  - intros state k. rewrite write_lookup.
    destruct (state !! k) as [data|]; [|reflexivity].
    unfold written.
    destruct (isfinite (entry_price data) || nonempty (get_last_exit_date data));
      [|reflexivity].
    eexists. split; [reflexivity|]. simpl.
    split; [intros ->; reflexivity|]. repeat split; reflexivity.
Qed.

Lemma held_update_and_write_back_witness :
  (exists r,
      stop_step default_config "2026-11-03" history_table (scenario_row, BULLISH)
        !! "ABC" = Some r
      /\ active_stop r = Fin 100 /\ entry_price r = Fin 100)
  /\ (exists w, write_positions_state history_table !! "ABC" = Some w
               /\ get_whipsaw_count w = 2%Z).
Proof.
  destruct (held_update_and_write_back default_config "2026-11-03") as [HA HB].
  split.
  - destruct (HA scenario_row history_table BULLISH eq_refl eq_refl)
      as [(r & Hr & Ha & Hold & _) _].
    exists r. split; [exact Hr|]. split; [exact Ha|].
    exact (proj1 (proj2 (Hold history_state eq_refl)) eq_refl).
  - destruct (HB history_table "ABC") as (w & Hw & H). exists w.
    split; [exact Hw|]. exact (proj1 (proj2 (proj2 (proj2 (proj2 (proj2 (proj2 (proj2 (proj2 H))))))))).
Defined.

(** The sentence of the specification fails twice: the update of a held instrument
    replaces its record by the five bookkeeping fields, so the exit history
    read back afterwards is the default one; and a record without finite
    entry price and without exit date is not written back. *)
Lemma exit_history_and_record_not_kept :
  (exists r,
      stop_step default_config "2026-11-03" history_table (scenario_row, BULLISH)
        !! "ABC" = Some r
      /\ get_whipsaw_count history_state = 2%Z
      /\ get_whipsaw_count r = 0%Z
      /\ get_last_exit_date r <> get_last_exit_date history_state
      /\ get_last_whipsaw_date r <> get_last_whipsaw_date history_state)
  /\ (is_Some (orphan_table !! "XYZ")
      /\ write_positions_state orphan_table !! "XYZ" = None).
Proof.
  split.
  - eexists. split; [reflexivity|]. simpl. repeat split; discriminate.
  - split; [eexists; reflexivity|]. rewrite write_lookup. reflexivity.
Qed.

End StopsProofs.

(** ** Re-entry governor *)

Module EntryProofs.

Import Regime Entry.

Example iso_strptime_days :
  iso_strptime "2026-11-03" = Some 20760%Z
  /\ iso_strptime "2026-10-30" = Some 20756%Z
  /\ iso_strptime "1970-01-01" = Some 0%Z
  /\ iso_strptime "2026-02-29" = None.
Proof. repeat split; reflexivity. Qed.

(** Without a fast-follower flag the kill switch holds: a blocked symbol
    that is not held does not leave the loop body as READY. *)
Lemma whipsaw_block_without_fast_follower (strptime : string -> option Z)
    (row : entry_row) (classified : status * row_reason)
    (pos_state : gmap string position_state) (today_str : string)
    (validation_ok : bool) :
  whipsaw_blocked (check_whipsaw_blocked strptime (e_ticker row) pos_state today_str)
    = true ->
  fast_follower_eligible
    (check_fast_follower_reentry strptime (e_ticker row) row pos_state today_str)
    = false ->
  fst (row_status strptime row classified pos_state today_str validation_ok) <> READY.
Proof.
  intros Hw Hf. unfold row_status. destruct classified as [st rs].
  rewrite Hw, Hf. simpl andb.
  destruct st; simpl;
    repeat match goal with
           | |- context [if ?b then _ else _] => destruct b; simpl
           end; discriminate.
Qed.

(** The fast-follower override is applied after the kill switch and does
    not consult it. *)
Lemma fast_follower_sets_ready (strptime : string -> option Z)
    (row : entry_row) (classified : status * row_reason)
    (pos_state : gmap string position_state) (today_str : string) :
  e_is_held row = false ->
  e_market_regime row = BULLISH ->
  fast_follower_eligible
    (check_fast_follower_reentry strptime (e_ticker row) row pos_state today_str)
    = true ->
  fst (row_status strptime row classified pos_state today_str true) = READY.
Proof.
  intros Hh Hm Hf. unfold row_status. destruct classified as [st rs].
  rewrite Hf, Hh, Hm. simpl.
  repeat match goal with
         | |- context [if ?b then _ else _] => destruct b; simpl
         end; reflexivity.
Qed.

(** C4: on 2026-11-03 the symbol of [whipsawed_table] is whipsaw-blocked
    (two stop-hits, 4 of the 60 penalty days elapsed) and meets the
    fast-follower conditions; the status written for it is READY. *)
Theorem fast_follower_overrides_whipsaw_block :
  let blocked :=
    check_whipsaw_blocked iso_strptime "ABC" whipsawed_table "2026-11-03" in
  let follower :=
    check_fast_follower_reentry iso_strptime "ABC" squeeze_row whipsawed_table
      "2026-11-03" in
  whipsaw_blocked blocked = true
  /\ whipsaw_reason blocked = R_whipsaw_blocked 2 56
  /\ fast_follower_eligible follower = true
  /\ row_status iso_strptime squeeze_row (READY, R_classify "0.00% from 20D High")
       whipsawed_table "2026-11-03" true
     = (READY, R_RE_ENTRY_SQUEEZE 4 (Fin (5 # 2)))
  /\ final_status iso_strptime 3 squeeze_row (READY, R_classify "0.00% from 20D High")
       whipsawed_table "2026-11-03" true (Fin 1000) ∅ ∅ = READY.
Proof.
  cbv zeta. repeat split; vm_compute; reflexivity.
Qed.

End EntryProofs.

(** ** Universe de-duplication *)

Module UniverseProofs.

Import Universe.

Lemma insert_key_In (k x : string) (l : list string) :
  In x (insert_key k l) <-> x = k \/ In x l.
Proof.
  induction l as [|y r IH]; simpl.
  - intuition.
  - destruct (String.leb k y); simpl; [intuition|].
    rewrite IH. intuition.
Qed.

Lemma insert_key_NoDup (k : string) (l : list string) :
  ~ In k l -> List.NoDup l -> List.NoDup (insert_key k l).
Proof.
  induction l as [|y r IH]; simpl; intros Hk Hl.
  - constructor; [intros []|constructor].
  - destruct (String.leb k y).
    + constructor; [exact Hk|exact Hl].
    + inversion Hl as [|? ? Hy Hr]; subst.
      constructor.
      * rewrite insert_key_In. intros [->|H]; [apply Hk; left; reflexivity|].
        contradiction.
      * apply IH; [intros H; apply Hk; right; exact H|exact Hr].
Qed.

Lemma sorted_keys_In (x : string) (l : list string) :
  In x (fold_right insert_key [] l) <-> In x l.
Proof.
  induction l as [|y r IH]; simpl; [reflexivity|].
  rewrite insert_key_In, IH. intuition.
Qed.

Lemma sorted_keys_NoDup (l : list string) :
  List.NoDup l -> List.NoDup (fold_right insert_key [] l).
Proof.
  induction 1 as [|y r Hy Hr IH]; simpl; [constructor|].
  apply insert_key_NoDup; [|exact IH].
  rewrite sorted_keys_In. exact Hy.
Qed.

Lemma group_keys_In (dfu : list universe_row) (k : string) :
  In k (group_keys dfu) <-> exists r, In r dfu /\ u_ticker_yf r = k.
Proof.
  unfold group_keys. rewrite sorted_keys_In, nodup_In, in_map_iff.
  split; intros (r & H1 & H2); exists r; auto.
Qed.

Lemma group_keys_NoDup (dfu : list universe_row) : List.NoDup (group_keys dfu).
Proof. apply sorted_keys_NoDup, NoDup_nodup. Qed.

Lemma group_of_In (k : string) (dfu : list universe_row) (r : universe_row) :
  In r (group_of k dfu) <-> In r dfu /\ u_ticker_yf r = k.
Proof.
  unfold group_of. rewrite filter_In, String.eqb_eq. reflexivity.
Qed.

Lemma insert_by_prio_In (r x : universe_row) (l : list universe_row) :
  In x (insert_by_prio r l) <-> x = r \/ In x l.
Proof.
  induction l as [|y rest IH]; simpl.
  - intuition.
  - destruct (prio r <=? prio y)%nat; simpl; [intuition|].
    rewrite IH. intuition.
Qed.

Lemma sort_by_prio_In (x : universe_row) (g : list universe_row) :
  In x (sort_by_prio g) <-> In x g.
Proof.
  unfold sort_by_prio. induction g as [|y r IH]; simpl; [reflexivity|].
  rewrite insert_by_prio_In, IH. intuition.
Qed.

Lemma insert_by_prio_head (r : universe_row) (l : list universe_row) :
  head_minimal l -> head_minimal (insert_by_prio r l).
Proof.
  destruct l as [|y rest]; simpl.
  - intros _ x [<-|[]]. lia.
  - intros Hmin. destruct (prio r <=? prio y)%nat eqn:E; simpl.
    + apply Nat.leb_le in E. intros x [<-|Hx]; [lia|].
      specialize (Hmin x Hx). lia.
    + apply Nat.leb_gt in E. intros x [<-|Hx]; [lia|].
      apply insert_by_prio_In in Hx as [->|Hx]; [lia|].
      apply Hmin. right. exact Hx.
Qed.

Lemma sort_by_prio_head (g : list universe_row) : head_minimal (sort_by_prio g).
Proof.
  unfold sort_by_prio. induction g as [|y r IH]; simpl; [exact I|].
  apply insert_by_prio_head, IH.
Qed.

(** The row kept for a key that occurs in the frame. *)
Lemma kept_row (dfu : list universe_row) (k : string) :
  In k (group_keys dfu) ->
  exists keep rest,
    sort_by_prio (group_of k dfu) = keep :: rest
    /\ In keep dfu /\ u_ticker_yf keep = k
    /\ (forall x, In x dfu -> u_ticker_yf x = k -> (prio keep <= prio x)%nat).
Proof.
  intros Hk. apply group_keys_In in Hk as (r & Hr & Hrk).
  destruct (sort_by_prio (group_of k dfu)) as [|keep rest] eqn:E.
  - assert (H : In r (sort_by_prio (group_of k dfu))).
    { apply sort_by_prio_In, group_of_In. split; assumption. }
    rewrite E in H. destruct H.
  - exists keep, rest. split; [reflexivity|].
    assert (Hin : In keep (sort_by_prio (group_of k dfu))) by (rewrite E; left; reflexivity).
    apply sort_by_prio_In, group_of_In in Hin as [Hin Hkk].
    split; [exact Hin|]. split; [exact Hkk|].
    intros x Hx Hxk.
    pose proof (sort_by_prio_head (group_of k dfu)) as Hmin. rewrite E in Hmin.
    apply Hmin. rewrite <- E. apply sort_by_prio_In, group_of_In. split; assumption.
Qed.

Lemma kept_keys (dfu : list universe_row) (ks : list string) :
  (forall k, In k ks -> In k (group_keys dfu)) ->
  map u_ticker_yf (kept dfu ks) = ks.
Proof.
  unfold kept. induction ks as [|k ks IH]; intros Hks; simpl; [reflexivity|].
  destruct (kept_row dfu k) as (keep & rest & E & _ & Hk & _);
    [apply Hks; left; reflexivity|].
  rewrite E. simpl. rewrite Hk. f_equal.
  apply IH. intros k' Hk'. apply Hks. right. exact Hk'.
Qed.

Lemma kept_In (dfu : list universe_row) (ks : list string) (r : universe_row) :
  In r (kept dfu ks) ->
  exists k rest, In k ks /\ sort_by_prio (group_of k dfu) = r :: rest.
Proof.
  unfold kept. rewrite in_flat_map. intros ([k g] & Hin & Hr).
  apply in_map_iff in Hin as (k' & [= <- <-] & Hk').
  simpl in Hr. destruct (sort_by_prio (group_of k' dfu)) as [|keep rest] eqn:E;
    [destruct Hr|].
  destruct Hr as [<-|[]]. exists k', rest. split; [exact Hk'|exact E].
Qed.

Lemma enforce_kept (dfu : list universe_row) :
  fst (enforce_unique_underlyings dfu) = kept dfu (group_keys dfu).
Proof.
  destruct dfu as [|r dfu]; reflexivity.
Qed.

Lemma filter_unique_key (l : list universe_row) (r : universe_row) :
  List.NoDup (map u_ticker_yf l) -> In r l ->
  List.filter (fun x => String.eqb (u_ticker_yf x) (u_ticker_yf r)) l = [r].
Proof.
  induction l as [|y rest IH]; simpl; intros Hnd Hin; [destruct Hin|].
  inversion Hnd as [|? ? Hy Hr]; subst.
  destruct Hin as [->|Hin].
  - rewrite String.eqb_refl. f_equal.
    clear IH Hnd Hr. induction rest as [|z rest IH]; simpl; [reflexivity|].
    destruct (String.eqb (u_ticker_yf z) (u_ticker_yf r)) eqn:E.
    + apply String.eqb_eq in E. exfalso. apply Hy. left. exact E.
    + apply IH. intros H. apply Hy. right. exact H.
  - destruct (String.eqb (u_ticker_yf y) (u_ticker_yf r)) eqn:E.
    + apply String.eqb_eq in E. exfalso. apply Hy. rewrite E.
      apply in_map. exact Hin.
    + apply IH; assumption.
Qed.

Section WithTickerMap.

Variable map_ticker : string -> string.
Variables hedge etfs core risk : list string.

Local Abbreviation dfu := (build_universe map_ticker hedge etfs core risk).
Local Abbreviation sleeve_list := (sleeve_list hedge etfs core risk).

Lemma build_universe_In (r : universe_row) :
  In r dfu <->
  exists t, In t (sleeve_list (u_sleeve r)) /\ r = mkRow t (map_ticker t) (u_sleeve r).
Proof.
  unfold dfu, build_universe. rewrite !in_app_iff, !in_map_iff. split.
  - intros [H|[H|[H|H]]]; destruct H as (t & <- & Ht); exists t; simpl; auto.
  - intros (t & Ht & Hr). destruct r as [tk ty sl]. simpl in *.
    injection Hr as -> ->.
    destruct sl; simpl in Ht; [left|right; left|right; right; left|right; right; right];
      exists t; auto.
Qed.

Lemma row_listed (r : universe_row) :
  In r dfu -> lists_underlying map_ticker (u_ticker_yf r) (sleeve_list (u_sleeve r)) = true.
Proof.
  intros H. apply build_universe_In in H as (t & Ht & Hr).
  unfold lists_underlying. apply existsb_exists. exists t. split; [exact Ht|].
  rewrite Hr. simpl. apply String.eqb_refl.
Qed.

Lemma listed_row (s : sleeve) (k : string) :
  lists_underlying map_ticker k (sleeve_list s) = true ->
  exists r, In r dfu /\ u_ticker_yf r = k /\ u_sleeve r = s.
Proof.
  unfold lists_underlying. rewrite existsb_exists.
  intros (t & Ht & E). apply String.eqb_eq in E.
  exists (mkRow t (map_ticker t) s). split; [|split; [exact E|reflexivity]].
  apply build_universe_In. exists t. simpl. auto.
Qed.

(** C5: for every symbol of the four universe lists, in particular one
    that appears in more than one of them, exactly one row of its
    underlying survives into the evaluated universe, and its sleeve is the
    first of HEDGE, ETF_CORE, STOCK_CORE, STOCK_HIGH_RISK whose list names
    the underlying; no two surviving rows share an underlying, so none can
    contribute to two sleeves. *)
Theorem sleeve_partition (t : string) :
  In t (hedge ++ etfs ++ core ++ risk) ->
  let out := fst (enforce_unique_underlyings dfu) in
  List.NoDup (map u_ticker_yf out)
  /\ exists r,
       In r out
       /\ u_ticker_yf r = map_ticker t
       /\ u_sleeve r = sleeve_by_priority map_ticker hedge etfs core risk (map_ticker t)
       /\ List.filter (fun x => String.eqb (u_ticker_yf x) (map_ticker t)) out = [r].
Proof.
  intros Ht out.
  assert (Hkeys : map u_ticker_yf out = group_keys dfu).
  { unfold out. rewrite enforce_kept. apply kept_keys. auto. }
  assert (Hnd : List.NoDup (map u_ticker_yf out)).
  { rewrite Hkeys. apply group_keys_NoDup. }
  split; [exact Hnd|].
  assert (Hk : In (map_ticker t) (group_keys dfu)).
  { apply group_keys_In.
    assert (Hs : exists s, In t (sleeve_list s)).
    { rewrite !in_app_iff in Ht.
      destruct Ht as [H|[H|[H|H]]];
        [exists HEDGE|exists ETF_CORE|exists STOCK_CORE|exists STOCK_HIGH_RISK]; exact H. }
    destruct Hs as [s Hs]. exists (mkRow t (map_ticker t) s).
    split; [|reflexivity]. apply build_universe_In. exists t. simpl. auto. }
  destruct (kept_row dfu (map_ticker t) Hk) as (keep & rest & E & Hin & Hkk & Hmin).
  assert (Hout : In keep out).
  { unfold out. rewrite enforce_kept. unfold kept. apply in_flat_map.
    exists (map_ticker t, sort_by_prio (group_of (map_ticker t) dfu)).
    split; [apply in_map_iff; exists (map_ticker t); auto|].
    simpl. rewrite E. left. reflexivity. }
  exists keep. split; [exact Hout|]. split; [exact Hkk|]. split.
  - pose proof (row_listed keep Hin) as Hl. rewrite Hkk in Hl.
    assert (Hle : forall s,
               lists_underlying map_ticker (map_ticker t) (sleeve_list s) = true ->
               (prio keep <= SLEEVE_PRIORITY s)%nat).
    { intros s Hs. destruct (listed_row s _ Hs) as (x & Hx & Hxk & Hxs).
      specialize (Hmin x Hx Hxk). unfold prio in Hmin at 2. rewrite Hxs in Hmin.
      exact Hmin. }
    unfold sleeve_by_priority. unfold prio in Hle.
    destruct (lists_underlying map_ticker (map_ticker t) hedge) eqn:E0.
    { specialize (Hle HEDGE E0). destruct (u_sleeve keep); simpl in Hle; try lia.
      reflexivity. }
    destruct (lists_underlying map_ticker (map_ticker t) etfs) eqn:E1.
    { specialize (Hle ETF_CORE E1).
      destruct (u_sleeve keep); simpl in Hle, Hl; try lia; congruence. }
    destruct (lists_underlying map_ticker (map_ticker t) core) eqn:E2.
    { specialize (Hle STOCK_CORE E2).
      destruct (u_sleeve keep); simpl in Hle, Hl; try lia; congruence. }
    destruct (u_sleeve keep); simpl in Hl; congruence.
  - rewrite <- Hkk. apply filter_unique_key; assumption.
Qed.

End WithTickerMap.

Example enforce_unique_underlyings_example :
  enforce_unique_underlyings example_universe
  = ([mkRow "GLD" "GLD" HEDGE; mkRow "NVDA_US_EQ" "NVDA" STOCK_CORE;
      mkRow "VWRL" "VWRL" ETF_CORE],
     [mkDropped "GLD" HEDGE ETF_CORE "GLD";
      mkDropped "NVDA" STOCK_CORE STOCK_HIGH_RISK "NVDA"]).
Proof. reflexivity. Qed.

Lemma sleeve_partition_witness :
  exists r,
    In r (fst (enforce_unique_underlyings example_universe))
    /\ u_ticker_yf r = "GLD" /\ u_sleeve r = HEDGE.
Proof.
  destruct (sleeve_partition example_map ["GLD"] ["GLD"; "VWRL"] ["NVDA_US_EQ"]
              ["NVDA"] "GLD" (or_introl eq_refl)) as [_ (r & Hin & Hk & Hs & _)].
  exists r. split; [exact Hin|]. split; [exact Hk|exact Hs].
Defined.

End UniverseProofs.

(** ** The loop of [main] and its skips *)

Module LoopProofs.

Import Universe Loop.

Section WithData.

Variable frame : Type.
Variable raw : string -> option frame.
Variable df_empty : frame -> bool.
Variable len : frame -> nat.
Variable age_days : frame -> Z.
Variable max_data_age_days : Z.
Variable out_row : Type.
Variable evaluate :
  universe_row -> frame -> gmap string position_state ->
  (string + out_row) * gmap string position_state.

Local Abbreviation body := (loop_body frame raw df_empty len age_days max_data_age_days
                            out_row evaluate).
Local Abbreviation skipped := (data_skipped frame raw df_empty len age_days
                               max_data_age_days).
Local Abbreviation run := (run out_row).

Lemma reason_text_nonempty (r : skip_reason) : nonempty (reason_text r) = true.
Proof. destruct r; reflexivity. Qed.

(** A data skip adds one entry and touches nothing else. *)
Lemma body_skipped (acc : run) (u : universe_row) :
  skipped u = true ->
  exists r,
    body acc u = add_skip out_row u r acc
    /\ (r = INSUFFICIENT_BARS \/ exists a, r = STALE_DATA a).
Proof.
  unfold data_skipped, loop_body.
  destruct (raw (u_ticker_yf u)) as [df|]; [|discriminate].
  destruct (df_empty df || (len df <? 230)%nat); simpl.
  - intros _. exists INSUFFICIENT_BARS. split; [reflexivity|left; reflexivity].
  - intros ->. eexists. split; [reflexivity|right; eexists; reflexivity].
Qed.

(** An instrument that is not skipped for its data is evaluated, and the
    result depends on the accumulator through the state table only. *)
Lemma body_evaluated (acc : run) (u : universe_row) :
  skipped u = false ->
  (exists row, out_rows _ (body acc u) = out_rows _ acc ++ [(u, row)]
               /\ skips _ (body acc u) = skips _ acc)
  \/ (exists name,
         out_rows _ (body acc u) = out_rows _ acc
         /\ skips _ (body acc u) =
              skips _ acc ++ [mkSkip (u_ticker u) (u_ticker_yf u) (EXCEPTION name)]).
Proof.
  unfold data_skipped, loop_body.
  destruct (raw (u_ticker_yf u)) as [df|].
  - intros H. apply orb_false_iff in H as [H1 H2]. rewrite H1, H2.
    destruct (evaluate u df (pos_state _ acc)) as [[name|row] st]; simpl.
    + right. exists name. split; reflexivity.
    + left. exists row. split; reflexivity.
  - intros _. right. exists "KeyError"%string. split; reflexivity.
Qed.

Lemma body_congruence (acc acc' : run) (u : universe_row) :
  out_rows _ acc = out_rows _ acc' ->
  pos_state _ acc = pos_state _ acc' ->
  out_rows _ (body acc u) = out_rows _ (body acc' u)
  /\ pos_state _ (body acc u) = pos_state _ (body acc' u).
Proof.
  intros Ho Hs. unfold loop_body, add_skip.
  destruct (raw (u_ticker_yf u)) as [df|]; simpl; [|split; assumption].
  destruct (df_empty df || (len df <? 230)%nat); simpl; [split; assumption|].
  destruct (max_data_age_days <? age_days df)%Z; simpl; [split; assumption|].
  rewrite Hs. destruct (evaluate u df (pos_state _ acc')) as [[name|row] st]; simpl.
  - split; [assumption|reflexivity].
  - rewrite Ho. split; reflexivity.
Qed.

Lemma loop_ignores_skipped (dfu : list universe_row) :
  forall acc acc' : run,
    out_rows _ acc = out_rows _ acc' ->
    pos_state _ acc = pos_state _ acc' ->
    out_rows _ (fold_left body dfu acc)
      = out_rows _ (fold_left body (List.filter (fun u => negb (skipped u)) dfu) acc')
    /\ pos_state _ (fold_left body dfu acc)
      = pos_state _ (fold_left body (List.filter (fun u => negb (skipped u)) dfu) acc').
Proof.
  induction dfu as [|u rest IH]; intros acc acc' Ho Hs; simpl; [split; assumption|].
  destruct (skipped u) eqn:E; simpl.
  - apply IH.
    + destruct (body_skipped acc u E) as (r & -> & _). exact Ho.
    + destruct (body_skipped acc u E) as (r & -> & _). exact Hs.
  - destruct (body_congruence acc acc' u Ho Hs) as [Ho' Hs']. apply IH; assumption.
Qed.

Lemma body_skips_kept (acc : run) (u : universe_row) (sk : skip) :
  In sk (skips _ acc) -> In sk (skips _ (body acc u)).
Proof.
  intros H. unfold loop_body, add_skip.
  destruct (raw (u_ticker_yf u)) as [df|]; simpl; [|apply in_or_app; auto].
  destruct (df_empty df || (len df <? 230)%nat); simpl; [apply in_or_app; auto|].
  destruct (max_data_age_days <? age_days df)%Z; simpl; [apply in_or_app; auto|].
  destruct (evaluate u df (pos_state _ acc)) as [[name|row] st]; simpl;
    [apply in_or_app; auto|exact H].
Qed.

Lemma loop_skips_kept (dfu : list universe_row) :
  forall (acc : run) (sk : skip),
    In sk (skips _ acc) -> In sk (skips _ (fold_left body dfu acc)).
Proof.
  induction dfu as [|u rest IH]; intros acc sk H; simpl; [exact H|].
  apply IH, body_skips_kept, H.
Qed.

Lemma body_rows_kept (acc : run) (u : universe_row) (x : universe_row * out_row) :
  In x (out_rows _ acc) -> In x (out_rows _ (body acc u)).
Proof.
  intros H. unfold loop_body, add_skip.
  destruct (raw (u_ticker_yf u)) as [df|]; simpl; [|exact H].
  destruct (df_empty df || (len df <? 230)%nat); simpl; [exact H|].
  destruct (max_data_age_days <? age_days df)%Z; simpl; [exact H|].
  destruct (evaluate u df (pos_state _ acc)) as [[name|row] st]; simpl;
    [exact H|apply in_or_app; auto].
Qed.

Lemma loop_rows_kept (dfu : list universe_row) :
  forall (acc : run) (x : universe_row * out_row),
    In x (out_rows _ acc) -> In x (out_rows _ (fold_left body dfu acc)).
Proof.
  induction dfu as [|u rest IH]; intros acc x H; simpl; [exact H|].
  apply IH, body_rows_kept, H.
Qed.

(** Where the rows and the skip entries of a run come from. *)
Lemma loop_rows_origin (dfu : list universe_row) :
  forall (acc : run) (v : universe_row),
    In v (map fst (out_rows _ (fold_left body dfu acc))) ->
    In v (map fst (out_rows _ acc)) \/ (In v dfu /\ skipped v = false).
Proof.
  induction dfu as [|u rest IH]; intros acc v H; simpl in *; [left; exact H|].
  destruct (IH _ _ H) as [H1|[H1 H2]]; [|right; split; [right|]; assumption].
  destruct (skipped u) eqn:E.
  - destruct (body_skipped acc u E) as (r & Hb & _). rewrite Hb in H1.
    left. exact H1.
  - destruct (body_evaluated acc u E) as [(row & Ho & _)|(name & Ho & _)];
      rewrite Ho in H1; [|left; exact H1].
    rewrite map_app, in_app_iff in H1. destruct H1 as [H1|[<-|[]]].
    + left. exact H1.
    + right. split; [left; reflexivity|exact E].
Qed.

Lemma loop_accounts (dfu : list universe_row) :
  forall (acc : run) (u : universe_row),
    In u dfu ->
    let r := fold_left body dfu acc in
    (skipped u = true ->
       exists sk, In sk (skips _ r)
         /\ s_ticker sk = u_ticker u /\ s_ticker_yf sk = u_ticker_yf u
         /\ (s_reason sk = INSUFFICIENT_BARS \/ exists a, s_reason sk = STALE_DATA a))
    /\ (In u (map fst (out_rows _ r))
        \/ exists sk, In sk (skips _ r)
             /\ s_ticker sk = u_ticker u /\ s_ticker_yf sk = u_ticker_yf u).
Proof.
  induction dfu as [|v rest IH]; intros acc u Hin; [destruct Hin|].
  simpl. destruct Hin as [->|Hin]; [|apply IH; exact Hin].
  destruct (skipped u) eqn:E.
  - destruct (body_skipped acc u E) as (r & Hb & Hr).
    assert (Hsk : In (mkSkip (u_ticker u) (u_ticker_yf u) r)
                    (skips _ (fold_left body rest (body acc u)))).
    { apply loop_skips_kept. rewrite Hb. simpl. apply in_or_app. right. left.
      reflexivity. }
    split.
    + intros _. eexists. split; [exact Hsk|]. simpl. auto.
    + right. eexists. split; [exact Hsk|]. simpl. auto.
  - split; [discriminate|].
    destruct (body_evaluated acc u E) as [(row & Ho & _)|(name & _ & Hs)].
    + left. apply in_map_iff. exists (u, row). split; [reflexivity|].
      apply loop_rows_kept. rewrite Ho. apply in_or_app. right. left. reflexivity.
    + right. eexists. split.
      * apply loop_skips_kept. rewrite Hs. apply in_or_app. right. left. reflexivity.
      * simpl. auto.
Qed.


End WithData.

Example example_run_rows :
  out_rows _ example_run = [(mkRow "AAA" "AAA" STOCK_CORE, "AAA"%string)]
  /\ skips _ example_run =
       [mkSkip "BBB" "BBB" INSUFFICIENT_BARS; mkSkip "CCC" "CCC" (STALE_DATA 30);
        mkSkip "DDD" "DDD" (EXCEPTION "KeyError")].
Proof. split; reflexivity. Qed.


End LoopProofs.

(** ** Open risk *)

Module RiskProofs.

Import Risk.

Lemma fadd_comm (a b : fnum) : feq (fadd a b) (fadd b a).
Proof. destruct a, b; simpl; auto. apply Qplus_comm. Qed.

Lemma fadd_assoc (a b c : fnum) : feq (fadd (fadd a b) c) (fadd a (fadd b c)).
Proof. destruct a, b, c; simpl; auto. symmetry. apply Qplus_assoc. Qed.

Lemma fadd_0_l (a : fnum) : feq (fadd (Fin 0) a) a.
Proof. destruct a; simpl; auto. apply Qplus_0_l. Qed.

#[export] Instance fadd_proper : Proper (feq ==> feq ==> feq) fadd.
Proof.
  intros a a' Ha b b' Hb.
  destruct a, a'; simpl in Ha; try contradiction;
    destruct b, b'; simpl in Hb; try contradiction; simpl; auto.
  rewrite Ha, Hb. reflexivity.
Qed.

(** Moving one term to the front of a sum. *)
Lemma fadd_swap (x a b : fnum) : feq (fadd x (fadd a b)) (fadd a (fadd x b)).
Proof.
  rewrite <- fadd_assoc, (fadd_comm x a), fadd_assoc. reflexivity.
Qed.

(** [nansum] of the values of [f] on a list of rows. *)
Local Abbreviation total f l := (nansum (map f l)).

(** A sum splits along two selections that never hold together. *)
Lemma nansum_split {A : Type} (f : A -> fnum) (p q : A -> bool) (l : list A) :
  (forall x, In x l -> p x = true -> q x = true -> False) ->
  feq (total f (List.filter (fun x => p x || q x) l))
      (fadd (total f (List.filter p l)) (total f (List.filter q l))).
Proof.
  induction l as [|x l IH]; intros Hd; simpl.
  - reflexivity.
  - assert (IH' := IH (fun y Hy => Hd y (or_intror Hy))). clear IH.
    destruct (p x) eqn:Ep, (q x) eqn:Eq; simpl.
    + exfalso. apply (Hd x); auto. left. reflexivity.
    + destruct (isnan (f x)); [exact IH'|].
      rewrite IH'. symmetry. apply fadd_assoc.
    + destruct (isnan (f x)); [exact IH'|].
      rewrite IH'. apply fadd_swap.
    + exact IH'.
Qed.

Lemma mem_In (c : string) (ks : list string) : mem c ks = true <-> In c ks.
Proof.
  unfold mem. rewrite existsb_exists. split.
  - intros (k & Hk & E). apply String.eqb_eq in E. subst. exact Hk.
  - intros H. exists c. split; [exact H|apply String.eqb_refl].
Qed.

(** The per-cluster sums over distinct keys add up to the sum over the
    rows whose cluster is one of the keys. *)
Lemma cluster_sums (df : list risk_row) (ks : list string) :
  List.NoDup ks ->
  feq (sum_list (map (cluster_risk_gbp df) ks))
      (total held_risk_gbp (List.filter (fun r => mem (k_cluster r) ks) df)).
Proof.
  induction 1 as [|k ks Hk Hnd IH]; simpl.
  - replace (List.filter (fun _ => false) df) with (@nil risk_row); [reflexivity|].
    induction df; simpl; auto.
  - rewrite IH. unfold cluster_risk_gbp.
    rewrite <- (nansum_split held_risk_gbp
                  (fun r => String.eqb (k_cluster r) k)
                  (fun r => mem (k_cluster r) ks)).
    + reflexivity.
    + intros r _ H1 H2. apply String.eqb_eq in H1. apply mem_In in H2.
      subst. contradiction.
Qed.

Lemma filter_NoDup {A : Type} (p : A -> bool) (l : list A) :
  List.NoDup l -> List.NoDup (List.filter p l).
Proof.
  induction 1 as [|x l Hx Hl IH]; simpl; [constructor|].
  destruct (p x); [|exact IH].
  constructor; [|exact IH]. rewrite filter_In. intros [H _]. contradiction.
Qed.

(** The sum of the per-cluster exposure over the selected clusters is the
    sum over the rows of those clusters. *)
Lemma sum_cluster_risk_rows (df : list risk_row) (keep : string -> bool) :
  feq (sum_cluster_risk df keep)
      (total held_risk_gbp (List.filter (fun r => keep (k_cluster r)) df)).
Proof.
  unfold sum_cluster_risk.
  rewrite cluster_sums by (apply filter_NoDup, NoDup_nodup).
  replace (List.filter (fun r => mem (k_cluster r) (List.filter keep (clusters df))) df)
    with (List.filter (fun r => keep (k_cluster r)) df); [reflexivity|].
  apply filter_ext_in. intros r Hr.
  destruct (keep (k_cluster r)) eqn:E; symmetry.
  - apply mem_In, filter_In. split; [|exact E].
    unfold clusters. apply nodup_In, in_map, Hr.
  - destruct (mem (k_cluster r) (List.filter keep (clusters df))) eqn:M; [|reflexivity].
    apply mem_In, filter_In in M as [_ M]. congruence.
Qed.

Lemma filter_all {A : Type} (l : list A) : List.filter (fun _ => true) l = l.
Proof. induction l; simpl; congruence. Qed.

(** The risk of a held row with finite inputs. *)
Lemma held_risk_formula (r : risk_row) (q c s f : Q) :
  k_is_held r = true ->
  k_t212_quantity r = Fin q ->
  k_close r = Fin c ->
  held_stop_used r = Fin s ->
  k_fx_to_gbp_est r = Fin f ->
  feq (held_risk_gbp r) (Fin (q * Qmax 0 (c - s) * f)).
Proof.
  intros Hh Hq Hc Hs Hf. unfold held_risk_gbp, held_stop_dist_local.
  rewrite Hh, Hq, Hc, Hs, Hf. simpl.
  destruct (Qltb (c + - s) 0) eqn:E; simpl.
  - apply Qltb_lt in E.
    rewrite Q.max_l by (unfold Qminus; apply Qlt_le_weak, E). reflexivity.
  - apply Qltb_ge in E. rewrite Q.max_r by exact E. reflexivity.
Qed.

(** C2 (as amended): the per-cluster exposure summed over all distinct
    clusters equals the total open risk of the run, each row entering once
    with held_risk_gbp, which is 0 for a row that is not held and quantity
    times max(0, close - stop-in-use) times the FX rate for a held one (the
    stop-in-use being active_stop when finite, else stop_level); the total
    is the non-hedge total plus the hedge total, both taken by sleeve; and
    the sum over the clusters other than HEDGE equals the non-hedge total
    whenever the rows of cluster HEDGE are exactly the rows of the HEDGE
    sleeve. *)
Theorem cluster_exposure_adds_up (df : list risk_row) :
  feq (sum_cluster_risk df any_cluster) (open_risk_gbp_total df)
  /\ feq (fadd (open_risk_gbp_ex_hedge df) (hedge_risk_gbp df))
         (open_risk_gbp_total df)
  /\ ((forall r, In r df -> (k_cluster r = "HEDGE"%string <-> k_sleeve r = HEDGE)) ->
      feq (sum_cluster_risk df not_hedge_cluster) (open_risk_gbp_ex_hedge df))
  /\ (forall r, In r df ->
        (k_is_held r = false -> held_risk_gbp r = Fin 0)
        /\ (held_stop_used r =
              if isfinite (k_active_stop r) then k_active_stop r else k_stop_level r)
        /\ (forall q c s f,
              k_is_held r = true ->
              k_t212_quantity r = Fin q -> k_close r = Fin c ->
              held_stop_used r = Fin s -> k_fx_to_gbp_est r = Fin f ->
              feq (held_risk_gbp r) (Fin (q * Qmax 0 (c - s) * f)))).
Proof.
  split; [|split; [|split]].
  - rewrite sum_cluster_risk_rows. unfold any_cluster, open_risk_gbp_total.
    rewrite filter_all. reflexivity.
  - unfold open_risk_gbp_ex_hedge, hedge_risk_gbp, open_risk_gbp_total.
    rewrite <- (nansum_split held_risk_gbp
                  (fun r => negb (sleeve_eqb (k_sleeve r) HEDGE))
                  (fun r => sleeve_eqb (k_sleeve r) HEDGE)).
    + replace (List.filter
                 (fun x => negb (sleeve_eqb (k_sleeve x) HEDGE)
                           || sleeve_eqb (k_sleeve x) HEDGE) df) with df;
        [reflexivity|].
      rewrite <- (filter_all df) at 1. apply filter_ext. intros r.
      destruct (sleeve_eqb (k_sleeve r) HEDGE); reflexivity.
    + intros r _ H1 H2. rewrite H2 in H1. discriminate.
  - intros Hh. rewrite sum_cluster_risk_rows. unfold open_risk_gbp_ex_hedge.
    replace (List.filter (fun r => not_hedge_cluster (k_cluster r)) df)
      with (List.filter (fun r => negb (sleeve_eqb (k_sleeve r) HEDGE)) df);
      [reflexivity|].
    apply filter_ext_in. intros r Hr. unfold not_hedge_cluster. f_equal.
    specialize (Hh r Hr).
    destruct (String.eqb (k_cluster r) "HEDGE") eqn:E.
    + apply String.eqb_eq in E. apply Hh in E. rewrite E. reflexivity.
    + apply String.eqb_neq in E.
      destruct (k_sleeve r); try reflexivity.
      exfalso. apply E, Hh. reflexivity.
  - intros r _. split; [|split].
    + intros H. unfold held_risk_gbp. rewrite H. reflexivity.
    + reflexivity.
    + apply held_risk_formula.
Qed.

Example example_frame_risk :
  map k_cluster example_frame = ["GOLD"; "SEMIS"]%string
  /\ map held_risk_gbp example_frame = [Fin (10 * (10 + - 9) * 1); Fin (5 * (20 + - 18) * 1)].
Proof. split; reflexivity. Qed.

Lemma cluster_exposure_adds_up_witness :
  feq (sum_cluster_risk example_frame any_cluster) (Fin 20)
  /\ feq (fadd (open_risk_gbp_ex_hedge example_frame) (hedge_risk_gbp example_frame))
         (Fin 20)
  /\ feq (sum_cluster_risk unmapped_frame not_hedge_cluster) (Fin 10)
  /\ feq (held_risk_gbp (mkRiskRow STOCK_CORE "SEMIS" true (Fin 5) (Fin 20) NaN
                           (Fin 18) (Fin 1)))
         (Fin (5 * Qmax 0 (20 - 18) * 1)).
Proof.
  destruct (cluster_exposure_adds_up example_frame) as (H1 & H2 & _ & H4).
  destruct (cluster_exposure_adds_up unmapped_frame) as (_ & _ & H3 & _).
  split; [exact H1|]. split; [exact H2|]. split.
  { apply H3. intros r [<-|[<-|[]]]; vm_compute; split; intros H;
      first [reflexivity|discriminate H]. }
  refine (proj2 (proj2 (H4 _ (or_intror (or_introl eq_refl)))) 5 20 18 1
            eq_refl eq_refl eq_refl eq_refl eq_refl).
Defined.

(** The sentence of the specification fails when the cluster map files a HEDGE-sleeve
    position under another cluster: its risk of 10 is part of the exposure
    of cluster GOLD, hence of the sum over the non-HEDGE clusters, and is
    not part of the non-hedge open risk. *)
Lemma hedge_risk_leaks_into_clusters :
  feq (sum_cluster_risk example_frame not_hedge_cluster) (Fin 20)
  /\ feq (open_risk_gbp_ex_hedge example_frame) (Fin 10)
  /\ ~ feq (sum_cluster_risk example_frame not_hedge_cluster)
           (open_risk_gbp_ex_hedge example_frame).
Proof.
  repeat split; try (vm_compute; reflexivity).
  vm_compute. discriminate.
Qed.

End RiskProofs.

(** ** Ranking *)

Module RankProofs.

Import Rank.

Example rank_scores_example :
  rankable flat_trend_stock = true
  /\ rankable soaring_range_stock = true
  /\ rank_bucket flat_trend_stock = Fin 0
  /\ rank_bucket soaring_range_stock = Fin 1
  /\ feq (rs_vs_benchmark flat_trend_stock) (Fin (-30000))
  /\ feq (primary soaring_range_stock) (Fin 100)
  /\ feq (rank_score flat_trend_stock) (Fin (1500000 - (3 # 10) - (1 # 100) - (1 # 2)))
  /\ feq (rank_score soaring_range_stock) (Fin (1100000 - (3 # 10) - (1 # 100) - (1 # 2))).
Proof. do 7 (split; [vm_compute; reflexivity|]). vm_compute. reflexivity. Qed.

(** The term is the constant 0. *)
Ltac zero_term := exists 0; split; [reflexivity|split; lra].

Lemma within_fadd (a b c d : Q) (x y : fnum) :
  within a b x -> within c d y -> within (a + c) (b + d) (fadd x y).
Proof.
  intros (p & -> & Hp1 & Hp2) (q & -> & Hq1 & Hq2).
  exists (p + q). split; [reflexivity|]. split; lra.
Qed.

Lemma within_weaken (a b a' b' : Q) (x : fnum) :
  within a b x -> a' <= a -> b <= b' -> within a' b' x.
Proof.
  intros (p & -> & H1 & H2) Ha Hb. exists p. split; [reflexivity|]. split; lra.
Qed.

Lemma Qdiv_const (x : Q) (n : positive) : x / (Zpos n # 1) == x * (1 # n).
Proof. unfold Qdiv. reflexivity. Qed.

Lemma fdiv_const (x : Q) (n : positive) :
  fdiv (Fin x) (Fin (Zpos n # 1)) = Fin (x / (Zpos n # 1)).
Proof. reflexivity. Qed.

Lemma fclip_within (v lo hi : Q) :
  lo <= hi -> within lo hi (fclip (Fin v) (Fin lo) (Fin hi)).
Proof.
  intros H. unfold fclip, fgt. simpl.
  destruct (Qltb v lo) eqn:E1.
  - exists lo. split; [reflexivity|]. split; lra.
  - destruct (Qltb hi v) eqn:E2.
    + exists hi. split; [reflexivity|]. split; lra.
    + apply Qltb_ge in E1, E2. exists v. split; [reflexivity|]. split; lra.
Qed.

Lemma term_adx (x : fnum) :
  adx_in_range x = true ->
  within (-1) 0 (if isfinite x then fdiv (fneg x) (Fin 100) else Fin 0).
Proof.
  unfold adx_in_range. destruct x as [q| | |]; simpl;
    try (intros _; zero_term).
  intros H. apply andb_true_iff in H as [H1 H2].
  apply Qle_bool_iff in H1, H2.
  exists (- q / 100). split; [reflexivity|].
  rewrite (Qdiv_const (- q) 100). split; lra.
Qed.

Lemma term_vol (x : fnum) :
  within (- (5 # 100)) 0
    (if isfinite x then fdiv (fneg (fclip x (Fin 0) (Fin 5))) (Fin 100) else Fin 0).
Proof.
  destruct x as [q| | |]; simpl isfinite; cbv iota;
    try zero_term.
  destruct (fclip_within q 0 5) as (v & -> & H1 & H2); [lra|].
  simpl fneg. rewrite fdiv_const.
  exists (- v / 100). split; [reflexivity|].
  rewrite (Qdiv_const (- v) 100). split; lra.
Qed.

Lemma term_ext (x : fnum) :
  within (- (5 # 1000)) (5 # 1000)
    (if isfinite x then fdiv (fclip x (Fin (-5)) (Fin 5)) (Fin 1000) else Fin 0).
Proof.
  destruct x as [q| | |]; simpl isfinite; cbv iota;
    try zero_term.
  destruct (fclip_within q (-5) 5) as (v & -> & H1 & H2); [lra|].
  rewrite fdiv_const.
  exists (v / 1000). split; [reflexivity|].
  rewrite (Qdiv_const v 1000). split; lra.
Qed.

Lemma term_pick (b : bool) (v lo hi : Q) :
  lo <= v -> v <= hi -> lo <= 0 -> 0 <= hi ->
  within lo hi (if b then Fin v else Fin 0).
Proof.
  intros. destruct b; eexists; (split; [reflexivity|split; lra]).
Qed.

Lemma term_rs_boost (x : fnum) :
  within (-50) 0
    (if isfinite x && fgt x (Fin 0)
     then fneg (fclip (fmul x (Fin 200)) (Fin 0) (Fin 50)) else Fin 0).
Proof.
  destruct x as [q| | |]; simpl isfinite; simpl andb; cbv iota;
    try zero_term.
  unfold fgt, flt.
  destruct (Qltb 0 q); [|zero_term].
  simpl fmul.
  destruct (fclip_within (q * 200) 0 50) as (v & -> & H1 & H2); [lra|].
  exists (- v). split; [reflexivity|]. split; lra.
Qed.

Lemma term_rs_penalty (x : fnum) (B : Q) :
  0 <= B -> at_least (- B) x ->
  within 0 (50 * B)
    (if isfinite x && flt x (Fin 0) then fmul (fneg x) (Fin 50) else Fin 0).
Proof.
  intros HB Hx.
  destruct x as [q| | |]; simpl isfinite; simpl andb; cbv iota;
    try zero_term.
  specialize (Hx q eq_refl). unfold flt.
  destruct (Qltb q 0) eqn:E; [|zero_term].
  apply Qltb_lt in E. simpl.
  exists (- q * 50). split; [reflexivity|]. split; lra.
Qed.

Lemma tie_within (r : rank_row) (B : Q) :
  0 <= B ->
  adx_in_range (r_adx_14 r) = true ->
  at_least (- B) (rs_vs_benchmark r) ->
  within (- (51555 # 1000)) ((305 # 1000) + 50 * B) (tie r).
Proof.
  intros HB Hadx Hrs. unfold tie.
  unfold TREND_EFFICIENCY_ENABLED, RS_RANKING_ENABLED.
  eapply within_weaken.
  - repeat apply within_fadd.
    + exists 0. split; [reflexivity|]. split; apply Qle_refl.
    + apply term_adx, Hadx.
    + apply term_vol.
    + apply term_ext.
    + apply (term_pick _ (- (1 # 2)) (- (1 # 2)) 0); lra.
    + apply (term_pick _ (3 # 10) 0 (3 # 10)); lra.
    + apply term_rs_boost.
    + apply term_rs_penalty; [exact HB|exact Hrs].
  - lra.
  - lra.
Qed.


(** *** Metrics of a series of positive prices *)

Lemma is_positive_Fin (x : fnum) :
  is_positive x = true -> exists q, x = Fin q /\ 0 < q.
Proof.
  unfold is_positive, fgt. destruct x as [q| | |]; simpl; try discriminate.
  intros H. apply Qltb_lt in H. eauto.
Qed.

Lemma positive_prices_In (l : list fnum) (x : fnum) :
  positive_prices l = true -> In x l -> exists q, x = Fin q /\ 0 < q.
Proof.
  unfold positive_prices. rewrite forallb_forall. intros H Hx.
  apply is_positive_Fin, H, Hx.
Qed.

Lemma positive_has_no_nan (l : list fnum) :
  positive_prices l = true -> has_nan l = false.
Proof.
  intros H. unfold has_nan.
  destruct (existsb Risk.isnan l) eqn:E; [|reflexivity].
  apply existsb_exists in E as (x & Hx & Hn).
  destruct (positive_prices_In l x H Hx) as (q & -> & _). discriminate.
Qed.

Lemma last_n_incl (n : nat) (l : list fnum) (x : fnum) :
  In x (last_n n l) -> In x l.
Proof.
  unfold last_n. intros H.
  rewrite <- (firstn_skipn (length l - n) l). apply in_or_app. right. exact H.
Qed.

Lemma last_in_skipn (l : list fnum) (k : nat) (d : fnum) :
  (k < length l)%nat -> In (List.last l d) (skipn k l).
Proof.
  revert k. induction l as [|x l IH]; intros k Hk; simpl in Hk; [lia|].
  destruct k as [|k].
  - simpl skipn. clear IH Hk. revert x. induction l as [|y l IH]; intros x.
    + left. reflexivity.
    + right. apply IH.
  - simpl skipn. destruct l as [|y l]; [simpl in Hk; lia|].
    change (List.last (x :: y :: l) d) with (List.last (y :: l) d).
    apply IH. simpl in *. lia.
Qed.

Lemma last_in_last_n (n : nat) (l : list fnum) (d : fnum) :
  (1 <= n)%nat -> l <> [] -> In (List.last l d) (last_n n l).
Proof.
  intros Hn Hl. unfold last_n. apply last_in_skipn.
  destruct l; [congruence|]. simpl. lia.
Qed.

(** The running maximum of positive prices is one of them and bounds them
    all; likewise the running minimum. *)
Lemma fold_fmax_bound (w : list fnum) :
  forall x : Q,
    (forall y, In y w -> exists q, y = Fin q /\ 0 < q) ->
    exists h, fold_left fmax w (Fin x) = Fin h /\ x <= h
              /\ (forall q, In (Fin q) w -> q <= h).
Proof.
  induction w as [|y w IH]; intros x Hw; simpl.
  - exists x. split; [reflexivity|]. split; [apply Qle_refl|intros q []].
  - destruct (Hw y (or_introl eq_refl)) as (q & -> & Hq).
    unfold fmax at 2. simpl flt.
    destruct (Qltb x q) eqn:E.
    + apply Qltb_lt in E.
      destruct (IH q (fun z Hz => Hw z (or_intror Hz))) as (h & Hh & H1 & H2).
      exists h. split; [exact Hh|]. split; [lra|].
      intros p [[= <-]|Hp]; [exact H1|apply H2, Hp].
    + apply Qltb_ge in E.
      destruct (IH x (fun z Hz => Hw z (or_intror Hz))) as (h & Hh & H1 & H2).
      exists h. split; [exact Hh|]. split; [exact H1|].
      intros p [[= <-]|Hp]; [lra|apply H2, Hp].
Qed.

Lemma fold_fmin_bound (w : list fnum) :
  forall x : Q,
    0 < x ->
    (forall y, In y w -> exists q, y = Fin q /\ 0 < q) ->
    exists h, fold_left fmin w (Fin x) = Fin h /\ h <= x /\ 0 < h
              /\ (forall q, In (Fin q) w -> h <= q).
Proof.
  induction w as [|y w IH]; intros x Hx Hw; simpl.
  - exists x. split; [reflexivity|]. split; [apply Qle_refl|]. split; [exact Hx|intros q []].
  - destruct (Hw y (or_introl eq_refl)) as (q & -> & Hq).
    unfold fmin at 2. simpl flt.
    destruct (Qltb q x) eqn:E.
    + apply Qltb_lt in E.
      destruct (IH q Hq (fun z Hz => Hw z (or_intror Hz))) as (h & Hh & H1 & H0 & H2).
      exists h. split; [exact Hh|]. split; [lra|]. split; [exact H0|].
      intros p [[= <-]|Hp]; [exact H1|apply H2, Hp].
    + apply Qltb_ge in E.
      destruct (IH x Hx (fun z Hz => Hw z (or_intror Hz))) as (h & Hh & H1 & H0 & H2).
      exists h. split; [exact Hh|]. split; [exact H1|]. split; [exact H0|].
      intros p [[= <-]|Hp]; [lra|apply H2, Hp].
Qed.

(** The rolling high is undefined or at least the close. *)
Lemma rolling_max_close (n : nat) (price : list fnum) (c : Q) :
  (1 <= n)%nat ->
  positive_prices price = true ->
  List.last price NaN = Fin c ->
  rolling_max_last n price = NaN
  \/ exists h, rolling_max_last n price = Fin h /\ c <= h.
Proof.
  intros Hn Hp Hc. unfold rolling_max_last.
  assert (Hne : price <> []) by (intros ->; discriminate).
  pose proof (last_in_last_n n price NaN Hn Hne) as Hin. rewrite Hc in Hin.
  destruct (last_n n price) as [|x w] eqn:E; [left; reflexivity|].
  destruct ((length price <? n)%nat || has_nan (x :: w)); [left; reflexivity|].
  right.
  assert (Hw : forall y, In y (x :: w) -> exists q, y = Fin q /\ 0 < q).
  { intros y Hy. apply (positive_prices_In price y Hp).
    apply (last_n_incl n). rewrite E. exact Hy. }
  destruct (Hw x (or_introl eq_refl)) as (x0 & -> & Hx0).
  destruct (fold_fmax_bound w x0 (fun y Hy => Hw y (or_intror Hy)))
    as (h & Hh & H1 & H2).
  exists h. split; [exact Hh|].
  destruct Hin as [[= <-]|Hin]; [exact H1|apply H2, Hin].
Qed.

(** The rolling low is undefined or positive and at most the close. *)
Lemma rolling_min_close (n : nat) (price : list fnum) (c : Q) :
  (1 <= n)%nat ->
  positive_prices price = true ->
  List.last price NaN = Fin c ->
  rolling_min_last n price = NaN
  \/ exists l, rolling_min_last n price = Fin l /\ l <= c.
Proof.
  intros Hn Hp Hc. unfold rolling_min_last.
  assert (Hne : price <> []) by (intros ->; discriminate).
  pose proof (last_in_last_n n price NaN Hn Hne) as Hin. rewrite Hc in Hin.
  destruct (last_n n price) as [|x w] eqn:E; [left; reflexivity|].
  destruct ((length price <? n)%nat || has_nan (x :: w)); [left; reflexivity|].
  right.
  assert (Hw : forall y, In y (x :: w) -> exists q, y = Fin q /\ 0 < q).
  { intros y Hy. apply (positive_prices_In price y Hp).
    apply (last_n_incl n). rewrite E. exact Hy. }
  destruct (Hw x (or_introl eq_refl)) as (x0 & -> & Hx0).
  destruct (fold_fmin_bound w x0 Hx0 (fun y Hy => Hw y (or_intror Hy)))
    as (h & Hh & H1 & _ & H2).
  exists h. split; [exact Hh|].
  destruct Hin as [[= <-]|Hin]; [exact H1|apply H2, Hin].
Qed.

Lemma last_positive (price : list fnum) :
  positive_prices price = true ->
  price = [] \/ exists c, List.last price NaN = Fin c /\ 0 < c.
Proof.
  intros Hp. destruct price as [|x l]; [left; reflexivity|right].
  apply (positive_prices_In (x :: l) _ Hp).
  pose proof (last_in_skipn (x :: l) 0 NaN) as H. simpl skipn in H.
  apply H. simpl. lia.
Qed.

Lemma ratio_unit (x h : Q) :
  0 < h -> 0 <= x -> x <= h -> 0 <= x / h /\ x / h <= 1.
Proof.
  intros Hh Hx Hxh. split.
  - apply Qle_shift_div_l; [exact Hh|lra].
  - apply Qle_shift_div_r; [exact Hh|lra].
Qed.

Lemma fdiv_pos (x h : Q) : 0 < h -> fdiv (Fin x) (Fin h) = Fin (x / h).
Proof.
  intros Hh. unfold fdiv, Qsign.
  apply Qgt_alt in Hh. rewrite Hh. reflexivity.
Qed.

Lemma nonzero_pos (h : Q) : 0 < h -> nonzero (Fin h) = true.
Proof.
  intros Hh. simpl. destruct (Qeq_bool h 0) eqn:E; [|reflexivity].
  apply Qeq_bool_iff in E. lra.
Qed.

(** The distance to a high that is at least the positive close is a
    percentage between 0 and 100. *)
Lemma distance_within (h c : Q) :
  0 < c -> c <= h ->
  within 0 100
    (if nonzero (Fin h)
     then fmul (fdiv (fsub (Fin h) (Fin c)) (Fin h)) (Fin 100) else NaN).
Proof.
  intros Hc Hh. rewrite nonzero_pos by lra. simpl fsub.
  rewrite fdiv_pos by lra. simpl fmul.
  destruct (ratio_unit (h + - c) h) as [H1 H2]; try lra.
  eexists. split; [reflexivity|].
  set (y := (h + - c) / h) in *. split; lra.
Qed.


Lemma dist_20_within (price : list fnum) :
  positive_prices price = true ->
  isfinite (m_dist_20 (compute_metrics price)) = true ->
  within 0 100 (m_dist_20 (compute_metrics price)).
Proof.
  intros Hp. unfold compute_metrics. simpl m_dist_20.
  destruct (last_positive price Hp) as [->|(c & Hc & Hc0)]; [discriminate|].
  rewrite Hc.
  destruct (rolling_max_close LOOKBACK_HIGH_20 price c) as [->|(h & -> & Hh)];
    try assumption; [unfold LOOKBACK_HIGH_20; lia|discriminate|].
  intros _. apply distance_within; assumption.
Qed.

Lemma dist_55_within (price : list fnum) :
  positive_prices price = true ->
  isfinite (m_dist_55 (compute_metrics price)) = true ->
  within 0 100 (m_dist_55 (compute_metrics price)).
Proof.
  intros Hp. unfold compute_metrics. simpl m_dist_55.
  destruct (last_positive price Hp) as [->|(c & Hc & Hc0)]; [discriminate|].
  rewrite Hc.
  destruct (rolling_max_close LOOKBACK_HIGH_55 price c) as [->|(h & -> & Hh)];
    try assumption; [unfold LOOKBACK_HIGH_55; lia|discriminate|].
  intros _. apply distance_within; assumption.
Qed.

Lemma range_position_within (price : list fnum) :
  positive_prices price = true ->
  isfinite (fmul (m_range_position_20 (compute_metrics price)) (Fin 100)) = true ->
  within 0 100 (fmul (m_range_position_20 (compute_metrics price)) (Fin 100)).
Proof.
  intros Hp. unfold compute_metrics. simpl m_range_position_20.
  destruct (last_positive price Hp) as [->|(c & Hc & Hc0)]; [discriminate|].
  rewrite Hc.
  destruct (rolling_max_close LOOKBACK_HIGH_20 price c) as [->|(h & -> & Hh)];
    try assumption; [unfold LOOKBACK_HIGH_20; lia| |];
    (destruct (rolling_min_close LOOKBACK_LOW_20 price c) as [->|(l & -> & Hl)];
     try assumption; [unfold LOOKBACK_LOW_20; lia| |]);
    try (simpl; discriminate).
  simpl fsub. simpl nonzero.
  destruct (Qeq_bool (h + - l) 0) eqn:E; simpl negb; cbv iota; [discriminate|].
  apply Qeq_bool_neq in E.
  assert (Hpos : 0 < h + - l).
  { destruct (Qlt_le_dec 0 (h + - l)) as [H|H]; [exact H|].
    exfalso. apply E. lra. }
  rewrite fdiv_pos by exact Hpos. simpl fmul. intros _.
  destruct (ratio_unit (c + - l) (h + - l)) as [H1 H2]; try lra.
  eexists. split; [reflexivity|].
  set (y := (c + - l) / (h + - l)) in *. split; lra.
Qed.

(** The primary metric of a rankable candidate with positive prices. *)
Lemma primary_within (price : list fnum) (bench : fnum) (held : bool)
    (st : status) (sl : sleeve) (rg : trade_regime) (adx volr ext eff : fnum) :
  positive_prices price = true ->
  let r := rank_row_of price bench held st sl rg adx volr ext eff in
  isfinite (primary r) = true -> within 0 100 (primary r).
Proof.
  intros Hp r. unfold primary, r, rank_row_of.
  unfold is_core_rg, is_hi_rg, is_core_tr, is_hi_tr, is_etf.
  cbn [r_sleeve r_regime range_position_20 distance_to_20d_high_pct
       distance_to_55d_high_pct].
  destruct (sleeve_eqb sl STOCK_CORE && trade_regime_eqb rg RANGE
            || sleeve_eqb sl STOCK_HIGH_RISK && trade_regime_eqb rg RANGE).
  { apply range_position_within, Hp. }
  destruct (sleeve_eqb sl STOCK_CORE && trade_regime_eqb rg TREND
            || sleeve_eqb sl STOCK_HIGH_RISK && trade_regime_eqb rg TREND).
  { apply dist_20_within, Hp. }
  destruct (sleeve_eqb sl ETF_CORE).
  { apply dist_55_within, Hp. }
  discriminate.
Qed.

(** With positive prices a three-month return is above -1, so the
    relative strength cannot fall below -(1 + K) when the benchmark's
    return is at most K. *)
Lemma return_3m_at_least (price : list fnum) :
  positive_prices price = true ->
  at_least (-1) (m_return_3m (compute_metrics price)).
Proof.
  intros Hp q. unfold compute_metrics. cbn [m_return_3m].
  destruct (RS_RANKING_ENABLED && (RS_LOOKBACK_DAYS <=? length price)%nat);
    [|discriminate].
  destruct (last_positive price Hp) as [->|(c & Hc & Hc0)]; [discriminate|].
  rewrite Hc.
  destruct (nth (RS_LOOKBACK_DAYS - 1) (rev price) NaN) as [p0| | |] eqn:E;
    cbn [isfinite andb]; try discriminate.
  unfold fgt, flt. destruct (Qltb 0 p0) eqn:E0; [|discriminate].
  apply Qltb_lt in E0. cbn [fsub fadd fneg]. rewrite fdiv_pos by exact E0.
  intros [= <-]. apply Qle_shift_div_l; [exact E0|lra].
Qed.

Lemma relative_strength_at_least (price : list fnum) (bench : fnum) (K : Q) :
  positive_prices price = true ->
  return_at_most K bench = true ->
  at_least (- (1 + K))
    (compute_relative_strength (m_return_3m (compute_metrics price)) bench).
Proof.
  intros Hp Hb q. unfold compute_relative_strength.
  destruct (negb RS_RANKING_ENABLED); [discriminate|].
  pose proof (return_3m_at_least price Hp) as Hr.
  destruct (m_return_3m (compute_metrics price)) as [x| | |]; simpl; try discriminate.
  specialize (Hr x eq_refl).
  unfold return_at_most in Hb.
  destruct bench as [b| | |]; simpl in *; try discriminate.
  apply Qle_bool_iff in Hb. intros [= <-]. lra.
Qed.

Lemma bucket_values (r : rank_row) :
  isfinite (rank_bucket r) = true ->
  exists k : Z, rank_bucket r = Fin (inject_Z k) /\ (0 <= k <= 4)%Z.
Proof.
  unfold rank_bucket.
  destruct (is_hi_rg r); [exists 4%Z; split; [reflexivity|lia]|].
  destruct (is_hi_tr r); [exists 3%Z; split; [reflexivity|lia]|].
  destruct (is_etf r); [exists 2%Z; split; [reflexivity|lia]|].
  destruct (is_core_rg r); [exists 1%Z; split; [reflexivity|lia]|].
  destruct (is_core_tr r); [exists 0%Z; split; [reflexivity|lia]|].
  discriminate.
Qed.

(** The arithmetic of the dominance: a bucket gap of one outweighs 100
    points of primary metric and a tie-break difference below 900000. *)
Lemma score_gap (ka kb : Z) (pa pb ta tb : Q) :
  (ka < kb)%Z ->
  0 <= pa -> pa <= 100 -> 0 <= pb -> pb <= 100 ->
  ta - tb < 900000 ->
  inject_Z ka * 1000000 + pa * 1000 + ta < inject_Z kb * 1000000 + pb * 1000 + tb.
Proof.
  intros Hk Ha1 Ha2 Hb1 Hb2 Ht.
  assert (Hq : inject_Z ka + 1 <= inject_Z kb).
  { change 1 with (inject_Z 1). rewrite <- inject_Z_plus.
    rewrite <- Zle_Qle. lia. }
  lra.
Qed.





End RankProofs.

(** * Further properties of the code *)

Module RegimeLaws.
Import Regime RegimeProofs.

(** X1: with two benchmarks configured, the order in which they are given
    does not change the combined market regime. *)
Theorem benchmark_order_irrelevant (max_data_age_days : Z) (band_pct : fnum)
    (bm1 bm2 : option benchmark) :
  compute_market_regime max_data_age_days band_pct bm1 (Some bm2)
  = compute_market_regime max_data_age_days band_pct bm2 (Some bm1).
Proof.
  unfold compute_market_regime, combine_regimes.
  destruct (regime (one_regime max_data_age_days band_pct bm1)),
           (regime (one_regime max_data_age_days band_pct bm2)); reflexivity.
Qed.

Lemma one_regime_unusable (max_data_age_days : Z) (band_pct : fnum) (b : benchmark) :
  (length (base b) < 210)%nat \/ (max_data_age_days < age_days b)%Z ->
  regime (one_regime max_data_age_days band_pct (Some b)) = UNKNOWN.
Proof.
  intros H. unfold one_regime.
  destruct (length (base b) <? 210)%nat eqn:E1; [reflexivity|].
  destruct (max_data_age_days <? age_days b)%Z eqn:E2; [reflexivity|].
  apply Nat.ltb_ge in E1. apply Z.ltb_ge in E2. lia.
Qed.

Lemma combine_unknown_l (r : market_regime) : combine_regimes UNKNOWN r = UNKNOWN.
Proof. reflexivity. Qed.

Lemma combine_unknown_r (r : market_regime) : combine_regimes r UNKNOWN = UNKNOWN.
Proof. destruct r; reflexivity. Qed.

(** X2: a benchmark with fewer than 210 bars, or whose last bar is older
    than the allowed age, makes the market regime UNKNOWN, alone or
    combined with any second benchmark and in either position; so does a
    benchmark that is missing from the download. *)
Theorem unusable_benchmark_gives_unknown (max_data_age_days : Z) (band_pct : fnum)
    (b : benchmark) :
  (length (base b) < 210)%nat \/ (max_data_age_days < age_days b)%Z ->
  (forall other,
      compute_market_regime max_data_age_days band_pct (Some b) other = UNKNOWN)
  /\ (forall bm1,
        compute_market_regime max_data_age_days band_pct bm1 (Some (Some b)) = UNKNOWN)
  /\ (forall other,
        compute_market_regime max_data_age_days band_pct None other = UNKNOWN)
  /\ (forall bm1,
        compute_market_regime max_data_age_days band_pct bm1 (Some None) = UNKNOWN).
Proof.
  intros H. pose proof (one_regime_unusable max_data_age_days band_pct b H) as Hb.
  unfold compute_market_regime. repeat split.
  - intros [o|]; rewrite Hb; reflexivity.
  - intros bm1. rewrite Hb. apply combine_unknown_r.
  - intros [o|]; reflexivity.
  - intros bm1. apply combine_unknown_r.
Qed.

Lemma unusable_benchmark_gives_unknown_witness :
  compute_market_regime 5 (Fin (2 # 100))
    (Some (mkBenchmark (repeat (Fin 100) 100) 1)) (Some (Some flat_benchmark))
  = UNKNOWN.
Proof.
  apply (unusable_benchmark_gives_unknown 5 (Fin (2 # 100))
           (mkBenchmark (repeat (Fin 100) 100) 1)).
  left. simpl. lia.
Defined.

Lemma count_chop_days_le (band_pct : fnum) (l : list fnum) (idxs : list nat) :
  (count_chop_days band_pct l idxs <= length idxs)%nat.
Proof.
  induction idxs as [|i rest IH]; simpl; [lia|].
  destruct (bar_in_band band_pct l i); lia.
Qed.

(** X3: whatever the data, a benchmark is reported SIDEWAYS only as a
    stable regime with at least three counted days inside the band;
    UNKNOWN is never marked stable and counts no day; every other regime
    comes with a finite close, a finite positive 200-day average and data
    no older than allowed; and the day count never exceeds four. *)
Theorem regime_report_consistent (max_data_age_days : Z) (band_pct : fnum)
    (bm : option benchmark) :
  let info := one_regime max_data_age_days band_pct bm in
  (regime info = SIDEWAYS ->
     regime_stable info = true /\ (3 <= days_in_chop_band info)%nat)
  /\ (regime info = UNKNOWN ->
        regime_stable info = false /\ days_in_chop_band info = 0%nat)
  /\ (regime info <> UNKNOWN ->
        isfinite (r_close info) = true /\ isfinite (r_ma200 info) = true
        /\ fgt (r_ma200 info) (Fin 0) = true
        /\ (r_age_days info <= max_data_age_days)%Z)
  /\ (days_in_chop_band info <= 4)%nat.
Proof.
  cbv zeta. unfold one_regime.
  assert (Hunk : forall c m a,
            let info := unknown_info c m a in
            (regime info = SIDEWAYS ->
               regime_stable info = true /\ (3 <= days_in_chop_band info)%nat)
            /\ (regime info = UNKNOWN ->
                  regime_stable info = false /\ days_in_chop_band info = 0%nat)
            /\ (regime info <> UNKNOWN ->
                  isfinite (r_close info) = true /\ isfinite (r_ma200 info) = true
                  /\ fgt (r_ma200 info) (Fin 0) = true
                  /\ (r_age_days info <= max_data_age_days)%Z)
            /\ (days_in_chop_band info <= 4)%nat).
  { intros c m a. simpl. repeat split; try congruence; lia. }
  destruct bm as [b|]; [|apply Hunk].
  destruct (length (base b) <? 210)%nat eqn:E1; [apply Hunk|].
  destruct (max_data_age_days <? age_days b)%Z eqn:E2; [apply Hunk|].
  apply Z.ltb_ge in E2.
  destruct (iloc_neg (base b) 1) as [c|]; [|apply Hunk].
  destruct (rolling_mean_neg MA_200_PERIOD (base b) 1) as [m|]; [|apply Hunk].
  destruct (isfinite c) eqn:Ec; [|apply Hunk].
  destruct (isfinite m) eqn:Em; [|apply Hunk].
  destruct (fgt m (Fin 0)) eqn:Eg; [|apply Hunk].
  cbn [andb negb]. cbv iota.
  set (idxs := seq 1 (Nat.min (REGIME_STABILITY_DAYS + 2) (length (base b)) - 1)).
  assert (Hlen : (length idxs <= 4)%nat).
  { unfold idxs. rewrite length_seq. unfold REGIME_STABILITY_DAYS. lia. }
  pose proof (count_chop_days_le band_pct (base b) idxs) as Hcnt.
  unfold REGIME_STABILITY_ENABLED. cbv iota.
  set (days := count_chop_days band_pct (base b) idxs) in *.
  destruct (fge c (band_upper band_pct m)).
  { cbn [market_regime_eqb andb regime regime_stable days_in_chop_band r_close
           r_ma200 r_age_days].
    repeat split; try congruence; lia. }
  destruct (fle c (band_lower band_pct m)).
  { cbn [market_regime_eqb andb regime regime_stable days_in_chop_band r_close
           r_ma200 r_age_days].
    repeat split; try congruence; lia. }
  cbn [market_regime_eqb andb]. cbv iota.
  destruct (days <? REGIME_STABILITY_DAYS)%nat eqn:Ed.
  - destruct (fgt c m);
      cbn [regime regime_stable days_in_chop_band r_close r_ma200 r_age_days];
      repeat split; try congruence; lia.
  - apply Nat.ltb_ge in Ed. unfold REGIME_STABILITY_DAYS in Ed.
    cbn [regime regime_stable days_in_chop_band r_close r_ma200 r_age_days].
    repeat split; try congruence; lia.
Qed.

End RegimeLaws.

Module StopLaws.
Import Regime Stops StopsProofs.

Lemma pymax_Fin_ge (a b : Q) :
  exists y, pymax (Fin a) (Fin b) = Fin y /\ a <= y /\ b <= y.
Proof.
  unfold pymax, fgt. simpl. destruct (Qltb a b) eqn:E.
  - apply Qltb_lt in E. exists b. split; [reflexivity|split; lra].
  - apply Qltb_ge in E. exists a. split; [reflexivity|split; lra].
Qed.

(** Raising any candidate to a finite level gives a finite stop at or above
    that level, and at or above a finite candidate. *)
Lemma raise_to_ge (c : fnum) (x : Q) :
  exists y, raise_to c (Fin x) = Fin y /\ x <= y
            /\ forall q, c = Fin q -> q <= y.
Proof.
  unfold raise_to. destruct c as [q| | |]; simpl;
    try (exists x; split; [reflexivity|split; [lra|discriminate]]).
  destruct (pymax_Fin_ge q x) as (y & Hy & H1 & H2).
  exists y. split; [exact Hy|split; [exact H2|]]. intros q' [= <-]. exact H1.
Qed.

Lemma stateful_ge (prev : fnum) (c : Q) :
  exists a, stateful_active_stop prev (Fin c) = Fin a /\ c <= a.
Proof.
  unfold stateful_active_stop. destruct prev as [p| | |]; simpl;
    try (exists c; split; [reflexivity|lra]).
  destruct (pymax_Fin_ge p c) as (y & Hy & _ & H2). exists y. auto.
Qed.

Lemma pymax_list_ge (x : Q) (rest : list fnum) :
  Forall (fun v => isfinite v = true) rest ->
  exists y, pymax_list (Fin x) rest = Fin y /\ x <= y.
Proof.
  unfold pymax_list. revert x.
  induction rest as [|v rest IH]; intros x Hf; simpl.
  - exists x. split; [reflexivity|lra].
  - inversion Hf as [|? ? Hv Hrest]; subst.
    apply isfinite_Fin in Hv as [q ->].
    destruct (pymax_Fin_ge x q) as (y & Hy & H1 & _). rewrite Hy.
    destruct (IH y Hrest) as (z & Hz & Hyz). exists z. split; [exact Hz|lra].
Qed.

Lemma sideways_tightening_ge (row : stop_row) (mr : market_regime) (s cl : Q) :
  close row = Fin cl ->
  exists c, fst (sideways_tightening row mr (Fin s)) = Fin c /\ s <= c.
Proof.
  intros Hc. unfold sideways_tightening.
  destruct (market_regime_eqb mr SIDEWAYS && negb (sleeve_eqb (row_sleeve row) ETF_CORE));
    [|exists s; split; [reflexivity|lra]].
  destruct (isfinite (atr_14 row) && fgt (atr_14 row) (Fin 0)) eqn:E;
    [|exists s; split; [reflexivity|lra]].
  apply andb_true_iff in E as [Ea _]. apply isfinite_Fin in Ea as [a Ea].
  cbn [fst]. rewrite Ea, Hc.
  destruct (raise_to_ge (Fin s) (cl + - (CHOP_ATR_TIGHTENING_MULT * a)))
    as (y & Hy & _ & H).
  exists y. split; [exact Hy|]. apply H. reflexivity.
Qed.

(** The profit tiers leave a finite candidate finite and never lower it. *)
Lemma profit_protection_ge (cfg : config) (row : stop_row) (e i : fnum)
    (r : stop_reason) (c cl : Q) :
  close row = Fin cl ->
  exists c', t_candidate (profit_protection cfg row e i (Fin c) r) = Fin c' /\ c <= c'.
Proof.
  intros Hc.
  assert (Hsame : exists c', Fin c = Fin c' /\ c <= c').
  { exists c. split; [reflexivity|lra]. }
  unfold profit_protection. unfold PROFIT_PROTECTION_ENABLED. cbn [andb].
  destruct (isfinite e) eqn:Ee; [|exact Hsame].
  destruct (isfinite i) eqn:Ei; [|exact Hsame].
  apply isfinite_Fin in Ee as [eq ->]. apply isfinite_Fin in Ei as [iq ->].
  cbv zeta.
  destruct (fgt (fsub (Fin eq) (Fin iq)) (Fin 0)); [|exact Hsame].
  destruct (fge _ (Fin PROFIT_PROTECTION_LOCK_1R_THRESHOLD)).
  { cbn [t_candidate].
    match goal with
    | |- context [pymax_list ?x ?l] =>
        destruct (pymax_list_ge (eq + (eq + - iq)) l) as (y & Hy & _)
    end.
    { rewrite Hc. apply Forall_app. split.
      - destruct (isfinite (low_20 row)) eqn:El; repeat constructor. exact El.
      - destruct (isfinite (atr_14 row)) eqn:Ea; [|constructor].
        apply isfinite_Fin in Ea as [a ->].
        destruct (fgt (Fin a) (Fin 0)); repeat constructor. }
    change (fadd (Fin eq) (fsub (Fin eq) (Fin iq))) with (Fin (eq + (eq + - iq))).
    rewrite Hy.
    destruct (raise_to_ge (Fin c) y) as (z & Hz & _ & H).
    exists z. split; [exact Hz|]. apply H. reflexivity. }
  destruct (fge _ (Fin PROFIT_PROTECTION_LOCK_HALF_R_THRESHOLD)).
  { cbn [t_candidate].
    change (fadd (Fin eq) (fmul (Fin (1 # 2)) (fsub (Fin eq) (Fin iq))))
      with (Fin (eq + (1 # 2) * (eq + - iq))).
    match goal with
    | |- context [raise_to (Fin c) (Fin ?x)] =>
        destruct (raise_to_ge (Fin c) x) as (z & Hz & _ & H)
    end.
    exists z. split; [exact Hz|]. apply H. reflexivity. }
  destruct (fge _ (BE_TRIGGER_R cfg)); [|exact Hsame].
  destruct (be_gate cfg row); [exact Hsame|].
  cbn [t_candidate].
  destruct (raise_to_ge (Fin c) eq) as (z & Hz & _ & H).
  exists z. split; [exact Hz|]. apply H. reflexivity.
Qed.

(** The output of a held instrument with a finite close, in terms of the
    tightened candidate and the tiers. *)
Lemma held_stop_steps (cfg : config) (today : string) (row : stop_row)
    (pos_state : gmap string position_state) (mr : market_regime) :
  is_held row = true ->
  isfinite (close row) = true ->
  let out := compute_stateful_stop cfg today row pos_state mr in
  let state := pos_state !! upper (ticker row) in
  let tier :=
    profit_protection cfg row (from_option entry_price NaN state)
      (from_option initial_stop NaN state)
      (fst (sideways_tightening row mr (stop_level row)))
      (snd (sideways_tightening row mr (stop_level row))) in
  o_candidate_stop out = t_candidate tier
  /\ o_active_stop out =
       stateful_active_stop (from_option active_stop NaN state) (t_candidate tier)
  /\ o_profit_protection_level out = t_level tier
  /\ o_profit_R out = t_profit_R tier.
Proof.
  intros Hheld Hclose. cbv zeta. unfold compute_stateful_stop.
  rewrite Hheld, Hclose. simpl negb. cbv iota.
  destruct (sideways_tightening row mr (stop_level row)) as [c0 r0].
  simpl. repeat split.
Qed.

(** X4: for a held instrument with a finite close and a finite technical
    stop, neither the sideways tightening nor a profit-protection tier nor
    the stored state ever gives a stop below the technical stop: the
    candidate stop is finite and at least stop_level, and the active stop
    is finite and at least the candidate. *)
Theorem protection_only_tightens (cfg : config) (today : string) (row : stop_row)
    (pos_state : gmap string position_state) (mr : market_regime) (s : Q) :
  is_held row = true ->
  isfinite (close row) = true ->
  stop_level row = Fin s ->
  let out := compute_stateful_stop cfg today row pos_state mr in
  exists c a, o_candidate_stop out = Fin c /\ o_active_stop out = Fin a
              /\ s <= c /\ c <= a.
Proof.
  intros Hheld Hclose Hs out.
  destruct (held_stop_steps cfg today row pos_state mr Hheld Hclose)
    as (Hc & Ha & _).
  fold out in Hc, Ha.
  destruct (isfinite_Fin _ Hclose) as [cl Hcl].
  destruct (sideways_tightening_ge row mr s cl Hcl) as (c0 & Hc0 & Hs0).
  rewrite Hs in Hc, Ha. rewrite Hc0 in Hc, Ha.
  match type of Hc with
  | _ = t_candidate (profit_protection _ _ ?e ?i _ ?r) =>
      destruct (profit_protection_ge cfg row e i r c0 cl Hcl) as (c1 & Hc1 & Hle)
  end.
  rewrite Hc1 in Hc, Ha.
  destruct (stateful_ge (from_option active_stop NaN (pos_state !! upper (ticker row))) c1)
    as (a & Ha' & Hca).
  exists c1, a. rewrite Hc, Ha, Ha'. repeat split; [lra|exact Hca].
Qed.

Lemma protection_only_tightens_witness :
  exists c a,
    o_candidate_stop (compute_stateful_stop default_config "2026-11-03"
                        scenario_row scenario_table BULLISH) = Fin c
    /\ o_active_stop (compute_stateful_stop default_config "2026-11-03"
                        scenario_row scenario_table BULLISH) = Fin a
    /\ 98 <= c /\ c <= a.
Proof.
  exact (protection_only_tightens default_config "2026-11-03" scenario_row
           scenario_table BULLISH 98 eq_refl eq_refl eq_refl).
Defined.

(** What the tiers guarantee for a position with a positive initial risk. *)
Lemma tier_floor (cfg : config) (row : stop_row) (r : stop_reason) (cand : fnum)
    (e i cl : Q) :
  close row = Fin cl ->
  i < e ->
  let T := profit_protection cfg row (Fin e) (Fin i) cand r in
  (3 * (e - i) <= cl - e ->
     t_level T = PPL_3R_LOCK_1R_TRAILING
     /\ exists c, t_candidate T = Fin c /\ e + (e - i) <= c)
  /\ ((5 # 2) * (e - i) <= cl - e ->
        exists c, t_candidate T = Fin c /\ e + (1 # 2) * (e - i) <= c)
  /\ (forall t, BE_TRIGGER_R cfg = Fin t -> be_gate cfg row = None ->
        t * (e - i) <= cl - e ->
        exists c, t_candidate T = Fin c /\ e <= c).
Proof.
  intros Hc Hie. cbv zeta. unfold profit_protection.
  unfold PROFIT_PROTECTION_ENABLED. cbn [andb isfinite]. cbv iota zeta.
  rewrite Hc.
  change (fsub (Fin e) (Fin i)) with (Fin (e + - i)).
  change (fsub (Fin cl) (Fin e)) with (Fin (cl + - e)).
  assert (HR : 0 < e + - i) by lra.
  replace (fgt (Fin (e + - i)) (Fin 0)) with true
    by (symmetry; apply flt_Fin; exact HR).
  rewrite (RankProofs.fdiv_pos _ _ HR).
  set (pr := (cl + - e) / (e + - i)).
  assert (Hpr : forall k, k * (e - i) <= cl - e -> k <= pr).
  { intros k Hk. apply Qle_shift_div_l; [exact HR|]. lra. }
  unfold fge. cbn [fle].
  unfold PROFIT_PROTECTION_LOCK_1R_THRESHOLD, PROFIT_PROTECTION_LOCK_HALF_R_THRESHOLD.
  destruct (Qle_bool 3 pr) eqn:E3.
  { cbn [t_candidate t_level].
    match goal with
    | |- context [pymax_list ?x ?l] =>
        destruct (pymax_list_ge (e + (e + - i)) l) as (y & Hy & Hey)
    end.
    { apply Forall_app. split.
      - destruct (isfinite (low_20 row)) eqn:El; repeat constructor. exact El.
      - destruct (isfinite (atr_14 row)) eqn:Ea; [|constructor].
        apply isfinite_Fin in Ea as [a ->].
        destruct (fgt (Fin a) (Fin 0)); repeat constructor. }
    change (fadd (Fin e) (Fin (e + - i))) with (Fin (e + (e + - i))).
    rewrite Hy.
    destruct (raise_to_ge cand y) as (z & Hz & Hyz & _). rewrite Hz.
    split; [intros _; split; [reflexivity|exists z; split; [reflexivity|lra]]|].
    split; [intros _; exists z; split; [reflexivity|lra]|].
    intros t _ _ _. exists z. split; [reflexivity|lra]. }
  apply Qle_bool_false in E3.
  split; [intros H; apply Hpr in H; lra|].
  destruct (Qle_bool (5 # 2) pr) eqn:E2.
  { cbn [t_candidate].
    change (fadd (Fin e) (fmul (Fin (1 # 2)) (Fin (e + - i))))
      with (Fin (e + (1 # 2) * (e + - i))).
    destruct (raise_to_ge cand (e + (1 # 2) * (e + - i))) as (z & Hz & Hyz & _).
    rewrite Hz.
    split; [intros _; exists z; split; [reflexivity|lra]|].
    intros t _ _ _. exists z. split; [reflexivity|lra]. }
  apply Qle_bool_false in E2.
  split; [intros H; apply Hpr in H; lra|].
  intros t Ht Hg Htr. rewrite Ht, Hg. cbn [fle].
  apply Hpr in Htr. apply Qle_bool_iff in Htr. rewrite Htr.
  cbn [t_candidate].
  destruct (raise_to_ge cand e) as (z & Hz & Hyz & _).
  exists z. split; [exact Hz|lra].
Qed.



End StopLaws.

Module EntryLaws.
Import Regime Entry EntryProofs.

Section WithDates.

Variable strptime : string -> option Z.

(** X6: a symbol is whipsaw-blocked exactly when the table has a record
    for it with at least two whipsaws and a last whipsaw date that parses,
    today's date parses too, and fewer than 60 days lie between them. *)
Theorem whipsaw_block_iff (ticker : string)
    (pos_state : gmap string position_state) (today_date : string) :
  whipsaw_blocked (check_whipsaw_blocked strptime ticker pos_state today_date) = true
  <-> exists st whipsaw_dt today_dt,
        pos_state !! upper ticker = Some st
        /\ (2 <= get_whipsaw_count st)%Z
        /\ nonempty (get_last_whipsaw_date st) = true
        /\ strptime (get_last_whipsaw_date st) = Some whipsaw_dt
        /\ strptime (first10 today_date) = Some today_dt
        /\ (today_dt - whipsaw_dt < 60)%Z.
Proof.
  unfold check_whipsaw_blocked, WHIPSAW_KILL_SWITCH_ENABLED, WHIPSAW_TRIGGER_COUNT,
    WHIPSAW_PENALTY_DAYS.
  cbn [negb]. cbv iota.
  destruct (pos_state !! upper ticker) as [st|].
  2:{ split; [discriminate|]. intros (st & _ & _ & H & _). discriminate H. }
  destruct (get_whipsaw_count st <? 2)%Z eqn:Ec.
  { apply Z.ltb_lt in Ec. cbn [orb]. cbv iota. split; [discriminate|].
    intros (st' & d0 & d1 & [= <-] & H & _). lia. }
  apply Z.ltb_ge in Ec.
  destruct (nonempty (get_last_whipsaw_date st)) eqn:En.
  2:{ cbn [orb negb]. cbv iota. split; [discriminate|].
      intros (st' & d0 & d1 & [= <-] & _ & H & _). congruence. }
  cbn [orb negb]. cbv iota.
  destruct (strptime (get_last_whipsaw_date st)) as [d0|] eqn:E0.
  2:{ split; [discriminate|].
      intros (st' & d0 & d1 & [= <-] & _ & _ & H & _). congruence. }
  destruct (strptime (first10 today_date)) as [d1|] eqn:E1.
  2:{ split; [discriminate|].
      intros (st' & d0' & d1 & [= <-] & _ & _ & _ & H & _). congruence. }
  cbv zeta.
  destruct (d1 - d0 <? 60)%Z eqn:Ed.
  - apply Z.ltb_lt in Ed. split; [|reflexivity]. intros _.
    exists st, d0, d1. repeat split; try assumption; reflexivity.
  - apply Z.ltb_ge in Ed. split; [discriminate|].
    intros (st' & d0' & d1' & [= <-] & _ & _ & H0 & H1 & H).
    rewrite E0 in H0. injection H0 as <-. injection H1 as <-. lia.
Qed.

(** X7: the fast-follower flag is raised exactly for an instrument that is
    not held, whose record shows a last exit by STOP_HIT at most 10 days
    before today (both dates parsing), and whose close is finite and not
    below its finite 20-day high on a finite volume ratio of at least 2. *)
Theorem fast_follower_iff (ticker : string) (row : entry_row)
    (pos_state : gmap string position_state) (today_date : string) :
  fast_follower_eligible
    (check_fast_follower_reentry strptime ticker row pos_state today_date) = true
  <-> e_is_held row = false
      /\ exists st exit_dt today_dt c h v,
           pos_state !! upper ticker = Some st
           /\ get_last_exit_reason st = "STOP_HIT"%string
           /\ nonempty (get_last_exit_date st) = true
           /\ strptime (first10 (get_last_exit_date st)) = Some exit_dt
           /\ strptime (first10 today_date) = Some today_dt
           /\ (today_dt - exit_dt <= 10)%Z
           /\ e_close row = Fin c /\ e_high_20 row = Fin h /\ h <= c
           /\ e_vol_ratio row = Fin v /\ 2 <= v.
Proof.
  unfold check_fast_follower_reentry, FAST_FOLLOWER_ENABLED,
    FAST_FOLLOWER_LOOKBACK_DAYS, FAST_FOLLOWER_REQUIRE_NEW_HIGH,
    FAST_FOLLOWER_VOLUME_RATIO_MIN.
  cbn [negb]. cbv iota.
  destruct (e_is_held row) eqn:Eh.
  { split; [discriminate|]. intros [H _]. discriminate H. }
  destruct (pos_state !! upper ticker) as [st|].
  2:{ split; [discriminate|]. intros (_ & st & ? & ? & ? & ? & ? & H & _).
      discriminate H. }
  cbv zeta.
  destruct (String.eqb (get_last_exit_reason st) "STOP_HIT") eqn:Er.
  2:{ cbn [negb]. cbv iota. split; [discriminate|].
      intros (_ & st' & ? & ? & ? & ? & ? & [= <-] & H & _).
      apply String.eqb_neq in Er. contradiction. }
  apply String.eqb_eq in Er.
  destruct (nonempty (get_last_exit_date st)) eqn:En.
  2:{ cbn [negb]. cbv iota. split; [discriminate|].
      intros (_ & st' & ? & ? & ? & ? & ? & [= <-] & _ & H & _). congruence. }
  cbn [negb]. cbv iota.
  destruct (strptime (first10 (get_last_exit_date st))) as [d0|] eqn:E0.
  2:{ split; [discriminate|].
      intros (_ & st' & ? & ? & ? & ? & ? & [= <-] & _ & _ & H & _). congruence. }
  destruct (strptime (first10 today_date)) as [d1|] eqn:E1.
  2:{ split; [discriminate|].
      intros (_ & st' & ? & ? & ? & ? & ? & [= <-] & _ & _ & _ & H & _).
      congruence. }
  destruct (10 <? d1 - d0)%Z eqn:Ed.
  { apply Z.ltb_lt in Ed. split; [discriminate|].
    intros (_ & st' & d0' & d1' & ? & ? & ? & [= <-] & _ & _ & H0 & H1 & H & _).
    rewrite E0 in H0. injection H0 as <-. injection H1 as <-. lia. }
  apply Z.ltb_ge in Ed.
  destruct (e_close row) as [c| | |] eqn:Ecl; cbn [isfinite andb negb]; cbv iota;
    try (split; [discriminate|];
         intros (_ & ? & ? & ? & ? & ? & ? & _ & _ & _ & _ & _ & _ & H & _);
         discriminate H).
  destruct (e_high_20 row) as [h| | |] eqn:Ehi; cbn [isfinite andb negb]; cbv iota;
    try (split; [discriminate|];
         intros (_ & ? & ? & ? & ? & ? & ? & _ & _ & _ & _ & _ & _ & _ & H & _);
         discriminate H).
  cbn [flt].
  destruct (Qltb c h) eqn:Ech.
  { apply Qltb_lt in Ech. split; [discriminate|].
    intros (_ & ? & ? & ? & c' & h' & ? & _ & _ & _ & _ & _ & _ & [= <-] & [= <-] & H & _).
    lra. }
  apply Qltb_ge in Ech.
  destruct (e_vol_ratio row) as [v| | |] eqn:Ev; cbn [isfinite andb negb orb flt];
    cbv iota;
    try (split; [discriminate|];
         intros (_ & ? & ? & ? & ? & ? & ? & _ & _ & _ & _ & _ & _ & _ & _ & _ & H & _);
         discriminate H).
  destruct (Qltb v 2) eqn:Ev2.
  { apply Qltb_lt in Ev2. split; [discriminate|].
    intros (_ & ? & ? & ? & ? & ? & v' & _ & _ & _ & _ & _ & _ & _ & _ & _ & [= <-] & H).
    lra. }
  apply Qltb_ge in Ev2. split; [|reflexivity]. intros _.
  split; [reflexivity|].
  exists st, d0, d1, c, h, v. repeat split; try assumption; reflexivity.
Qed.

(** X8: an instrument that is not held never leaves the status pipeline
    with a buy signal while the market regime is not BULLISH: its status
    is IGNORE, whatever classify returned, whether or not the fast-follower
    flag is raised, and the heat check leaves it so. *)
Theorem no_new_entry_outside_bullish (row : entry_row)
    (classified : status * row_reason) (pos_state : gmap string position_state)
    (today_str : string) (validation_ok : bool) (threshold : Z)
    (rank_score : fnum) (cluster_holdings : gmap string Z)
    (cluster_momentum_avg : gmap string fnum) :
  e_is_held row = false ->
  e_market_regime row <> BULLISH ->
  row_status strptime row classified pos_state today_str validation_ok
  = (IGNORE, R_market_not_bullish (e_market_regime row))
  /\ final_status strptime threshold row classified pos_state today_str
       validation_ok rank_score cluster_holdings cluster_momentum_avg = IGNORE.
Proof.
  intros Hh Hm.
  assert (Hb : market_regime_eqb (e_market_regime row) BULLISH = false).
  { destruct (e_market_regime row); try reflexivity. contradiction. }
  assert (Hs : row_status strptime row classified pos_state today_str validation_ok
               = (IGNORE, R_market_not_bullish (e_market_regime row))).
  { unfold row_status. destruct classified as [st rs]. rewrite Hh, Hb.
    destruct validation_ok; simpl;
      repeat match goal with
             | |- context [if ?b then _ else _] => destruct b; simpl
             end; reflexivity. }
  split; [exact Hs|].
  unfold final_status, heat_checked_status. rewrite Hs. cbn [fst].
  unfold HEAT_CHECK_ENABLED. rewrite Hh. reflexivity.
Qed.

(** X9: a READY status in the snapshot is always backed by the gates.  For
    a held instrument classify returned READY, the trend efficiency is not
    known to be below 30 per cent and the symbol is not whipsaw-blocked.
    For an instrument that is not held the market is BULLISH, the ticker
    validation passed, the heat check does not block it, and either the
    fast-follower flag is raised or the same three gates were passed. *)
Theorem ready_is_justified (row : entry_row)
    (classified : status * row_reason) (pos_state : gmap string position_state)
    (today_str : string) (validation_ok : bool) (threshold : Z)
    (rank_score : fnum) (cluster_holdings : gmap string Z)
    (cluster_momentum_avg : gmap string fnum) :
  final_status strptime threshold row classified pos_state today_str
    validation_ok rank_score cluster_holdings cluster_momentum_avg = READY ->
  let gates_passed :=
    fst classified = READY
    /\ (isfinite (e_trend_efficiency row)
        && flt (e_trend_efficiency row) (Fin (3 # 10))) = false
    /\ whipsaw_blocked
         (check_whipsaw_blocked strptime (e_ticker row) pos_state today_str) = false in
  (e_is_held row = true /\ gates_passed)
  \/ (e_is_held row = false
      /\ e_market_regime row = BULLISH
      /\ validation_ok = true
      /\ check_heat_check threshold false (e_cluster row) rank_score
           cluster_holdings cluster_momentum_avg = false
      /\ (fast_follower_eligible
            (check_fast_follower_reentry strptime (e_ticker row) row pos_state
               today_str) = true
          \/ gates_passed)).
Proof.
  unfold final_status, heat_checked_status, row_status, HEAT_CHECK_ENABLED,
    TREND_EFFICIENCY_GATE_ENABLED, TREND_EFFICIENCY_MIN_FOR_READY.
  destruct classified as [st rs]. cbn [fst].
  destruct (e_is_held row) eqn:Eh;
    destruct (isfinite (e_trend_efficiency row)
              && flt (e_trend_efficiency row) (Fin (3 # 10)));
    destruct (whipsaw_blocked
                (check_whipsaw_blocked strptime (e_ticker row) pos_state today_str));
    destruct (fast_follower_eligible
                (check_fast_follower_reentry strptime (e_ticker row) row pos_state
                   today_str));
    destruct (e_market_regime row);
    destruct validation_ok;
    destruct st;
    cbn [negb andb orb status_eqb market_regime_eqb fst];
    try discriminate;
    try (intros _; left; repeat split; reflexivity);
    destruct (check_heat_check threshold false (e_cluster row) rank_score
                cluster_holdings cluster_momentum_avg);
    cbn [negb andb orb status_eqb market_regime_eqb fst];
    try discriminate;
    intros _; right; repeat split; auto.
Qed.

End WithDates.

Lemma no_new_entry_outside_bullish_witness :
  final_status iso_strptime 3
    (mkEntryRow "ABC" false (Fin 50) (Fin 50) (Fin (5 # 2)) (Fin (1 # 2)) SIDEWAYS "TECH")
    (READY, R_classify "0.00% from 20D High") whipsawed_table "2026-11-03" true
    (Fin 1000) ∅ ∅ = IGNORE.
Proof.
  apply (no_new_entry_outside_bullish iso_strptime
           (mkEntryRow "ABC" false (Fin 50) (Fin 50) (Fin (5 # 2)) (Fin (1 # 2))
              SIDEWAYS "TECH")).
  - reflexivity.
  - discriminate.
Defined.

Lemma ready_is_justified_witness :
  (e_is_held squeeze_row = true
   /\ (READY = READY
       /\ (isfinite (e_trend_efficiency squeeze_row)
           && flt (e_trend_efficiency squeeze_row) (Fin (3 # 10))) = false
       /\ whipsaw_blocked
            (check_whipsaw_blocked iso_strptime (e_ticker squeeze_row)
               whipsawed_table "2026-11-03") = false))
  \/ (e_is_held squeeze_row = false
      /\ e_market_regime squeeze_row = BULLISH
      /\ true = true
      /\ check_heat_check 3 false (e_cluster squeeze_row) (Fin 1000) ∅ ∅ = false
      /\ (fast_follower_eligible
            (check_fast_follower_reentry iso_strptime (e_ticker squeeze_row)
               squeeze_row whipsawed_table "2026-11-03") = true
          \/ (READY = READY
              /\ (isfinite (e_trend_efficiency squeeze_row)
                  && flt (e_trend_efficiency squeeze_row) (Fin (3 # 10))) = false
              /\ whipsaw_blocked
                   (check_whipsaw_blocked iso_strptime (e_ticker squeeze_row)
                      whipsawed_table "2026-11-03") = false))).
Proof.
  apply (ready_is_justified iso_strptime squeeze_row
           (READY, R_classify "0.00% from 20D High") whipsawed_table "2026-11-03"
           true 3 (Fin 1000) ∅ ∅).
  vm_compute. reflexivity.
Defined.

End EntryLaws.

Module UniverseLaws.
Import Universe UniverseProofs.

Lemma insert_by_prio_length (r : universe_row) (l : list universe_row) :
  length (insert_by_prio r l) = S (length l).
Proof.
  induction l as [|x rest IH]; simpl; [reflexivity|].
  destruct (prio r <=? prio x)%nat; simpl; [reflexivity|]. rewrite IH. reflexivity.
Qed.

Lemma sort_by_prio_length (g : list universe_row) :
  length (sort_by_prio g) = length g.
Proof.
  unfold sort_by_prio. induction g as [|r g IH]; simpl; [reflexivity|].
  rewrite insert_by_prio_length, IH. reflexivity.
Qed.

(** Kept and dropped rows of the groups of [ks] together count the rows of
    those groups. *)
Lemma groups_length (dfu : list universe_row) (ks : list string) :
  let groups := map (fun tyf => (tyf, sort_by_prio (group_of tyf dfu))) ks in
  (length (flat_map (fun kg : string * list universe_row =>
                       match snd kg with keep :: _ => [keep] | [] => [] end) groups)
   + length (flat_map (fun kg : string * list universe_row =>
                         match snd kg with
                         | keep :: rest =>
                             map (fun r => mkDropped (fst kg) (u_sleeve keep)
                                             (u_sleeve r) (u_ticker r)) rest
                         | [] => []
                         end) groups)
   = list_sum (map (fun k => length (group_of k dfu)) ks))%nat.
Proof.
  cbv zeta. induction ks as [|k ks IH]; [reflexivity|].
  cbn [map flat_map list_sum fold_right snd fst]. rewrite !length_app.
  rewrite <- (sort_by_prio_length (group_of k dfu)).
  fold (list_sum (map (fun k => length (group_of k dfu)) ks)).
  rewrite <- IH.
  destruct (sort_by_prio (group_of k dfu)) as [|keep rest].
  - cbn [length]. lia.
  - cbn [length]. rewrite length_map. lia.
Qed.

Lemma key_counted_once (x : string) (ks : list string) :
  List.NoDup ks -> In x ks ->
  list_sum (map (fun k => if String.eqb x k then 1 else 0)%nat ks) = 1%nat.
Proof.
  induction 1 as [|k ks Hk Hnd IH]; intros Hin; [destruct Hin|].
  cbn [map list_sum fold_right].
  destruct (String.eqb x k) eqn:E.
  - apply String.eqb_eq in E. subst k.
    assert (H0 : list_sum (map (fun k => if String.eqb x k then 1 else 0)%nat ks) = 0%nat).
    { clear IH Hnd Hin. induction ks as [|y ks IH]; [reflexivity|].
      cbn [map list_sum fold_right].
      destruct (String.eqb x y) eqn:E.
      - apply String.eqb_eq in E. exfalso. apply Hk. left. symmetry. exact E.
      - fold (list_sum (map (fun k => if String.eqb x k then 1 else 0)%nat ks)).
        rewrite IH; [reflexivity|]. intros H. apply Hk. right. exact H. }
    fold (list_sum (map (fun k => if String.eqb x k then 1 else 0)%nat ks)).
    rewrite H0. reflexivity.
  - apply String.eqb_neq in E.
    destruct Hin as [->|Hin]; [contradiction|].
    fold (list_sum (map (fun k => if String.eqb x k then 1 else 0)%nat ks)).
    rewrite (IH Hin). reflexivity.
Qed.

(** Distinct keys that cover the frame split it into groups that count
    every row once. *)
Lemma groups_partition (ks : list string) (l : list universe_row) :
  List.NoDup ks ->
  (forall r, In r l -> In (u_ticker_yf r) ks) ->
  list_sum (map (fun k => length (group_of k l)) ks) = length l.
Proof.
  intros Hnd. induction l as [|r l IH]; intros Hcov.
  - clear. induction ks as [|k ks IHk]; [reflexivity|].
    simpl in *. exact IHk.
  - assert (Hsplit : forall ks',
              list_sum (map (fun k => length (group_of k (r :: l))) ks')
              = (list_sum (map (fun k => if String.eqb (u_ticker_yf r) k then 1 else 0) ks')
                 + list_sum (map (fun k => length (group_of k l)) ks'))%nat).
    { induction ks' as [|k ks' IHk]; [reflexivity|].
      cbn [map list_sum fold_right].
      fold (list_sum (map (fun k => length (group_of k (r :: l))) ks')).
      fold (list_sum (map (fun k => if String.eqb (u_ticker_yf r) k then 1 else 0)%nat ks')).
      fold (list_sum (map (fun k => length (group_of k l)) ks')).
      rewrite IHk. unfold group_of at 1. cbn [List.filter].
      fold (group_of k l).
      destruct (String.eqb (u_ticker_yf r) k); simpl; lia. }
    rewrite Hsplit, IH, key_counted_once.
    + reflexivity.
    + exact Hnd.
    + apply Hcov. left. reflexivity.
    + intros x Hx. apply Hcov. right. exact Hx.
Qed.

(** X10: de-duplication loses no row silently: the rows kept and the rows
    logged as dropped together are as many as the rows of the universe. *)
Theorem every_row_kept_or_logged (dfu : list universe_row) :
  (length (fst (enforce_unique_underlyings dfu))
   + length (snd (enforce_unique_underlyings dfu)) = length dfu)%nat.
Proof.
  destruct dfu as [|r0 dfu0]; [reflexivity|].
  set (dfu := r0 :: dfu0).
  change (enforce_unique_underlyings dfu) with
    (let groups := map (fun tyf => (tyf, sort_by_prio (group_of tyf dfu))) (group_keys dfu) in
     (flat_map (fun kg : string * list universe_row =>
                  match snd kg with keep :: _ => [keep] | [] => [] end) groups,
      flat_map (fun kg : string * list universe_row =>
                  match snd kg with
                  | keep :: rest =>
                      map (fun r => mkDropped (fst kg) (u_sleeve keep)
                                      (u_sleeve r) (u_ticker r)) rest
                  | [] => []
                  end) groups)).
  cbv zeta. cbn [fst snd].
  rewrite (groups_length dfu (group_keys dfu)).
  apply groups_partition; [apply group_keys_NoDup|].
  intros r Hr. apply group_keys_In. exists r. auto.
Qed.

(** *** A second pass changes nothing *)

Lemma insert_key_sorted (k : string) (l : list string) :
  LocallySorted (fun a b => String.leb a b = true) l ->
  LocallySorted (fun a b => String.leb a b = true) (insert_key k l).
Proof.
  induction 1 as [|x|x y l Hl IH Hxy]; simpl.
  - constructor.
  - destruct (String.leb k x) eqn:E.
    + constructor; [constructor|exact E].
    + constructor; [constructor|].
      destruct (String.leb_total k x) as [H|H]; [congruence|exact H].
  - destruct (String.leb k x) eqn:E.
    + constructor; [constructor; assumption|exact E].
    + simpl in IH. destruct (String.leb k y) eqn:E'.
      * constructor; [exact IH|].
        destruct (String.leb_total k x) as [H|H]; [congruence|exact H].
      * constructor; [exact IH|exact Hxy].
Qed.

Lemma group_keys_sorted (dfu : list universe_row) :
  LocallySorted (fun a b => String.leb a b = true) (group_keys dfu).
Proof.
  unfold group_keys. induction (nodup string_dec (map u_ticker_yf dfu)) as [|k l IH].
  - constructor.
  - simpl. apply insert_key_sorted, IH.
Qed.

Lemma sorted_keys_fixed (l : list string) :
  LocallySorted (fun a b => String.leb a b = true) l ->
  fold_right insert_key [] l = l.
Proof.
  induction 1 as [|x|x y l Hl IH Hxy]; [reflexivity|reflexivity|].
  change (fold_right insert_key [] (x :: y :: l))
    with (insert_key x (fold_right insert_key [] (y :: l))).
  rewrite IH. simpl. rewrite Hxy. reflexivity.
Qed.

(** On a frame without duplicate underlyings every row is its own group. *)
Lemma kept_self (l l' : list universe_row) :
  List.NoDup (map u_ticker_yf l) -> incl l' l ->
  kept l (map u_ticker_yf l') = l'.
Proof.
  intros Hnd. unfold kept. induction l' as [|r l' IH]; intros Hin; [reflexivity|].
  cbn [map flat_map snd].
  unfold group_of at 1. rewrite (filter_unique_key l r Hnd);
    [|apply Hin; left; reflexivity].
  simpl. f_equal. apply IH. intros x Hx. apply Hin. right. exact Hx.
Qed.

Lemma nothing_dropped (l : list universe_row) (l' : list universe_row) :
  List.NoDup (map u_ticker_yf l) -> incl l' l ->
  flat_map (fun kg : string * list universe_row =>
              match snd kg with
              | keep :: rest =>
                  map (fun r => mkDropped (fst kg) (u_sleeve keep)
                                  (u_sleeve r) (u_ticker r)) rest
              | [] => []
              end)
    (map (fun tyf => (tyf, sort_by_prio (group_of tyf l))) (map u_ticker_yf l')) = [].
Proof.
  intros Hnd. induction l' as [|r l' IH]; intros Hin; [reflexivity|].
  cbn [map flat_map snd].
  unfold group_of at 1. rewrite (filter_unique_key l r Hnd);
    [|apply Hin; left; reflexivity].
  simpl. apply IH. intros x Hx. apply Hin. right. exact Hx.
Qed.

(** X11: de-duplication is idempotent: applied to its own output it keeps
    every row, in the same order, and logs no drop. *)
Theorem enforce_unique_underlyings_idempotent (dfu : list universe_row) :
  enforce_unique_underlyings (fst (enforce_unique_underlyings dfu))
  = (fst (enforce_unique_underlyings dfu), []).
Proof.
  rewrite enforce_kept.
  set (out := kept dfu (group_keys dfu)).
  assert (Hkeys : map u_ticker_yf out = group_keys dfu).
  { apply kept_keys. auto. }
  assert (Hnd : List.NoDup (map u_ticker_yf out)).
  { rewrite Hkeys. apply group_keys_NoDup. }
  assert (Hgk : group_keys out = map u_ticker_yf out).
  { unfold group_keys. rewrite (nodup_fixed_point string_dec Hnd).
    apply sorted_keys_fixed. rewrite Hkeys. apply group_keys_sorted. }
  destruct out as [|r0 out0] eqn:Eo; [reflexivity|].
  rewrite <- Eo in *.
  replace (enforce_unique_underlyings out) with
    (kept out (group_keys out),
     flat_map (fun kg : string * list universe_row =>
                 match snd kg with
                 | keep :: rest =>
                     map (fun r => mkDropped (fst kg) (u_sleeve keep)
                                     (u_sleeve r) (u_ticker r)) rest
                 | [] => []
                 end)
       (map (fun tyf => (tyf, sort_by_prio (group_of tyf out))) (group_keys out)))
    by (rewrite Eo; reflexivity).
  rewrite Hgk.
  rewrite (kept_self out out Hnd (incl_refl out)).
  rewrite (nothing_dropped out out Hnd (incl_refl out)). reflexivity.
Qed.

End UniverseLaws.

Module LoopLaws.
Import Universe Loop.

Section WithData.

Variable frame : Type.
Variable raw : string -> option frame.
Variable df_empty : frame -> bool.
Variable len : frame -> nat.
Variable age_days : frame -> Z.
Variable max_data_age_days : Z.
Variable out_row : Type.
Variable evaluate :
  universe_row -> frame -> gmap string position_state ->
  (string + out_row) * gmap string position_state.

Local Abbreviation body := (loop_body frame raw df_empty len age_days max_data_age_days
                            out_row evaluate).

(** One iteration appends exactly one entry: an output row or a skip. *)
Lemma body_appends_one (acc : run out_row) (u : universe_row) :
  (exists row st,
      body acc u = mkRun _ (out_rows _ acc ++ [(u, row)]) (skips _ acc) st)
  \/ (exists reason st,
        body acc u =
          mkRun _ (out_rows _ acc)
            (skips _ acc ++ [mkSkip (u_ticker u) (u_ticker_yf u) reason]) st).
Proof.
  unfold loop_body, add_skip.
  destruct (raw (u_ticker_yf u)) as [df|]; [|right; eauto].
  destruct (df_empty df || (len df <? 230)%nat); [right; eauto|].
  destruct (max_data_age_days <? age_days df)%Z; [right; eauto|].
  destruct (evaluate u df (pos_state _ acc)) as [[name|row] st]; [right|left]; eauto.
Qed.

Lemma loop_appends (dfu : list universe_row) :
  forall acc : run out_row,
    exists rows sks,
      out_rows _ (fold_left body dfu acc) = out_rows _ acc ++ rows
      /\ skips _ (fold_left body dfu acc) = skips _ acc ++ sks
      /\ (length rows + length sks = length dfu)%nat
      /\ map fst rows `sublist_of` dfu
      /\ map s_ticker sks `sublist_of` map u_ticker dfu.
Proof.
  induction dfu as [|u rest IH]; intros acc.
  - exists [], []. simpl. rewrite !app_nil_r. repeat split; constructor.
  - cbn [fold_left].
    destruct (IH (body acc u)) as (rows & sks & Hr & Hs & Hlen & Hsub & Hsubs).
    destruct (body_appends_one acc u) as [(row & st & E)|(reason & st & E)];
      rewrite E in Hr, Hs |- *; cbn [out_rows skips] in Hr, Hs.
    + exists ((u, row) :: rows), sks.
      rewrite <- app_assoc in Hr. repeat split.
      * exact Hr.
      * exact Hs.
      * simpl. lia.
      * simpl. apply sublist_skip, Hsub.
      * simpl. apply sublist_cons, Hsubs.
    + exists rows, (mkSkip (u_ticker u) (u_ticker_yf u) reason :: sks).
      rewrite <- app_assoc in Hs. repeat split.
      * exact Hr.
      * exact Hs.
      * simpl. lia.
      * apply sublist_cons, Hsub.
      * simpl. apply sublist_skip, Hsubs.
Qed.

(** X12: the loop accounts for every instrument exactly once: the output
    rows and the skip entries are together as many as the rows of the
    universe, the output rows follow the order of the universe, and so do
    the skip entries. *)
Theorem one_entry_per_instrument (dfu : list universe_row)
    (state : gmap string position_state) :
  let r := main_loop frame raw df_empty len age_days max_data_age_days out_row
             evaluate dfu state in
  (length (out_rows _ r) + length (skips _ r) = length dfu)%nat
  /\ map fst (out_rows _ r) `sublist_of` dfu
  /\ map s_ticker (skips _ r) `sublist_of` map u_ticker dfu.
Proof.
  cbv zeta. unfold main_loop.
  destruct (loop_appends dfu (mkRun _ [] [] state))
    as (rows & sks & Hr & Hs & Hlen & Hsub & Hsubs).
  rewrite Hr, Hs. simpl. auto.
Qed.

End WithData.

End LoopLaws.

Module SignalLaws.
Import Regime Stops Entry Signals StopsProofs.

(** The overrides of [main] neither create nor remove a SELL. *)
Lemma final_held_action_SELL (action : held_action) (is_climax : bool)
    (climax : climax_info) (laggard : laggard_info) :
  final_held_action action is_climax climax laggard = A_SELL <-> action = A_SELL.
Proof.
  unfold final_held_action.
  destruct action, is_climax, (is_CA_SELL (climax_action_of climax)),
    (is_laggard laggard); simpl; split; congruence.
Qed.

Lemma exit_signal_of_stop (row : stop_row) (out : stop_out) (c a : Q) :
  is_held row = true ->
  close row = Fin c ->
  o_active_stop out = Fin a ->
  fst (compute_exit_signal (exit_row_of row out)) = if Qltb c a then A_SELL else A_HOLD.
Proof.
  intros Hh Hc Ha. unfold compute_exit_signal, exit_row_of. simpl.
  rewrite Hh, Hc, Ha. simpl.
  destruct (sleeve_eqb (row_sleeve row) ETF_CORE); simpl;
    destruct (Qltb c a); reflexivity.
Qed.

(** X13: for a held instrument with a finite close and a finite active
    stop, the action written to the snapshot is SELL exactly when the
    close is below the active stop of this run, whatever the climax and
    laggard checks say; and a close below the finite stop stored by an
    earlier run always gives SELL, because the active stop is never below
    the stored one. *)
Theorem stop_breach_always_sells (cfg : config) (today : string) (row : stop_row)
    (pos_state : gmap string position_state) (mr : market_regime) (c : Q)
    (is_climax : bool) (climax : climax_info) (laggard : laggard_info) :
  is_held row = true ->
  close row = Fin c ->
  let out := compute_stateful_stop cfg today row pos_state mr in
  let action :=
    final_held_action (fst (compute_exit_signal (exit_row_of row out)))
      is_climax climax laggard in
  (forall a, o_active_stop out = Fin a -> (action = A_SELL <-> c < a))
  /\ (forall p, stored_stop pos_state (upper (ticker row)) = Fin p -> c < p ->
        action = A_SELL).
Proof.
  intros Hh Hc out action.
  assert (Hact : forall a, o_active_stop out = Fin a -> (action = A_SELL <-> c < a)).
  { intros a Ha. unfold action. rewrite final_held_action_SELL.
    rewrite (exit_signal_of_stop row out c a Hh Hc Ha).
    destruct (Qltb c a) eqn:E.
    - apply Qltb_lt in E. split; auto.
    - apply Qltb_ge in E. split; [discriminate|]. intros H. lra. }
  split; [exact Hact|].
  intros p Hp Hcp.
  assert (Hfin : isfinite (close row) = true) by (rewrite Hc; reflexivity).
  destruct (compute_stateful_stop_held cfg today row pos_state mr Hh Hfin)
    as (Ha & _).
  fold out in Ha.
  pose proof (stateful_not_lowered
                (stored_stop pos_state (upper (ticker row))) (o_candidate_stop out))
    as Hnl.
  rewrite <- Ha, Hp in Hnl. simpl in Hnl.
  destruct (o_active_stop out) as [a| | |] eqn:Ea; try contradiction.
  apply (Hact a eq_refl). lra.
Qed.

Lemma stop_breach_always_sells_witness :
  final_held_action
    (fst (compute_exit_signal
            (exit_row_of
               (mkStopRow true "abc" (Fin 96) (Fin 2) (Fin 90) STOCK_CORE (Fin 92)
                  (Fin 25) RANGE NaN (Fin 100))
               (compute_stateful_stop default_config "2026-11-03"
                  (mkStopRow true "abc" (Fin 96) (Fin 2) (Fin 90) STOCK_CORE (Fin 92)
                     (Fin 25) RANGE NaN (Fin 100))
                  scenario_table BULLISH))))
    false (mkClimax false CA_none NaN) (mkLaggard true (Fin 30) (Fin 4))
  = A_SELL.
Proof.
  apply (stop_breach_always_sells default_config "2026-11-03"
           (mkStopRow true "abc" (Fin 96) (Fin 2) (Fin 90) STOCK_CORE (Fin 92)
              (Fin 25) RANGE NaN (Fin 100))
           scenario_table BULLISH 96 false (mkClimax false CA_none NaN)
           (mkLaggard true (Fin 30) (Fin 4)) eq_refl eq_refl)
    with (p := 97).
  - reflexivity.
  - vm_compute. reflexivity.
Defined.

Lemma exit_signal_values (xrow : exit_row) :
  fst (compute_exit_signal xrow) = A_none
  \/ fst (compute_exit_signal xrow) = A_SELL
  \/ fst (compute_exit_signal xrow) = A_HOLD.
Proof.
  unfold compute_exit_signal.
  repeat match goal with
         | |- context [if ?b then _ else _] => destruct b
         end; simpl; auto.
Qed.

(** X14: the climax check only speaks for held instruments flagged as a
    climax top, and in tighten-stop mode with a finite close and a
    positive ATR it suggests a finite stop that is at least close - 1.5 ATR
    and never below a finite active stop: the suggestion can tighten, never
    loosen. *)
Theorem climax_stop_only_tightens (mode : climax_mode)
    (is_held is_climax_top : bool) (close atr active_stop : fnum) :
  let r := check_climax_exit mode is_held is_climax_top close atr active_stop in
  (fst r = true -> is_held = true /\ is_climax_top = true)
  /\ (fst r = false -> climax_action_of (snd r) = CA_none)
  /\ (forall c t, mode = CM_tighten_stop -> fst r = true ->
        close = Fin c -> atr = Fin t -> 0 < t ->
        exists s, climax_suggested_stop (snd r) = Fin s
                  /\ c - (3 # 2) * t <= s
                  /\ forall a, active_stop = Fin a -> a <= s).
Proof.
  cbv zeta. unfold check_climax_exit, CLIMAX_EXIT_ENABLED. cbn [negb].
  destruct is_held; [|cbn; repeat split; try discriminate; reflexivity].
  destruct is_climax_top; [|cbn; repeat split; try discriminate; reflexivity].
  cbn [negb]. cbv iota.
  split; [intros _; split; reflexivity|].
  split; [destruct mode; [destruct (_ && _)| |]; discriminate|].
  intros c t -> _ -> -> Ht.
  assert (Hpos : fgt (Fin t) (Fin 0) = true) by (apply flt_Fin; exact Ht).
  rewrite Hpos. cbn [isfinite andb fst snd]. cbv zeta.
  change (fsub (Fin c) (fmul (Fin CLIMAX_ATR_TIGHTEN_MULT) (Fin t)))
    with (Fin (c + - (CLIMAX_ATR_TIGHTEN_MULT * t))).
  unfold CLIMAX_ATR_TIGHTEN_MULT.
  destruct active_stop as [a| | |]; cbn [isfinite climax_suggested_stop];
    try (eexists; split; [reflexivity|split; [lra|discriminate]]).
  unfold pymax, fgt. cbn [flt].
  destruct (Qltb (c + - ((3 # 2) * t)) a) eqn:E.
  - apply Qltb_lt in E. exists a. split; [reflexivity|].
    split; [lra|]. intros a' [= <-]. lra.
  - apply Qltb_ge in E. eexists. split; [reflexivity|].
    split; [lra|]. intros a' [= <-]. lra.
Qed.

(** X15: a position is flagged as a laggard only if it is held, its
    recorded entry price and its close are finite with the close below the
    entry, the holding period established for it is at least 10 days, and,
    for a positive entry price, the loss is at least 2 per cent; and the
    TRIM_LAGGARD action is written only for such a position whose exit
    signal is HOLD. *)
Theorem laggard_flag_sound (strptime : string -> option Z) (today : Z)
    (is_held : bool) (ticker : string) (close row_holding_days : fnum)
    (pos_state : gmap string position_state)
    (xrow : exit_row) (is_climax : bool) (climax : climax_info) :
  let info :=
    check_laggard_purge strptime today is_held ticker close row_holding_days
      pos_state in
  let action := fst (compute_exit_signal xrow) in
  (is_laggard info = true ->
     is_held = true
     /\ exists st e c d,
          pos_state !! upper ticker = Some st
          /\ entry_price st = Fin e /\ close = Fin c /\ c < e
          /\ l_holding_days info = Fin d /\ 10 <= d
          /\ (0 < e -> 2 * e <= 100 * (e - c)))
  /\ (final_held_action action is_climax climax info = A_TRIM_LAGGARD ->
        is_laggard info = true /\ action = A_HOLD).
Proof.
  cbv zeta. split.
  2:{ destruct (exit_signal_values xrow) as [E|[E|E]]; rewrite E;
        unfold final_held_action;
        destruct is_climax, (is_CA_SELL (climax_action_of climax)),
          (is_laggard _); simpl; intros H; try discriminate H; split; reflexivity. }
  unfold check_laggard_purge, LAGGARD_PURGE_ENABLED. cbn [negb]. cbv zeta.
  destruct is_held; [|discriminate]. cbn [negb]. cbv iota.
  destruct (pos_state !! upper ticker) as [st|]; [|discriminate].
  cbn [from_option].
  destruct (entry_price st) as [e| | |] eqn:Ee; try discriminate.
  destruct close as [c| | |]; try discriminate.
  cbn [isfinite negb orb]. cbv iota. unfold fge. cbn [fle].
  destruct (Qle_bool e c) eqn:Ec; [discriminate|].
  apply Qle_bool_false in Ec.
  match goal with
  | |- is_laggard (if flt ?h _ then _ else _) = true -> _ => set (hd := h)
  end.
  assert (Hhd : exists d, hd = Fin d).
  { unfold hd.
    destruct (negb (nonempty (strip (entry_date st)))
              || String.eqb (strip (entry_date st)) "nan").
    - destruct (isfinite row_holding_days) eqn:Er; [apply isfinite_Fin, Er|].
      destruct (isfinite (active_stop st)); eauto.
    - destruct (strptime (first10 (strip (entry_date st)))); eauto. }
  destruct Hhd as [d Hd]. rewrite Hd. clear hd Hd. cbn [flt].
  destruct (Qltb d (inject_Z LAGGARD_HOLDING_DAYS)) eqn:Ed; [discriminate|].
  apply Qltb_ge in Ed.
  destruct (flt _ (Fin LAGGARD_MIN_LOSS_PCT)) eqn:El; [discriminate|].
  intros _. split; [reflexivity|].
  exists st, e, c, d. repeat split; try reflexivity; try assumption.
  intros He. revert El.
  change (fsub (Fin e) (Fin c)) with (Fin (e + - c)).
  rewrite (RankProofs.fdiv_pos _ _ He). cbn [fmul flt].
  intros El. apply Qltb_ge in El. unfold LAGGARD_MIN_LOSS_PCT in El.
  assert (H : 2 * e <= (e + - c) / e * 100 * e) by nra.
  assert (Hd : (e + - c) / e * e == e + - c).
  { field. lra. }
  nra.
Qed.

Lemma laggard_flag_sound_witness :
  is_laggard
    (check_laggard_purge iso_strptime 20760 true "abc" (Fin 98) NaN scenario_table)
  = true
  /\ fst (compute_exit_signal
            (mkExitRow true (Fin 98) STOCK_CORE (Some (Fin 97)) (Fin 90)
               (Some (Fin 97)))) = A_HOLD.
Proof.
  apply (laggard_flag_sound iso_strptime 20760 true "abc" (Fin 98) NaN scenario_table
           (mkExitRow true (Fin 98) STOCK_CORE (Some (Fin 97)) (Fin 90)
              (Some (Fin 97)))
           false (mkClimax false CA_none NaN)).
  vm_compute. reflexivity.
Defined.

(** X16: a pyramid add is signalled only for a held instrument in a TREND
    regime whose record has a finite entry price and fewer than two adds
    taken, on a finite positive ATR, and only when the close has reached
    the level of the next add; the two levels lie above the entry price,
    the first 0.5 ATR and the second 1 ATR above it. *)
Theorem add_signal_sound (row : stop_row) (pos_state : gmap string position_state) :
  let info := compute_add_signals row pos_state in
  (add_eligible info = true ->
     is_held row = true /\ row_regime row = TREND
     /\ exists st e t,
          pos_state !! upper (ticker row) = Some st
          /\ entry_price st = Fin e /\ atr_14 row = Fin t /\ 0 < t
          /\ add_level_1 info = Fin (e + (1 # 2) * t)
          /\ add_level_2 info = Fin (e + 1 * t)
          /\ (add_action_of info = ADD ->
              (adds_taken st = 0%Z /\ fge (close row) (add_level_1 info) = true)
              \/ (adds_taken st = 1%Z /\ fge (close row) (add_level_2 info) = true)))
  /\ (add_action_of info = ADD -> add_eligible info = true).
Proof.
  cbv zeta. unfold compute_add_signals, PYRAMIDING_ENABLED, PYRAMID_MAX_ADDS,
    PYRAMID_ADD_1_ATR, PYRAMID_ADD_2_ATR.
  cbn [negb]. cbv iota.
  destruct (is_held row); [|split; discriminate]. cbn [negb]. cbv iota.
  destruct (row_regime row) eqn:Er; cbn [trade_regime_eqb negb]; cbv iota;
    try (split; discriminate).
  destruct (pos_state !! upper (ticker row)) as [st|]; [|split; discriminate].
  cbv zeta.
  destruct (entry_price st) as [e| | |] eqn:Ee; cbn [isfinite negb]; cbv iota;
    try (split; discriminate).
  destruct (atr_14 row) as [t| | |] eqn:Et; cbn [isfinite negb orb fle]; cbv iota;
    try (split; discriminate).
  destruct (Qle_bool t 0) eqn:Et0; [split; discriminate|].
  apply Qle_bool_false in Et0.
  cbn [fmul fadd].
  assert (Hcommon : forall info : add_info,
            add_eligible info = true ->
            add_level_1 info = Fin (e + (1 # 2) * t) ->
            add_level_2 info = Fin (e + 1 * t) ->
            (add_action_of info = ADD ->
               (adds_taken st = 0%Z /\ fge (close row) (add_level_1 info) = true)
               \/ (adds_taken st = 1%Z /\ fge (close row) (add_level_2 info) = true)) ->
            (add_eligible info = true ->
               true = true /\ TREND = TREND
               /\ exists st0 e0 t0,
                    Some st = Some st0
                    /\ entry_price st0 = Fin e0 /\ Fin t = Fin t0 /\ 0 < t0
                    /\ add_level_1 info = Fin (e0 + (1 # 2) * t0)
                    /\ add_level_2 info = Fin (e0 + 1 * t0)
                    /\ (add_action_of info = ADD ->
                        (adds_taken st0 = 0%Z
                         /\ fge (close row) (add_level_1 info) = true)
                        \/ (adds_taken st0 = 1%Z
                            /\ fge (close row) (add_level_2 info) = true)))
            /\ (add_action_of info = ADD -> add_eligible info = true)).
  { intros info H0 H1 H2 H3. split; [|intros _; exact H0].
    intros _. split; [reflexivity|split; [reflexivity|]].
    exists st, e, t. repeat split; assumption. }
  destruct (2 <=? adds_taken st)%Z.
  { apply Hcommon; try reflexivity. discriminate. }
  destruct (adds_taken st =? 0)%Z eqn:E0.
  { apply Z.eqb_eq in E0. cbn [andb].
    destruct (fge (close row) (Fin (e + (1 # 2) * t))) eqn:Eg.
    - apply Hcommon; try reflexivity. intros _. left. split; [exact E0|exact Eg].
    - rewrite E0. cbn [Z.eqb andb]. apply Hcommon; try reflexivity. discriminate. }
  cbn [andb].
  destruct (adds_taken st =? 1)%Z eqn:E1.
  { apply Z.eqb_eq in E1. cbn [andb].
    destruct (fge (close row) (Fin (e + 1 * t))) eqn:Eg.
    - apply Hcommon; try reflexivity. intros _. right. split; [exact E1|exact Eg].
    - apply Hcommon; try reflexivity. discriminate. }
  cbn [andb]. apply Hcommon; try reflexivity. discriminate.
Qed.

Lemma atr_extension_fails (c g : Q) (atr : fnum) :
  (let ext :=
     if isfinite (Fin c) && isfinite atr && fgt atr (Fin 0)
     then fdiv (fsub (Fin c) (Fin g)) atr else NaN in
   isfinite ext && fgt ext (Fin (75 # 100))) = true
  <-> exists t, atr = Fin t /\ 0 < t /\ (75 # 100) * t < c - g.
Proof.
  cbv zeta. destruct atr as [t| | |]; cbn [isfinite andb];
    try (split; [discriminate|intros (t & H & _); discriminate H]).
  unfold fgt. cbn [flt].
  destruct (Qltb 0 t) eqn:Et.
  - apply Qltb_lt in Et.
    change (fsub (Fin c) (Fin g)) with (Fin (c + - g)).
    rewrite (RankProofs.fdiv_pos _ _ Et). cbn [isfinite andb flt].
    rewrite Qltb_lt. split.
    + intros H. exists t. split; [reflexivity|split; [exact Et|]].
      assert (H2 : (75 # 100) * t < (c + - g) / t * t) by nra.
      assert (H3 : (c + - g) / t * t == c + - g) by (field; lra). lra.
    + intros (t' & [= <-] & _ & H). apply Qlt_shift_div_l; [exact Et|lra].
  - apply Qltb_ge in Et. split; [discriminate|].
    intros (t' & [= <-] & H & _). lra.
Qed.

Lemma pct_extension_fails (c g : Q) :
  0 < g ->
  (let ext := if isfinite (Fin c) then fsub (fdiv (Fin c) (Fin g)) (Fin 1) else NaN in
   isfinite ext && fgt ext (Fin (3 # 100))) = true
  <-> (3 # 100) * g < c - g.
Proof.
  intros Hg. cbv zeta. cbn [isfinite]. rewrite (RankProofs.fdiv_pos c g Hg).
  change (fsub (Fin (c / g)) (Fin 1)) with (Fin (c / g + - (1))).
  cbn [isfinite andb]. unfold fgt. cbn [flt]. rewrite Qltb_lt. split; intros H.
  - assert (H2 : (103 # 100) * g < c / g * g) by nra.
    assert (H3 : c / g * g == c) by (field; lra). lra.
  - assert (H1 : (103 # 100) < c / g).
    { apply Qlt_shift_div_l; [exact Hg|lra]. }
    lra.
Qed.


Section WithDates.

Variable strptime : string -> option Z.

(** X18: re-entry is offered exactly for a symbol whose record shows a
    last exit with a finite profit of at least 0.5R on a date that parses,
    at least 5 days before today, and that is not whipsaw-blocked. *)
Theorem reentry_eligible_iff (ticker : string)
    (pos_state : gmap string position_state) (today_date : string) :
  reentry_eligible (check_reentry_eligible strptime ticker pos_state today_date) = true
  <-> exists st p exit_dt today_dt,
        pos_state !! upper ticker = Some st
        /\ nonempty (get_last_exit_date st) = true
        /\ get_last_exit_profit_R st = Fin p /\ 1 # 2 <= p
        /\ strptime (get_last_exit_date st) = Some exit_dt
        /\ strptime (first10 today_date) = Some today_dt
        /\ (5 <= today_dt - exit_dt)%Z
        /\ whipsaw_blocked
             (check_whipsaw_blocked strptime ticker pos_state today_date) = false.
Proof.
  unfold check_reentry_eligible, REENTRY_ENABLED, REENTRY_MIN_PROFIT_R,
    REENTRY_COOLDOWN_DAYS.
  cbn [negb]. cbv iota.
  destruct (pos_state !! upper ticker) as [st|] eqn:Est.
  2:{ split; [discriminate|]. intros (st & ? & ? & ? & H & _). discriminate H. }
  cbv zeta.
  destruct (nonempty (get_last_exit_date st)) eqn:En.
  2:{ cbn [negb orb]. cbv iota. split; [discriminate|].
      intros (st' & ? & ? & ? & [= <-] & H & _). congruence. }
  destruct (get_last_exit_profit_R st) as [p| | |] eqn:Ep; cbn [isfinite negb orb];
    cbv iota;
    try (split; [discriminate|];
         intros (st' & ? & ? & ? & [= <-] & _ & H & _); congruence).
  cbn [flt].
  destruct (Qltb p (1 # 2)) eqn:Ep2.
  { apply Qltb_lt in Ep2. split; [discriminate|].
    intros (st' & p' & ? & ? & [= <-] & _ & H & Hp & _).
    rewrite Ep in H. injection H as <-. lra. }
  apply Qltb_ge in Ep2.
  destruct (strptime (get_last_exit_date st)) as [d0|] eqn:E0.
  2:{ split; [discriminate|].
      intros (st' & ? & ? & ? & [= <-] & _ & _ & _ & H & _). congruence. }
  destruct (strptime (first10 today_date)) as [d1|] eqn:E1.
  2:{ split; [discriminate|].
      intros (st' & ? & ? & ? & [= <-] & _ & _ & _ & _ & H & _). congruence. }
  destruct (d1 - d0 <? 5)%Z eqn:Ed.
  { apply Z.ltb_lt in Ed. split; [discriminate|].
    intros (st' & ? & d0' & d1' & [= <-] & _ & _ & _ & H0 & H1 & H & _).
    rewrite E0 in H0. injection H0 as <-. injection H1 as <-. lia. }
  apply Z.ltb_ge in Ed.
  destruct (whipsaw_blocked (check_whipsaw_blocked strptime ticker pos_state today_date))
    eqn:Ew.
  { split; [discriminate|].
    intros (st' & ? & ? & ? & _ & _ & _ & _ & _ & _ & _ & H). discriminate H. }
  split; [|reflexivity]. intros _.
  exists st, p, d0, d1. repeat split; try assumption; try reflexivity.
Qed.

End WithDates.

End SignalLaws.

Module ClassifyLaws.
Import Regime Classify.

Lemma pymax_cases (a b : Q) :
  (a < b /\ pymax (Fin a) (Fin b) = Fin b) \/ (b <= a /\ pymax (Fin a) (Fin b) = Fin a).
Proof.
  unfold pymax, fgt. cbn [flt]. destruct (Qltb a b) eqn:E.
  - apply Qltb_lt in E. left. auto.
  - apply Qltb_ge in E. right. auto.
Qed.

Lemma pymin_cases (a b : Q) :
  (b < a /\ pymin (Fin a) (Fin b) = Fin b) \/ (a <= b /\ pymin (Fin a) (Fin b) = Fin a).
Proof.
  unfold pymin. cbn [flt]. destruct (Qltb b a) eqn:E.
  - apply Qltb_lt in E. left. auto.
  - apply Qltb_ge in E. right. auto.
Qed.

(** The adaptive buffer of a finite positive ATR%: the clamped line. *)
Lemma adaptive_buffer_value (p : Q) :
  0 < p ->
  exists m, compute_adaptive_atr_buffer BM_adaptive (Fin p) = Fin m
            /\ m == Qmax (5 # 100) (Qmin (20 # 100) ((18 # 100) + - ((6 # 10) * p))).
Proof.
  intros Hp. unfold compute_adaptive_atr_buffer. cbn [isfinite negb orb fle].
  replace (Qle_bool p 0) with false by (symmetry; apply Qle_bool_false; exact Hp).
  cbv zeta.
  change (fsub (Fin (18 # 100)) (fmul (Fin ATR_BUFFER_ADAPTIVE_K) (Fin p)))
    with (Fin ((18 # 100) + - (ATR_BUFFER_ADAPTIVE_K * p))).
  unfold ATR_BUFFER_ADAPTIVE_K, ATR_BUFFER_MAX, ATR_BUFFER_MIN.
  set (x := (18 # 100) + - ((6 # 10) * p)).
  destruct (pymin_cases (20 # 100) x) as [[H1 ->]|[H1 ->]];
    [destruct (pymax_cases (5 # 100) x) as [[H2 ->]|[H2 ->]]
    |destruct (pymax_cases (5 # 100) (20 # 100)) as [[H2 ->]|[H2 ->]]];
    eexists; (split; [reflexivity|]);
    destruct (Q.min_spec (20 # 100) x) as [[H3 E3]|[H3 E3]]; rewrite E3;
    match goal with
    | |- _ == Qmax ?a ?b => destruct (Q.max_spec a b) as [[H4 E4]|[H4 E4]]; rewrite E4
    end; lra.
Qed.

Lemma atr_buffer_range (mode : buffer_mode) (atr_pct : fnum) :
  exists m, compute_adaptive_atr_buffer mode atr_pct = Fin m
            /\ 5 # 100 <= m /\ m <= 20 # 100.
Proof.
  destruct mode.
  2:{ exists ATR_ENTRY_BUFFER_MULT. unfold ATR_ENTRY_BUFFER_MULT. simpl.
      repeat split; lra. }
  assert (Hbase : exists m, Fin ATR_BUFFER_ADAPTIVE_BASE = Fin m
                            /\ 5 # 100 <= m /\ m <= 20 # 100).
  { exists ATR_BUFFER_ADAPTIVE_BASE. unfold ATR_BUFFER_ADAPTIVE_BASE.
    repeat split; lra. }
  destruct atr_pct as [p| | |]; try exact Hbase.
  destruct (Qlt_le_dec 0 p) as [Hp|Hp].
  - destruct (adaptive_buffer_value p Hp) as (m & Hm & Hv).
    exists m. split; [exact Hm|]. rewrite Hv. split.
    + apply Q.le_max_l.
    + apply Q.max_lub; [lra|]. apply Q.le_min_l.
  - unfold compute_adaptive_atr_buffer. cbn [isfinite negb orb fle].
    replace (Qle_bool p 0) with true by (symmetry; apply Qle_bool_iff; exact Hp).
    exact Hbase.
Qed.

(** X19: the ATR buffer multiplier is always a number between 0.05 and
    0.20, in fixed mode and in adaptive mode, whatever ATR% is (missing,
    infinite, zero or negative included); and in adaptive mode a more
    volatile instrument never gets a larger buffer. *)
Theorem atr_buffer_bounded (mode : buffer_mode) (atr_pct : fnum) :
  (exists m, compute_adaptive_atr_buffer mode atr_pct = Fin m
             /\ 5 # 100 <= m /\ m <= 20 # 100)
  /\ (forall p p' m m',
        0 < p -> p <= p' ->
        compute_adaptive_atr_buffer BM_adaptive (Fin p) = Fin m ->
        compute_adaptive_atr_buffer BM_adaptive (Fin p') = Fin m' ->
        m' <= m).
Proof.
  split; [apply atr_buffer_range|].
  intros p p' m m' Hp Hpp Hm Hm'.
    destruct (adaptive_buffer_value p Hp) as (n & Hn & Hv).
    destruct (adaptive_buffer_value p') as (n' & Hn' & Hv'); [lra|].
    rewrite Hn in Hm. injection Hm as <-. rewrite Hn' in Hm'. injection Hm' as <-.
    rewrite Hv, Hv'.
    apply Q.max_le_compat_l. apply Q.min_le_compat_l. nra.
Qed.

(** *** The entry trigger *)

Ltac split_ifs :=
  repeat match goal with
         | |- context [if ?b then _ else _] => destruct b
         end.

Lemma apply_atr_cap_levels (cap : bool) (r : classified) :
  k_breakout_level (apply_atr_cap cap r) = k_breakout_level r
  /\ k_stop_level (apply_atr_cap cap r) = k_stop_level r
  /\ k_entry_trigger (apply_atr_cap cap r) = k_entry_trigger r
  /\ k_atr_buffer_mult_used (apply_atr_cap cap r) = k_atr_buffer_mult_used r
  /\ k_regime (apply_atr_cap cap r) = k_regime r.
Proof. unfold apply_atr_cap. destruct (_ && _); repeat split. Qed.

Lemma apply_atr_cap_trigger (row : classify_row) (buf : fnum) (cap : bool)
    (r : classified) :
  trigger_of_breakout row buf r -> trigger_of_breakout row buf (apply_atr_cap cap r).
Proof.
  unfold trigger_of_breakout.
  destruct (apply_atr_cap_levels cap r) as (-> & _ & -> & -> & _). auto.
Qed.

Lemma range_block_trigger (row : classify_row) (regime : class_regime) (cap : bool)
    (buf : fnum) :
  trigger_of_breakout row buf (range_block row regime cap buf).
Proof.
  unfold range_block. cbv zeta. split_ifs;
    try apply apply_atr_cap_trigger; split; reflexivity.
Qed.

Lemma trend_block_trigger (row : classify_row) (cap : bool) (buf b s : fnum) :
  trigger_of_breakout row buf
    (trend_block row cap buf b s (calc_entry_trigger buf b (c_atr_14 row))).
Proof.
  unfold trend_block. cbv zeta. split_ifs;
    try apply apply_atr_cap_trigger;
    try apply range_block_trigger; split; reflexivity.
Qed.

Lemma classify_trigger (cfg : settings) (row : classify_row) :
  trigger_of_breakout row
    (compute_adaptive_atr_buffer (ATR_BUFFER_MODE cfg) (c_atr_pct row))
    (classify cfg row).
Proof.
  unfold classify. cbv zeta.
  repeat match goal with
         | |- context [if ?b then _ else _] =>
             lazymatch b with
             | sleeve_eqb _ STOCK_HIGH_RISK => fail
             | _ => destruct b
             end
         end;
    try apply trend_block_trigger; try apply range_block_trigger;
    split; reflexivity.
Qed.

Lemma entry_trigger_bounds (cfg : settings) (row : classify_row) (b t : Q) :
  k_breakout_level (classify cfg row) = Fin b -> c_atr_14 row = Fin t -> 0 < t ->
  exists g, k_entry_trigger (classify cfg row) = Fin g
            /\ b + (5 # 100) * t <= g /\ g <= b + (20 # 100) * t.
Proof.
  destruct (classify_trigger cfg row) as [_ Ht]. rewrite Ht.
  unfold calc_entry_trigger. intros -> -> H0.
  replace (fgt (Fin t) (Fin 0)) with true by (symmetry; apply flt_Fin; exact H0).
  cbn [isfinite andb].
  destruct (atr_buffer_range (ATR_BUFFER_MODE cfg) (c_atr_pct row))
    as (m & -> & Hlo & Hhi).
  exists (b + m * t). split; [reflexivity|]. split; nra.
Qed.

(** X20: in every result of classify the entry trigger is the returned
    breakout level raised by the ATR buffer: with a finite breakout level
    and a finite positive ATR it lies between 0.05 and 0.20 ATR above the
    breakout level, and otherwise it is the breakout level itself. *)
Theorem entry_trigger_above_breakout (cfg : settings) (row : classify_row) :
  let r := classify cfg row in
  (forall b t, k_breakout_level r = Fin b -> c_atr_14 row = Fin t -> 0 < t ->
     exists g, k_entry_trigger r = Fin g
               /\ b + (5 # 100) * t <= g /\ g <= b + (20 # 100) * t)
  /\ ((isfinite (k_breakout_level r) && isfinite (c_atr_14 row)
       && fgt (c_atr_14 row) (Fin 0)) = false ->
      k_entry_trigger r = k_breakout_level r).
Proof.
  cbv zeta. split.
  - apply entry_trigger_bounds.
  - destruct (classify_trigger cfg row) as [_ Ht]. rewrite Ht.
    unfold calc_entry_trigger. intros ->. reflexivity.
Qed.

(** *** Gates *)

Lemma apply_atr_cap_ready (cap : bool) (r : classified) :
  k_status (apply_atr_cap cap r) = READY -> cap = false /\ k_status r = READY.
Proof.
  unfold apply_atr_cap. destruct cap; cbn [andb]; [|auto].
  destruct (k_status r) eqn:E; simpl; rewrite ?E; discriminate.
Qed.

Lemma vol_threshold_ge (row : classify_row) :
  exists q, vol_threshold row = Fin q /\ 1 # 2 <= q.
Proof.
  unfold vol_threshold. cbv zeta.
  match goal with
  | |- context [pymax (Fin (1 # 2)) (Fin ?x)] =>
      destruct (pymax_cases (1 # 2) x) as [[H ->]|[H ->]]
  end; eexists; split; try reflexivity; lra.
Qed.

Lemma range_block_ready (row : classify_row) (regime : class_regime) (cap : bool)
    (buf : fnum) :
  k_status (range_block row regime cap buf) = READY ->
  cap = false /\ exists v, c_vol_ratio row = Fin v /\ 1 # 2 <= v.
Proof.
  unfold range_block. cbv zeta.
  destruct (fgt (c_close row) (c_high_20 row)).
  - destruct (isfinite (c_vol_ratio row) && fge (c_vol_ratio row) (Fin (8 # 10))) eqn:E.
    + intros H. apply apply_atr_cap_ready in H as [-> _]. split; [reflexivity|].
      apply andb_true_iff in E as [E1 E2]. apply isfinite_Fin in E1 as [v Hv].
      rewrite Hv in E2. apply fle_Fin in E2. exists v. split; [exact Hv|lra].
    + discriminate.
  - split_ifs; discriminate.
Qed.

Lemma trend_block_ready (row : classify_row) (cap : bool) (buf b s g : fnum) :
  k_status (trend_block row cap buf b s g) = READY ->
  cap = false /\ exists v, c_vol_ratio row = Fin v /\ 1 # 2 <= v.
Proof.
  assert (Hvol : isfinite (c_vol_ratio row)
                 && fge (c_vol_ratio row) (vol_threshold row) = true ->
                 exists v, c_vol_ratio row = Fin v /\ 1 # 2 <= v).
  { intros E. apply andb_true_iff in E as [E1 E2].
    apply isfinite_Fin in E1 as [v Hv].
    destruct (vol_threshold_ge row) as (q & Hq & Hle).
    rewrite Hv, Hq in E2. apply fle_Fin in E2. exists v. split; [exact Hv|lra]. }
  unfold trend_block. cbv zeta.
  destruct (too_extended row b); [discriminate|].
  destruct (isfinite (c_vol_ratio row) && fge (c_vol_ratio row) (vol_threshold row))
    eqn:Ev.
  - specialize (Hvol eq_refl).
    split_ifs;
      try discriminate;
      try (intros H; apply apply_atr_cap_ready in H as [-> _]; split;
           [reflexivity|exact Hvol]);
      intros H; apply range_block_ready in H as [-> _]; split;
      [reflexivity|exact Hvol].
  - rewrite ?andb_false_r. cbn [andb]. cbv iota.
    split_ifs; try discriminate; apply range_block_ready.
Qed.

(** X21: for an instrument that is not held, each safety gate of classify
    ends the classification with IGNORE: a data-anomaly flag, failed
    liquidity, a bearish ADX direction without early-bird eligibility, an
    ATR% above the cap of its sleeve while the cap is enabled, and a market
    regime other than BULLISH. *)
Theorem new_entry_gates (cfg : settings) (row : classify_row) :
  c_is_held row = false ->
  c_data_anomaly_block row = true
  \/ c_liquidity_ok row = false
  \/ (check_early_bird_eligible row = false
      /\ isfinite (c_plus_di row) = true /\ isfinite (c_minus_di row) = true
      /\ fgt (c_minus_di row) (c_plus_di row) = true)
  \/ (ATR_PCT_CAP_ENABLED cfg = true
      /\ isfinite (c_atr_pct row) = true
      /\ fgt (c_atr_pct row)
           (Fin (if sleeve_eqb (c_sleeve row) STOCK_HIGH_RISK
                 then ATR_PCT_CAP_HIGH_RISK else ATR_PCT_CAP_ALL)) = true)
  \/ c_market_regime row <> BULLISH ->
  k_status (classify cfg row) = IGNORE.
Proof.
  intros Hh H. unfold classify. cbv zeta. rewrite Hh. cbn [negb andb].
  destruct (c_data_anomaly_block row); [reflexivity|].
  destruct (c_liquidity_ok row); cbn [negb]; [|reflexivity].
  unfold ADX_DIRECTION_FILTER. cbn [andb].
  destruct (negb (check_early_bird_eligible row)
            && (isfinite (c_plus_di row) && isfinite (c_minus_di row)
                && fgt (c_minus_di row) (c_plus_di row))) eqn:Ed; [reflexivity|].
  destruct (ATR_PCT_CAP_ENABLED cfg
            && (isfinite (c_atr_pct row)
                && fgt (c_atr_pct row)
                     (Fin (if sleeve_eqb (c_sleeve row) STOCK_HIGH_RISK
                           then ATR_PCT_CAP_HIGH_RISK else ATR_PCT_CAP_ALL))))
    eqn:Ec; [reflexivity|].
  destruct (market_regime_eqb (c_market_regime row) BULLISH) eqn:Em;
    cbn [negb]; [|reflexivity].
  exfalso. destruct H as [H|[H|[H|[H|H]]]]; try discriminate H.
  - destruct H as (H1 & H2 & H3 & H4). rewrite H1, H2, H3, H4 in Ed. discriminate Ed.
  - destruct H as (H1 & H2 & H3). rewrite H1, H2, H3 in Ec. discriminate Ec.
  - apply H. destruct (c_market_regime row); try discriminate Em. reflexivity.
Qed.

Lemma new_entry_gates_witness :
  k_status
    (classify default_settings
       (mkClassifyRow STOCK_CORE false SIDEWAYS (Fin 110) (Fin 100) (Fin 105)
          (Fin 30) (Fin 25) (Fin 10) (Fin 2) (Fin (2 # 110)) false false false true
          (Fin 110) (Fin 100) (Fin 110) (Fin 95) (Fin 0) (Fin 0) (Fin 1) (Fin 2)
          (Fin 2000000000)))
  = IGNORE.
Proof.
  apply new_entry_gates; [reflexivity|].
  right. right. right. right. discriminate.
Defined.

(** X22: classify returns READY only when the ATR is not spiking; for an
    instrument that is not held, only in a BULLISH market without anomaly
    flag and with liquidity confirmed; for an ETF only in its TREND regime
    (close and 50-day average above the 200-day average, ADX at least 18)
    within 2 per cent of the 55-day high; and for any other sleeve only
    with a close that is not below the 200-day average and a finite volume
    ratio of at least 0.5. *)
Theorem ready_requirements (cfg : settings) (row : classify_row) :
  k_status (classify cfg row) = READY ->
  c_atr_spiking row = false
  /\ (c_is_held row = false ->
      c_market_regime row = BULLISH
      /\ c_data_anomaly_block row = false /\ c_liquidity_ok row = true)
  /\ (c_sleeve row = ETF_CORE ->
      k_regime (classify cfg row) = CG_TREND
      /\ fgt (c_close row) (c_ma_200 row) = true
      /\ fgt (c_ma_50 row) (c_ma_200 row) = true
      /\ fge (c_adx_14 row) (Fin 18) = true
      /\ fle (c_distance_to_55d_high_pct row) (Fin 2) = true)
  /\ (c_sleeve row <> ETF_CORE ->
      flt (c_close row) (c_ma_200 row) = false
      /\ exists v, c_vol_ratio row = Fin v /\ 1 # 2 <= v).
Proof.
  unfold classify. cbv zeta.
  destruct (negb (c_is_held row) && c_data_anomaly_block row) eqn:G1; [discriminate|].
  destruct (negb (c_is_held row) && negb (c_liquidity_ok row)) eqn:G2; [discriminate|].
  destruct (negb (c_is_held row) && ADX_DIRECTION_FILTER && _ && _); [discriminate|].
  destruct (negb (c_is_held row) && ATR_PCT_CAP_ENABLED cfg && _); [discriminate|].
  destruct (negb (c_is_held row)
            && negb (market_regime_eqb (c_market_regime row) BULLISH)) eqn:G5;
    [discriminate|].
  assert (Hnew : c_is_held row = false ->
                 c_market_regime row = BULLISH
                 /\ c_data_anomaly_block row = false /\ c_liquidity_ok row = true).
  { intros Hh. rewrite Hh in G1, G2, G5. cbn [negb andb] in G1, G2, G5.
    split; [|split].
    - destruct (c_market_regime row); try discriminate G5. reflexivity.
    - exact G1.
    - destruct (c_liquidity_ok row); [reflexivity|discriminate G2]. }
  destruct (sleeve_eqb (c_sleeve row) ETF_CORE) eqn:Es.
  - destruct (fgt (c_close row) (c_ma_200 row)) eqn:E1; [|discriminate].
    destruct (fgt (c_ma_50 row) (c_ma_200 row)) eqn:E2; [|discriminate].
    destruct (fge (c_adx_14 row) (Fin ADX_STRONG_TREND)) eqn:E3; [|discriminate].
    cbn [andb negb]. cbv iota.
    destruct (too_extended row (c_high_55 row)); [discriminate|].
    destruct (c_atr_spiking row); [discriminate|].
    destruct (fle (c_distance_to_55d_high_pct row) (Fin DIST_READY)) eqn:E4.
    2:{ destruct (fle _ (Fin DIST_WATCH)); discriminate. }
    intros _. split; [reflexivity|]. split; [exact Hnew|]. split.
    + intros _. repeat split; assumption.
    + intros Hne. exfalso. apply Hne.
      destruct (c_sleeve row); try discriminate Es. reflexivity.
  - destruct (flt (c_close row) (c_ma_200 row)) eqn:E1; [discriminate|].
    destruct (c_atr_spiking row && _) eqn:E2; [discriminate|].
    assert (Hfin : forall r : classified,
              (k_status r = READY ->
               c_atr_spiking row = false
               /\ exists v, c_vol_ratio row = Fin v /\ 1 # 2 <= v) ->
              k_status r = READY ->
              c_atr_spiking row = false
              /\ (c_is_held row = false ->
                  c_market_regime row = BULLISH
                  /\ c_data_anomaly_block row = false /\ c_liquidity_ok row = true)
              /\ (c_sleeve row = ETF_CORE ->
                  k_regime r = CG_TREND
                  /\ fgt (c_close row) (c_ma_200 row) = true
                  /\ fgt (c_ma_50 row) (c_ma_200 row) = true
                  /\ fge (c_adx_14 row) (Fin 18) = true
                  /\ fle (c_distance_to_55d_high_pct row) (Fin 2) = true)
              /\ (c_sleeve row <> ETF_CORE ->
                  false = false
                  /\ exists v, c_vol_ratio row = Fin v /\ 1 # 2 <= v)).
    { intros r Hr H. destruct (Hr H) as [Hs Hv].
      split; [exact Hs|]. split; [exact Hnew|]. split.
      - intros Hetf. rewrite Hetf in Es. discriminate Es.
      - intros _. split; [reflexivity|exact Hv]. }
    destruct (fgt (c_close row) (c_ma_200 row) && fgt (c_ma_50 row) (c_ma_200 row)
              && fge (c_adx_14 row) (Fin ADX_TREND_THRESHOLD)).
    + apply Hfin. apply trend_block_ready.
    + apply Hfin. apply range_block_ready.
Qed.

Lemma ready_requirements_witness :
  c_atr_spiking
    (mkClassifyRow STOCK_CORE false BULLISH (Fin 110) (Fin 100) (Fin 105)
       (Fin 30) (Fin 25) (Fin 10) (Fin 2) (Fin (2 # 110)) false false false true
       (Fin 110) (Fin 100) (Fin 110) (Fin 95) (Fin 0) (Fin 0) (Fin 1) (Fin 2)
       (Fin 2000000000)) = false.
Proof.
  assert (H : k_status
                (classify default_settings
                   (mkClassifyRow STOCK_CORE false BULLISH (Fin 110) (Fin 100)
                      (Fin 105) (Fin 30) (Fin 25) (Fin 10) (Fin 2) (Fin (2 # 110))
                      false false false true (Fin 110) (Fin 100) (Fin 110) (Fin 95)
                      (Fin 0) (Fin 0) (Fin 1) (Fin 2) (Fin 2000000000)))
              = READY) by (vm_compute; reflexivity).
  exact (proj1 (ready_requirements _ _ H)).
Defined.

(** *** Stop, breakout level and trigger *)

Section Levels.

Variable row : classify_row.
Variables t l20 h20 h55 : Q.
Hypothesis Hatr : c_atr_14 row = Fin t.
Hypothesis Hl20 : c_low_20 row = Fin l20.
Hypothesis Hh20 : c_high_20 row = Fin h20.
Hypothesis Hh55 : c_high_55 row = Fin h55.
Hypothesis Hlow : l20 <= h20.
Hypothesis Hhigh : h20 <= h55.

Lemma apply_atr_cap_ordered (cap : bool) (r : classified) :
  levels_ordered l20 r -> levels_ordered l20 (apply_atr_cap cap r).
Proof.
  unfold levels_ordered.
  destruct (apply_atr_cap_levels cap r) as (-> & -> & _). auto.
Qed.

Lemma range_block_ordered (regime : class_regime) (cap : bool) (buf : fnum) :
  levels_ordered l20 (range_block row regime cap buf).
Proof.
  unfold range_block. cbv zeta. rewrite Hl20, Hh20.
  split_ifs; try apply apply_atr_cap_ordered;
    exists l20, h20; repeat split; lra.
Qed.

Lemma trend_block_ordered (cap : bool) (buf g : fnum) (s : Q) :
  l20 <= s -> s <= h20 ->
  levels_ordered l20 (trend_block row cap buf (Fin h20) (Fin s) g).
Proof.
  intros H1 H2. unfold trend_block. cbv zeta. rewrite Hl20, Hh55.
  split_ifs; try apply apply_atr_cap_ordered; try apply range_block_ordered;
    first [exists s, h20; repeat split; lra | exists l20, h55; repeat split; lra].
Qed.

Lemma stock_stop_ordered :
  exists s, pymax (fsub (Fin h20) (fmul (Fin 2) (Fin t))) (Fin l20) = Fin s
            /\ l20 <= s /\ (0 <= t -> s <= h20).
Proof.
  change (fsub (Fin h20) (fmul (Fin 2) (Fin t))) with (Fin (h20 + - (2 * t))).
  destruct (pymax_cases (h20 + - (2 * t)) l20) as [[H ->]|[H ->]];
    eexists; split; try reflexivity; split; try lra; intros; lra.
Qed.

End Levels.

(** X23: when the ATR is finite and positive and the 20-day low, the
    20-day high and the 55-day high are finite and in that order, classify
    either blocks the instrument without levels (status IGNORE, no
    breakout level) or returns levels in order: the stop is at least the
    20-day low and at most the breakout level, and the entry trigger is
    strictly above the breakout level, so that the planned risk per share
    (trigger minus stop) is positive. *)
Theorem stop_breakout_trigger_ordered (cfg : settings) (row : classify_row)
    (t l20 h20 h55 : Q) :
  c_atr_14 row = Fin t -> 0 < t ->
  c_low_20 row = Fin l20 -> c_high_20 row = Fin h20 -> c_high_55 row = Fin h55 ->
  l20 <= h20 -> h20 <= h55 ->
  let r := classify cfg row in
  (k_status r = IGNORE /\ k_breakout_level r = NaN /\ k_stop_level r = NaN
   /\ k_entry_trigger r = NaN)
  \/ exists s b g,
       k_stop_level r = Fin s /\ k_breakout_level r = Fin b
       /\ k_entry_trigger r = Fin g
       /\ l20 <= s /\ s <= b /\ b < g.
Proof.
  intros Hatr Ht Hl20 Hh20 Hh55 Hlow Hhigh r.
  assert (Hlev : (k_status r = IGNORE /\ k_breakout_level r = NaN
                  /\ k_stop_level r = NaN /\ k_entry_trigger r = NaN)
                 \/ levels_ordered l20 r).
  { unfold r, classify. cbv zeta. rewrite Hatr, Hl20, Hh20, Hh55.
    destruct (stock_stop_ordered t l20 h20 Hlow) as (s & Hs & Hs1 & Hs2).
    rewrite Hs. specialize (Hs2 (Qlt_le_weak _ _ Ht)).
    repeat match goal with
           | |- context [if ?b then _ else _] =>
               lazymatch b with
               | sleeve_eqb _ STOCK_HIGH_RISK => fail
               | _ => destruct b
               end
           end;
      try (left; repeat split; reflexivity);
      right; rewrite ?Hs;
      try (apply (trend_block_ordered row l20 h20 h55 Hl20 Hh20 Hh55 Hlow Hhigh);
           assumption);
      try (apply (range_block_ordered row l20 h20 Hl20 Hh20 Hlow));
      first [exists s, h20; repeat split; lra
            |exists l20, h55; repeat split; lra
            |exists l20, h20; repeat split; lra]. }
  destruct Hlev as [H|(s & b & Hs & Hb & H1 & H2)]; [left; exact H|].
  right.
  destruct (entry_trigger_bounds cfg row b t Hb Hatr Ht) as (g & Hg & Hlo & _).
  exists s, b, g. repeat split; try assumption. nra.
Qed.

Lemma stop_breakout_trigger_ordered_witness :
  exists s b g,
    k_stop_level
      (classify default_settings
         (mkClassifyRow STOCK_CORE false BULLISH (Fin 110) (Fin 100) (Fin 105)
            (Fin 30) (Fin 25) (Fin 10) (Fin 2) (Fin (2 # 110)) false false false true
            (Fin 110) (Fin 100) (Fin 110) (Fin 95) (Fin 0) (Fin 0) (Fin 1) (Fin 2)
            (Fin 2000000000))) = Fin s
    /\ k_breakout_level
         (classify default_settings
            (mkClassifyRow STOCK_CORE false BULLISH (Fin 110) (Fin 100) (Fin 105)
               (Fin 30) (Fin 25) (Fin 10) (Fin 2) (Fin (2 # 110)) false false false
               true (Fin 110) (Fin 100) (Fin 110) (Fin 95) (Fin 0) (Fin 0) (Fin 1)
               (Fin 2) (Fin 2000000000))) = Fin b
    /\ k_entry_trigger
         (classify default_settings
            (mkClassifyRow STOCK_CORE false BULLISH (Fin 110) (Fin 100) (Fin 105)
               (Fin 30) (Fin 25) (Fin 10) (Fin 2) (Fin (2 # 110)) false false false
               true (Fin 110) (Fin 100) (Fin 110) (Fin 95) (Fin 0) (Fin 0) (Fin 1)
               (Fin 2) (Fin 2000000000))) = Fin g
    /\ 100 <= s /\ s <= b /\ b < g.
Proof.
  destruct (stop_breakout_trigger_ordered default_settings
              (mkClassifyRow STOCK_CORE false BULLISH (Fin 110) (Fin 100) (Fin 105)
                 (Fin 30) (Fin 25) (Fin 10) (Fin 2) (Fin (2 # 110)) false false false
                 true (Fin 110) (Fin 100) (Fin 110) (Fin 95) (Fin 0) (Fin 0) (Fin 1)
                 (Fin 2) (Fin 2000000000))
              2 100 110 110 eq_refl eq_refl eq_refl eq_refl eq_refl)
    as [(H & _)|H].
  - vm_compute. discriminate.
  - vm_compute. discriminate.
  - vm_compute in H. discriminate H.
  - exact H.
Defined.

(** X24: an instrument is early-bird eligible exactly when it is not an
    ETF, the market is BULLISH, its close, 55-day high, 55-day low (the
    20-day low standing in when that is missing) and ADX are finite, the
    55-day range is positive with the close in its top tenth, the volume
    ratio is finite and at least 1.5, and the ADX is at least 15. *)
Theorem early_bird_iff (row : classify_row) :
  check_early_bird_eligible row = true
  <-> c_sleeve row <> ETF_CORE
      /\ c_market_regime row = BULLISH
      /\ exists c h l a v,
           c_close row = Fin c /\ c_high_55 row = Fin h
           /\ (if isfinite (c_low_55 row) then c_low_55 row else c_low_20 row) = Fin l
           /\ c_adx_14 row = Fin a /\ c_vol_ratio row = Fin v
           /\ l < h /\ l + (9 # 10) * (h - l) <= c /\ 3 # 2 <= v /\ 15 <= a.
Proof.
  unfold check_early_bird_eligible, EARLY_BIRD_ENABLED, EARLY_BIRD_RANGE_THRESHOLD,
    EARLY_BIRD_VOLUME_RATIO_MIN, EARLY_BIRD_ADX_MIN.
  cbn [negb]. cbv iota zeta.
  destruct (c_sleeve row) eqn:Es; cbn [sleeve_eqb]; cbv iota;
    try (split; [discriminate|intros [H _]; contradiction]).
  all: destruct (c_market_regime row) eqn:Em; cbn [market_regime_eqb negb]; cbv iota;
    try (split; [discriminate|intros (_ & H & _); discriminate H]).
  all: replace (if negb (isfinite (c_low_55 row)) then c_low_20 row else c_low_55 row)
         with (if isfinite (c_low_55 row) then c_low_55 row else c_low_20 row)
         by (destruct (isfinite (c_low_55 row)); reflexivity).
  all: set (low := if isfinite (c_low_55 row) then c_low_55 row else c_low_20 row).
  all: destruct (c_close row) as [c| | |]; cbn [isfinite andb negb]; cbv iota;
    try (split; [discriminate|];
         intros (_ & _ & ? & ? & ? & ? & ? & H & _); discriminate H).
  all: destruct (c_high_55 row) as [h| | |]; cbn [isfinite andb negb]; cbv iota;
    try (split; [discriminate|];
         intros (_ & _ & ? & ? & ? & ? & ? & _ & H & _); discriminate H).
  all: destruct low as [l| | |]; cbn [isfinite andb negb]; cbv iota;
    try (split; [discriminate|];
         intros (_ & _ & ? & ? & ? & ? & ? & _ & _ & H & _); discriminate H).
  all: destruct (c_adx_14 row) as [a| | |]; cbn [isfinite andb negb]; cbv iota;
    try (split; [discriminate|];
         intros (_ & _ & ? & ? & ? & ? & ? & _ & _ & _ & H & _); discriminate H).
  all: change (fsub (Fin h) (Fin l)) with (Fin (h + - l));
    change (fsub (Fin c) (Fin l)) with (Fin (c + - l)); cbn [fle].
  all: destruct (Qle_bool (h + - l) 0) eqn:Er;
    [apply Qle_bool_iff in Er; split; [discriminate|];
     intros (_ & _ & c' & h' & l' & ? & ? & _ & [= <-] & [= <-] & _ & _ & H & _); lra|].
  all: apply Qle_bool_false in Er.
  all: rewrite (RankProofs.fdiv_pos _ _ Er); cbn [flt].
  all: assert (Hpos : Qltb ((c + - l) / (h + - l)) (9 # 10) = false
                      <-> l + (9 # 10) * (h - l) <= c).
  1,3,5: rewrite Qltb_ge; split; intros H;
    [assert (H2 : (9 # 10) * (h + - l) <= (c + - l) / (h + - l) * (h + - l)) by nra;
     assert (H3 : (c + - l) / (h + - l) * (h + - l) == c + - l) by (field; lra); lra
    |apply Qle_shift_div_l; [exact Er|lra]].
  all: destruct (Qltb ((c + - l) / (h + - l)) (9 # 10)) eqn:Ep;
    [split; [discriminate|];
     intros (_ & _ & c' & h' & l' & ? & ? & [= <-] & [= <-] & [= <-] & _ & _ & _ & H & _);
     apply Hpos in H; discriminate H|].
  all: destruct (c_vol_ratio row) as [v| | |]; cbn [isfinite negb orb flt]; cbv iota;
    try (split; [discriminate|];
         intros (_ & _ & ? & ? & ? & ? & ? & _ & _ & _ & _ & H & _); discriminate H).
  all: destruct (Qltb v (3 # 2)) eqn:Ev;
    [apply Qltb_lt in Ev; split; [discriminate|];
     intros (_ & _ & ? & ? & ? & ? & v' & _ & _ & _ & _ & [= <-] & _ & _ & H & _); lra|].
  all: apply Qltb_ge in Ev.
  all: destruct (Qltb a 15) eqn:Ea;
    [apply Qltb_lt in Ea; split; [discriminate|];
     intros (_ & _ & ? & ? & ? & a' & ? & _ & _ & _ & [= <-] & _ & _ & _ & _ & H); lra|].
  all: apply Qltb_ge in Ea.
  all: split; [intros _|reflexivity].
  all: split; [discriminate|split; [reflexivity|]].
  all: exists c, h, l, a, v; repeat split; try assumption; try reflexivity.
  all: first [lra | apply Hpos; reflexivity].
Qed.

End ClassifyLaws.

Module IndicatorLaws.
Import Indicators.

Lemma Qsign_pos (x : Q) : 0 < x -> Qsign x = Gt.
Proof. intros H. unfold Qsign. apply Qgt_alt. exact H. Qed.

Lemma Qsign_nonneg (x : Q) : 0 <= x -> Qsign x = Eq \/ Qsign x = Gt.
Proof.
  intros H. unfold Qsign. destruct (Qcompare x 0) eqn:E; auto.
  apply Qlt_alt in E. lra.
Qed.

Lemma fabs_not_negative (x : fnum) : not_negative (fabs x).
Proof. destruct x; simpl; auto. apply Qabs_nonneg. Qed.

Lemma fmul_not_negative (w : Q) (x : fnum) :
  0 <= w -> not_negative x -> not_negative (fmul (Fin w) x).
Proof.
  intros Hw Hx. destruct x as [q| | |]; simpl in *; try contradiction; auto.
  - nra.
  - destruct (Qsign_nonneg w Hw) as [-> | ->]; exact I.
Qed.

Lemma fadd_not_negative (x y : fnum) :
  not_negative x -> not_negative y -> not_negative (fadd x y).
Proof.
  intros Hx Hy. destruct x, y; simpl in *; try contradiction; auto. lra.
Qed.

Lemma fdiv_not_negative (x y : fnum) :
  not_negative x -> not_negative y -> not_negative (fdiv x y).
Proof.
  intros Hp Hq.
  destruct x as [p| | |], y as [q| | |]; simpl in *; try contradiction; auto.
  - destruct (Qsign_nonneg q Hq) as [E|E]; rewrite E.
    + destruct (Qsign_nonneg p Hp) as [-> | ->]; exact I.
    + simpl. unfold Qsign in E. apply Qgt_alt in E.
      apply Qle_shift_div_l; [exact E|lra].
  - apply Qle_refl.
  - destruct (Qsign_nonneg q Hq) as [-> | ->]; exact I.
Qed.

Lemma npmaximum_not_negative (a b : fnum) :
  not_negative b -> not_negative (npmaximum a b).
Proof.
  unfold npmaximum. intros Hq.
  destruct a as [p| | |], b as [q| | |]; simpl in *; try contradiction; auto.
  destruct (Qltb p q) eqn:E; simpl; [exact Hq|].
  apply Qltb_ge in E. lra.
Qed.

Lemma true_range_not_negative (b : bar) (prev_close : fnum) :
  not_negative (true_range b prev_close).
Proof.
  unfold true_range. apply npmaximum_not_negative, npmaximum_not_negative,
    fabs_not_negative.
Qed.

Lemma plus_dm_not_negative (up down : fnum) : not_negative (plus_dm_of up down).
Proof.
  unfold plus_dm_of. destruct (fgt up down); simpl; [|apply Qle_refl].
  destruct up as [q| | |]; simpl; auto; try apply Qle_refl.
  unfold fgt. cbn [flt]. destruct (Qltb 0 q) eqn:E; simpl; [|apply Qle_refl].
  apply Qltb_lt in E. lra.
Qed.

Lemma minus_dm_not_negative (up down : fnum) : not_negative (minus_dm_of up down).
Proof.
  unfold minus_dm_of. destruct (fgt down up); simpl; [|apply Qle_refl].
  destruct down as [q| | |]; simpl; auto; try apply Qle_refl.
  unfold fgt. cbn [flt]. destruct (Qltb 0 q) eqn:E; simpl; [|apply Qle_refl].
  apply Qltb_lt in E. lra.
Qed.

Lemma di_not_negative (dm_sm atr : fnum) :
  not_negative dm_sm -> not_negative atr -> not_negative (di_of dm_sm atr).
Proof.
  intros H1 H2. unfold di_of. apply fmul_not_negative; [lra|].
  apply fdiv_not_negative; assumption.
Qed.

(** The smoothing of columns that are not negative is not negative. *)
Lemma ewm_steps_not_negative (alpha : Q) (vals : list fnum) :
  0 < alpha -> alpha <= 1 ->
  List.Forall not_negative vals ->
  forall (weighted : fnum) (old_wt : Q),
    0 <= old_wt -> not_negative weighted ->
    List.Forall not_negative (ewm_steps alpha weighted old_wt vals).
Proof.
  intros Ha Ha1. induction 1 as [|cur rest Hcur Hrest IH]; intros weighted old_wt Hw Hn.
  - constructor.
  - cbn [ewm_steps].
    assert (Hw' : 0 <= old_wt * (1 - alpha)) by nra.
    destruct (negb (Risk.isnan weighted)).
    + cbv zeta. destruct (negb (Risk.isnan cur)).
      * destruct (same weighted cur).
        -- constructor; [exact Hn|]. apply IH; [lra|exact Hn].
        -- assert (Hnew : not_negative
                     (fdiv (fadd (fmul (Fin (old_wt * (1 - alpha))) weighted)
                              (fmul (Fin alpha) cur))
                        (Fin (old_wt * (1 - alpha) + alpha)))).
           { apply fdiv_not_negative.
             - apply fadd_not_negative; apply fmul_not_negative;
                 try assumption; lra.
             - simpl. lra. }
           constructor; [exact Hnew|]. apply IH; [lra|exact Hnew].
      * constructor; [exact Hn|]. apply IH; assumption.
    + destruct (negb (Risk.isnan cur)).
      * constructor; [exact Hcur|]. apply IH; assumption.
      * constructor; [exact Hn|]. apply IH; assumption.
Qed.

Lemma alpha_of_period (period : positive) : 0 < 1 # period /\ 1 # period <= 1.
Proof.
  split.
  - reflexivity.
  - unfold Qle. simpl. lia.
Qed.

Lemma wilder_rma_not_negative (series : list fnum) (period : positive) :
  List.Forall not_negative series -> List.Forall not_negative (wilder_rma series period).
Proof.
  intros H. unfold wilder_rma, ewm_mean.
  destruct (alpha_of_period period) as [Ha Ha1].
  inversion H as [|x rest Hx Hrest]; subst; constructor; [exact Hx|].
  apply ewm_steps_not_negative; try assumption. lra.
Qed.

Lemma Forall_zip_with (P Q R : fnum -> Prop) (f : fnum -> fnum -> fnum)
    (a b : list fnum) :
  (forall x y, P x -> Q y -> R (f x y)) ->
  List.Forall P a -> List.Forall Q b -> List.Forall R (zip_with f a b).
Proof.
  intros Hf Ha. revert b. induction Ha as [|x a Hx Ha IH]; intros b Hb.
  - constructor.
  - destruct Hb as [|y b Hy Hb]; [constructor|].
    unfold zip_with. cbn [combine map fst snd]. constructor; [apply Hf; assumption|].
    apply IH, Hb.
Qed.

Lemma Forall_any (l : list fnum) : List.Forall (fun _ => True) l.
Proof. induction l; constructor; auto. Qed.

(** One value of [dx] is a number between 0 and 100. *)
Lemma dx_within (plus_di minus_di : fnum) :
  not_negative plus_di -> not_negative minus_di ->
  Rank.within 0 100 (dx_of plus_di minus_di).
Proof.
  assert (Hzero : Rank.within 0 100 (Fin 0)).
  { exists 0. split; [reflexivity|split; lra]. }
  unfold dx_of.
  destruct plus_di as [p| | |], minus_di as [m| | |]; simpl;
    try contradiction; try (intros _ _; exact Hzero).
  intros Hp Hm.
  destruct (Qeq_bool (p + m) 0) eqn:E; [exact Hzero|].
  apply Qeq_bool_neq in E.
  assert (Hpos : 0 < p + m).
  { destruct (Qlt_le_dec 0 (p + m)) as [H|H]; [exact H|].
    exfalso. apply E. lra. }
  rewrite (Qsign_pos _ Hpos). simpl.
  exists (100 * (Qabs (p + - m) / (p + m))). split; [reflexivity|].
  assert (Habs : Qabs (p + - m) <= p + m).
  { apply Qabs_case; intros; lra. }
  pose proof (Qabs_nonneg (p + - m)) as H0.
  split.
  - assert (0 <= Qabs (p + - m) / (p + m)).
    { apply Qle_shift_div_l; [exact Hpos|lra]. }
    lra.
  - assert (Qabs (p + - m) / (p + m) <= 1).
    { apply Qle_shift_div_r; [exact Hpos|lra]. }
    lra.
Qed.

(** The smoothing of numbers between [lo] and [hi] stays between them. *)
Lemma ewm_steps_within (lo hi alpha : Q) (vals : list fnum) :
  0 < alpha -> alpha <= 1 ->
  List.Forall (Rank.within lo hi) vals ->
  forall (weighted : fnum) (old_wt : Q),
    0 <= old_wt -> Rank.within lo hi weighted ->
    List.Forall (Rank.within lo hi) (ewm_steps alpha weighted old_wt vals).
Proof.
  intros Ha Ha1. induction 1 as [|cur rest Hcur Hrest IH]; intros weighted old_wt Hw Hn.
  - constructor.
  - cbn [ewm_steps].
    destruct Hn as (w & -> & Hw1 & Hw2). destruct Hcur as (c & -> & Hc1 & Hc2).
    cbn [Risk.isnan negb]. cbv iota zeta.
    assert (Hwithin : Rank.within lo hi (Fin w)).
    { exists w. split; [reflexivity|split; assumption]. }
    destruct (same (Fin w) (Fin c)).
    + constructor; [exact Hwithin|]. apply IH; [lra|exact Hwithin].
    + set (ow := old_wt * (1 - alpha)).
      assert (How : 0 <= ow) by (unfold ow; nra).
      assert (Hden : 0 < ow + alpha) by lra.
      cbn [fmul fadd]. rewrite (RankProofs.fdiv_pos _ _ Hden).
      assert (Hnew : Rank.within lo hi (Fin ((ow * w + alpha * c) / (ow + alpha)))).
      { eexists. split; [reflexivity|]. split.
        - apply Qle_shift_div_l; [exact Hden|]. nra.
        - apply Qle_shift_div_r; [exact Hden|]. nra. }
      constructor; [exact Hnew|]. apply IH; [lra|exact Hnew].
Qed.

Lemma wilder_rma_within (lo hi : Q) (series : list fnum) (period : positive) :
  List.Forall (Rank.within lo hi) series ->
  List.Forall (Rank.within lo hi) (wilder_rma series period).
Proof.
  intros H. unfold wilder_rma, ewm_mean.
  destruct (alpha_of_period period) as [Ha Ha1].
  inversion H as [|x rest Hx Hrest]; subst; constructor; [exact Hx|].
  apply ewm_steps_within; try assumption. lra.
Qed.

Lemma last_Forall (P : fnum -> Prop) (l : list fnum) (d : fnum) :
  List.Forall P l -> P d -> P (List.last l d).
Proof.
  induction 1 as [|x l Hx Hl IH]; intros Hd; [exact Hd|].
  destruct l as [|y l]; [exact Hx|]. apply IH, Hd.
Qed.


(** *** Trend efficiency *)

Lemma finite_list (l : list fnum) :
  List.Forall (fun x => isfinite x = true) l -> exists qs, l = map Fin qs.
Proof.
  induction 1 as [|x l Hx Hl (qs & ->)]; [exists []; reflexivity|].
  apply isfinite_Fin in Hx as [q ->]. exists (q :: qs). reflexivity.
Qed.

Lemma Forall_skipn_fnum (P : fnum -> Prop) (k : nat) (l : list fnum) :
  List.Forall P l -> List.Forall P (skipn k l).
Proof.
  revert l. induction k as [|k IH]; intros l H; [exact H|].
  destruct H as [|x l Hx Hl]; [constructor|]. simpl. apply IH, Hl.
Qed.

Lemma last_cons (qs : list Q) :
  forall x d, List.last (x :: qs) d = List.last qs x.
Proof.
  induction qs as [|y qs IH]; intros x d; [reflexivity|].
  change (List.last (y :: qs) d = List.last (y :: qs) x).
  rewrite !IH. reflexivity.
Qed.

Lemma last_map_Fin (qs : list Q) :
  forall (q0 : Q) (d : fnum),
    List.last (map Fin (q0 :: qs)) d = Fin (List.last qs q0).
Proof.
  induction qs as [|x qs IH]; intros q0 d; [reflexivity|].
  change (List.last (map Fin (x :: qs)) d = Fin (List.last (x :: qs) q0)).
  rewrite IH, last_cons. reflexivity.
Qed.

(** The path travelled from [prev] through [qs] is at least the distance
    between its ends. *)
Lemma path_at_least_net_move (qs : list Q) :
  forall prev,
    exists S,
      Risk.nansum
        (List.filter (fun x => negb (Risk.isnan x))
           (map fabs (diff_from (Fin prev) (map Fin qs)))) = Fin S
      /\ 0 <= S /\ Qabs (List.last qs prev + - prev) <= S.
Proof.
  induction qs as [|x qs IH]; intros prev.
  - exists 0. split; [reflexivity|]. split; [lra|].
    cbn [List.last]. apply Qabs_case; intros; lra.
  - destruct (IH x) as (S & HS & H0 & Hnet).
    exists (Qabs (x + - prev) + S).
    cbn [map diff_from fsub fneg fadd fabs List.filter Risk.isnan negb Risk.nansum].
    rewrite HS. split; [reflexivity|].
    pose proof (Qabs_nonneg (x + - prev)) as Hx.
    split; [lra|].
    rewrite last_cons.
    apply Qabs_Qle_condition in Hnet.
    pose proof (Qle_Qabs (x + - prev)) as H1.
    pose proof (Qle_Qabs (- (x + - prev))) as H2. rewrite Qabs_opp in H2.
    apply Qabs_Qle_condition. split; lra.
Qed.



End IndicatorLaws.

Module MetricLaws.
Import Rank RankProofs.

Lemma fold_fmax_attained (w : list fnum) :
  forall x : Q,
    (forall y, In y w -> exists q, y = Fin q /\ 0 < q) ->
    exists h, fold_left fmax w (Fin x) = Fin h /\ In (Fin h) (Fin x :: w).
Proof.
  induction w as [|y w IH]; intros x Hw; simpl.
  - exists x. split; [reflexivity|left; reflexivity].
  - destruct (Hw y (or_introl eq_refl)) as (q & -> & Hq).
    unfold fmax at 2. simpl flt.
    destruct (Qltb x q).
    + destruct (IH q (fun z Hz => Hw z (or_intror Hz))) as (h & Hh & Hin).
      exists h. split; [exact Hh|]. right. exact Hin.
    + destruct (IH x (fun z Hz => Hw z (or_intror Hz))) as (h & Hh & [Hin|Hin]).
      * exists h. split; [exact Hh|]. left. exact Hin.
      * exists h. split; [exact Hh|]. right. right. exact Hin.
Qed.

Lemma window_of_positive (n : nat) (price : list fnum) :
  (1 <= n)%nat -> (n <= length price)%nat ->
  positive_prices price = true ->
  exists x w,
    last_n n price = x :: w
    /\ ((length price <? n)%nat || has_nan (x :: w)) = false
    /\ (forall y, In y (x :: w) -> exists q, y = Fin q /\ 0 < q).
Proof.
  intros Hn Hlen Hp.
  destruct (last_n n price) as [|x w] eqn:E.
  - exfalso. unfold last_n in E.
    assert (Hl : length (skipn (length price - n) price) = 0%nat) by (rewrite E; reflexivity).
    rewrite length_skipn in Hl. lia.
  - exists x, w. split; [reflexivity|].
    assert (Hw : forall y, In y (x :: w) -> exists q, y = Fin q /\ 0 < q).
    { intros y Hy. apply (positive_prices_In price y Hp).
      apply (last_n_incl n). rewrite E. exact Hy. }
    split; [|exact Hw].
    replace (length price <? n)%nat with false by (symmetry; apply Nat.ltb_ge; lia).
    cbn [orb]. unfold has_nan.
    destruct (existsb Risk.isnan (x :: w)) eqn:En; [|reflexivity].
    apply existsb_exists in En as (y & Hy & Hnan).
    destruct (Hw y Hy) as (q & -> & _). discriminate.
Qed.

Lemma rolling_max_defined (n : nat) (price : list fnum) :
  (1 <= n)%nat -> (n <= length price)%nat ->
  positive_prices price = true ->
  exists h, rolling_max_last n price = Fin h
            /\ In (Fin h) (last_n n price)
            /\ (forall q, In (Fin q) (last_n n price) -> q <= h).
Proof.
  intros Hn Hlen Hp. unfold rolling_max_last.
  destruct (window_of_positive n price Hn Hlen Hp) as (x & w & -> & -> & Hw).
  destruct (Hw x (or_introl eq_refl)) as (x0 & -> & Hx0).
  destruct (fold_fmax_bound w x0 (fun y Hy => Hw y (or_intror Hy)))
    as (h & Hh & H1 & H2).
  destruct (fold_fmax_attained w x0 (fun y Hy => Hw y (or_intror Hy)))
    as (h' & Hh' & Hin).
  rewrite Hh in Hh'. injection Hh' as <-.
  exists h. split; [exact Hh|]. split; [exact Hin|].
  intros q [[= <-]|Hq]; [exact H1|apply H2, Hq].
Qed.

Lemma rolling_min_defined (n : nat) (price : list fnum) :
  (1 <= n)%nat -> (n <= length price)%nat ->
  positive_prices price = true ->
  exists l, rolling_min_last n price = Fin l /\ 0 < l
            /\ (forall q, In (Fin q) (last_n n price) -> l <= q).
Proof.
  intros Hn Hlen Hp. unfold rolling_min_last.
  destruct (window_of_positive n price Hn Hlen Hp) as (x & w & -> & -> & Hw).
  destruct (Hw x (or_introl eq_refl)) as (x0 & -> & Hx0).
  destruct (fold_fmin_bound w x0 Hx0 (fun y Hy => Hw y (or_intror Hy)))
    as (l & Hl & H1 & H0 & H2).
  exists l. split; [exact Hl|]. split; [exact H0|].
  intros q [[= <-]|Hq]; [exact H1|apply H2, Hq].
Qed.

Lemma skipn_In (k : nat) (l : list fnum) (y : fnum) :
  In y (skipn k l) -> In y l.
Proof.
  intros H. rewrite <- (firstn_skipn k l). apply in_or_app. right. exact H.
Qed.

Lemma last_n_widen (n m : nat) (l : list fnum) (y : fnum) :
  (n <= m)%nat -> In y (last_n n l) -> In y (last_n m l).
Proof.
  intros Hnm. unfold last_n.
  replace (length l - n)%nat with ((length l - n - (length l - m)) + (length l - m))%nat
    by lia.
  rewrite <- skipn_skipn. apply skipn_In.
Qed.

(** X27: for a series of at least 55 positive prices the levels computed
    by compute_metrics are all defined and in order: the 20-day low is
    positive and at most the close, the close is at most the 20-day high,
    and the 20-day high is at most the 55-day high. *)
Theorem price_levels_ordered (price : list fnum) :
  positive_prices price = true ->
  (55 <= length price)%nat ->
  let m := compute_metrics price in
  exists l c h20 h55,
    m_low_20 m = Fin l /\ m_close m = Fin c
    /\ m_high_20 m = Fin h20 /\ m_high_55 m = Fin h55
    /\ 0 < l /\ l <= c /\ c <= h20 /\ h20 <= h55.
Proof.
  intros Hp Hlen m. unfold m, compute_metrics. cbv zeta.
  cbn [m_low_20 m_close m_high_20 m_high_55].
  unfold LOOKBACK_HIGH_20, LOOKBACK_LOW_20, LOOKBACK_HIGH_55.
  destruct (rolling_min_defined 20 price) as (l & -> & Hl0 & Hl); [lia|lia|exact Hp|].
  destruct (rolling_max_defined 20 price) as (h20 & -> & Hin20 & Hh20);
    [lia|lia|exact Hp|].
  destruct (rolling_max_defined 55 price) as (h55 & -> & _ & Hh55);
    [lia|lia|exact Hp|].
  destruct (last_positive price Hp) as [->|(c & Hc & Hc0)]; [simpl in Hlen; lia|].
  rewrite Hc.
  assert (Hne : price <> []) by (intros ->; simpl in Hlen; lia).
  assert (Hlast : In (Fin c) (last_n 20 price)).
  { rewrite <- Hc. apply last_in_last_n; [lia|exact Hne]. }
  exists l, c, h20, h55. repeat split; try exact Hl0.
  - apply Hl, Hlast.
  - apply Hh20, Hlast.
  - apply Hh55. apply (last_n_widen 20 55); [lia|exact Hin20].
Qed.

Lemma price_levels_ordered_witness :
  exists l c h20 h55,
    m_low_20 (compute_metrics flat_prices) = Fin l
    /\ m_close (compute_metrics flat_prices) = Fin c
    /\ m_high_20 (compute_metrics flat_prices) = Fin h20
    /\ m_high_55 (compute_metrics flat_prices) = Fin h55
    /\ 0 < l /\ l <= c /\ c <= h20 /\ h20 <= h55.
Proof.
  apply (price_levels_ordered flat_prices).
  - vm_compute. reflexivity.
  - unfold flat_prices. rewrite repeat_length. lia.
Defined.

End MetricLaws.

Module CapsLaws.
Import Caps.

Lemma gap_buffer_ge_1 (s : sleeve) : 1 <= gap_buffer s.
Proof. destruct s; unfold gap_buffer; lra. Qed.

Lemma risk_per_share_value (b s f : Q) (sl : sleeve) :
  s < b ->
  risk_per_share_gbp_est (Fin b) (Fin s) sl (Fin f)
  = Fin ((b + - s) * gap_buffer sl * f).
Proof.
  intros H. unfold risk_per_share_gbp_est, risk_per_share_local.
  cbn [fsub fneg fadd isfinite negb]. cbv iota zeta. cbn [fle].
  replace (Qle_bool (b + - s) 0) with false
    by (symmetry; apply Qle_bool_false; lra).
  reflexivity.
Qed.

(** X28: for a candidate that is not held, with positive equity, a
    non-negative per-trade risk fraction, a stop below the breakout level and a positive
    FX rate, the projected number of shares is a non-negative multiple of
    0.001 whose risk at the stop, gap buffer included, does not exceed the
    per-trade budget (equity times risk fraction) and misses it by less
    than a thousandth of a share; without the gap buffer the planned loss
    at the stop is within the budget too. *)
Theorem projected_size_within_budget (E p b s f : Q) (sl : sleeve) (close : fnum) :
  0 < E -> 0 <= p -> s < b -> 0 < f ->
  let rps := risk_per_share_gbp_est (Fin b) (Fin s) sl (Fin f) in
  let shares :=
    fst (fst (compute_projected_size (Fin E) (Fin p) false rps close (Fin f))) in
  exists n k,
    shares = Fin n /\ n == inject_Z k / 1000 /\ (0 <= k)%Z
    /\ n * ((b - s) * gap_buffer sl * f) <= E * p
    /\ E * p < (n + (1 # 1000)) * ((b - s) * gap_buffer sl * f)
    /\ n * ((b - s) * f) <= E * p.
Proof.
  intros HE Hp Hsb Hf rps shares. unfold shares, rps. clear shares rps.
  rewrite (risk_per_share_value b s f sl Hsb).
  pose proof (gap_buffer_ge_1 sl) as Hg.
  set (R := (b + - s) * gap_buffer sl * f).
  assert (Hbs : 0 < (b + - s) * f).
  { apply Qmult_lt_0_compat; lra. }
  assert (HR : 0 < R).
  { unfold R. apply Qmult_lt_0_compat; [|exact Hf].
    apply Qmult_lt_0_compat; lra. }
  unfold compute_projected_size. cbn [isfinite negb orb fle].
  replace (Qle_bool E 0) with false by (symmetry; apply Qle_bool_false; exact HE).
  replace (Qle_bool R 0) with false by (symmetry; apply Qle_bool_false; exact HR).
  cbv iota zeta. cbn [fmul]. rewrite (RankProofs.fdiv_pos _ _ HR).
  cbn [fmul ffloor].
  assert (H1000 : 0 < 1000) by lra.
  rewrite (RankProofs.fdiv_pos _ _ H1000).
  set (raw := E * p / R).
  set (k := Qfloor (raw * 1000)).
  assert (Hraw : raw * R == E * p) by (unfold raw; field; lra).
  assert (Hraw0 : 0 <= raw).
  { unfold raw. apply Qle_shift_div_l; [exact HR|nra]. }
  assert (Hk1 : inject_Z k <= raw * 1000) by apply Qfloor_le.
  assert (Hk2 : raw * 1000 < inject_Z (k + 1)) by apply Qlt_floor.
  rewrite inject_Z_plus in Hk2. change (inject_Z 1) with 1 in Hk2.
  assert (Hk0 : (0 <= k)%Z).
  { change 0%Z with (Qfloor 0). apply Qfloor_resp_le. nra. }
  assert (Hk0q : 0 <= inject_Z k).
  { change 0 with (inject_Z 0). rewrite <- Zle_Qle. exact Hk0. }
  assert (Hn : inject_Z k / 1000 * 1000 == inject_Z k) by (field; lra).
  set (n := inject_Z k / 1000) in *.
  assert (Hshares : forall x y : fnum,
            fst (fst (if negb (isfinite close) || fle close (Fin 0)
                      then (Fin n, Fin 0, Fin 0) else (Fin n, x, y))) = Fin n).
  { intros x y. destruct (negb (isfinite close) || fle close (Fin 0)); reflexivity. }
  rewrite Hshares.
  exists n, k. split; [reflexivity|]. split; [reflexivity|]. split; [exact Hk0|].
  assert (Hn0 : 0 <= n) by lra.
  assert (Hnr : n <= raw) by lra.
  assert (Hup : n * R <= E * p).
  { rewrite <- Hraw. apply Qmult_le_compat_r; lra. }
  assert (Hlo : E * p < (n + (1 # 1000)) * R).
  { rewrite <- Hraw. apply Qmult_lt_compat_r; [exact HR|lra]. }
  assert (HReq : (b - s) * gap_buffer sl * f == R) by (unfold R; ring).
  rewrite HReq. split; [exact Hup|]. split; [exact Hlo|].
  set (T := (b - s) * f).
  assert (HT : 0 <= T).
  { unfold T. apply Qmult_le_0_compat; lra. }
  assert (HRT : R == T + T * (gap_buffer sl - 1)) by (unfold R, T; ring).
  assert (HTR : T <= R).
  { rewrite HRT.
    assert (0 <= T * (gap_buffer sl - 1)) by (apply Qmult_le_0_compat; lra).
    lra. }
  apply Qle_trans with (n * R); [|exact Hup].
  rewrite (Qmult_comm n T), (Qmult_comm n R).
  apply Qmult_le_compat_r; [exact HTR|exact Hn0].
Qed.

Lemma projected_size_within_budget_witness :
  exists n k,
    fst (fst (compute_projected_size (Fin 1000) (Fin (1 # 100)) false
                (risk_per_share_gbp_est (Fin 110) (Fin 100) STOCK_CORE (Fin 1))
                (Fin 108) (Fin 1))) = Fin n
    /\ n == inject_Z k / 1000 /\ (0 <= k)%Z
    /\ n * ((110 - 100) * gap_buffer STOCK_CORE * 1) <= 1000 * (1 # 100)
    /\ 1000 * (1 # 100) < (n + (1 # 1000)) * ((110 - 100) * gap_buffer STOCK_CORE * 1)
    /\ n * ((110 - 100) * 1) <= 1000 * (1 # 100).
Proof.
  apply (projected_size_within_budget 1000 (1 # 100) 110 100 1 STOCK_CORE (Fin 108));
    reflexivity || (vm_compute; discriminate).
Defined.

(** X29: a row is marked eligible by the risk caps only if its status is
    READY; if it is held, only when pyramiding is enabled and an add is
    eligible; and if it is not held, only when adding the per-trade risk to
    the risk already open in its cluster and in its super-cluster stays
    within the two caps (wherever these numbers are finite) and its
    position share, when finite, does not exceed the position cap of its
    sleeve, a cap that is at most 0.20 and is never larger for a larger
    number of positions. *)
Theorem eligible_by_risk_caps_sound (position_count : Z)
    (max_cluster_pct MAX_SUPERCLUSTER_RISK_PCT : fnum) (row : caps_row) :
  eligible_by_risk_caps position_count max_cluster_pct MAX_SUPERCLUSTER_RISK_PCT row
  = true ->
  let cap := max_position_pct (cap_mode_of position_count) (p_sleeve row) in
  p_status row = READY
  /\ (p_is_held row = true ->
      p_pyramiding_enabled row = true /\ p_add_eligible row = true)
  /\ (p_is_held row = false ->
      (forall c r m, p_cluster_risk_pct row = Fin c ->
         p_risk_per_trade_pct_default row = Fin r -> max_cluster_pct = Fin m ->
         c + r <= m)
      /\ (forall c r m, p_super_cluster_risk_pct row = Fin c ->
            p_risk_per_trade_pct_default row = Fin r ->
            MAX_SUPERCLUSTER_RISK_PCT = Fin m ->
            c + r <= m)
      /\ (forall a, p_position_pct_of_equity row = Fin a -> a <= cap))
  /\ cap <= 20 # 100
  /\ (forall more, (position_count <= more)%Z ->
        max_position_pct (cap_mode_of more) (p_sleeve row) <= cap).
Proof.
  intros H cap.
  assert (Hcap : cap <= 20 # 100
                 /\ (forall more, (position_count <= more)%Z ->
                       max_position_pct (cap_mode_of more) (p_sleeve row) <= cap)).
  { unfold cap, cap_mode_of. split.
    - destruct (position_count <? 5)%Z; [|destruct (position_count <? 8)%Z];
        destruct (p_sleeve row); unfold max_position_pct; lra.
    - intros more Hm.
      destruct (position_count <? 5)%Z eqn:E5; destruct (more <? 5)%Z eqn:M5;
        destruct (position_count <? 8)%Z eqn:E8; destruct (more <? 8)%Z eqn:M8;
        try (apply Z.ltb_lt in E5); try (apply Z.ltb_ge in E5);
        try (apply Z.ltb_lt in M5); try (apply Z.ltb_ge in M5);
        try (apply Z.ltb_lt in E8); try (apply Z.ltb_ge in E8);
        try (apply Z.ltb_lt in M8); try (apply Z.ltb_ge in M8);
        try lia;
        destruct (p_sleeve row); unfold max_position_pct; lra. }
  revert H. unfold eligible_by_risk_caps, risk_caps_block_reason,
    compute_risk_caps_block_reason. fold cap.
  destruct (p_status row) eqn:Es; cbn [status_eqb negb]; cbv iota; try discriminate.
  destruct (p_is_held row) eqn:Eh.
  - destruct (p_pyramiding_enabled row); [|discriminate].
    destruct (p_add_eligible row); [|discriminate].
    intros _. split; [reflexivity|]. split; [auto|]. split; [discriminate|exact Hcap].
  - cbv zeta.
    destruct (isfinite (p_cluster_risk_pct row)
              && fgt (fadd (p_cluster_risk_pct row) (p_risk_per_trade_pct_default row))
                   max_cluster_pct) eqn:E1; [discriminate|].
    destruct (isfinite (p_super_cluster_risk_pct row)
              && fgt (fadd (p_super_cluster_risk_pct row)
                        (p_risk_per_trade_pct_default row))
                   MAX_SUPERCLUSTER_RISK_PCT) eqn:E2; [discriminate|].
    destruct (fgt (p_position_pct_of_equity row) (Fin cap)) eqn:E3; [discriminate|].
    intros _. split; [reflexivity|]. split; [discriminate|]. split; [|exact Hcap].
    intros _. split; [|split].
    + intros c r m Hc Hr Hm. rewrite Hc, Hr, Hm in E1. cbn in E1.
      apply Qltb_ge in E1. exact E1.
    + intros c r m Hc Hr Hm. rewrite Hc, Hr, Hm in E2. cbn in E2.
      apply Qltb_ge in E2. exact E2.
    + intros a Ha. rewrite Ha in E3. cbn in E3. apply Qltb_ge in E3. exact E3.
Qed.

Lemma eligible_by_risk_caps_sound_witness :
  p_status
    (mkCapsRow false true false READY STOCK_CORE "TECH" "GROWTH" (Fin (1 # 100))
       (Fin (10 # 100)) (Fin (20 # 100)) (Fin 0)) = READY.
Proof.
  apply (eligible_by_risk_caps_sound 3 (Fin (35 # 100)) (Fin (50 # 100))
           (mkCapsRow false true false READY STOCK_CORE "TECH" "GROWTH"
              (Fin (1 # 100)) (Fin (10 # 100)) (Fin (20 # 100)) (Fin 0))).
  vm_compute. reflexivity.
Defined.

End CapsLaws.

Module RiskLaws.
Import Risk.

Lemma risk_monotone (q f d d' : Q) :
  0 <= q -> 0 <= f -> d' <= d -> q * d' * f <= q * d * f.
Proof.
  intros Hq Hf Hd.
  assert (H : 0 <= (q * f) * (d - d')).
  { apply Qmult_le_0_compat; [apply Qmult_le_0_compat; assumption|lra]. }
  assert (Heq : q * d * f == q * d' * f + (q * f) * (d - d')) by ring.
  rewrite Heq. lra.
Qed.

Lemma risk_zero (q f : Q) : q * 0 * f == 0.
Proof. ring. Qed.

(** X30: raising the active stop of a held position never raises its open
    risk: with a non-negative quantity and FX rate and a finite close, the
    risk with the higher stop is a non-negative amount that is at most the
    risk with the lower stop, and it is zero once the stop is at or above
    the close. *)
Theorem tighter_stop_never_adds_risk (r : risk_row) (q c s s' f : Q) :
  k_is_held r = true ->
  k_t212_quantity r = Fin q -> 0 <= q ->
  k_close r = Fin c ->
  k_active_stop r = Fin s ->
  k_fx_to_gbp_est r = Fin f -> 0 <= f ->
  s <= s' ->
  let r' := mkRiskRow (k_sleeve r) (k_cluster r) (k_is_held r) (k_t212_quantity r)
              (k_close r) (Fin s') (k_stop_level r) (k_fx_to_gbp_est r) in
  exists x x',
    held_risk_gbp r = Fin x /\ held_risk_gbp r' = Fin x'
    /\ 0 <= x' /\ x' <= x /\ (c <= s' -> x' == 0).
Proof.
  intros Hh Hq Hq0 Hc Hs Hf Hf0 Hss r'.
  unfold held_risk_gbp, held_stop_dist_local, held_stop_used, r'.
  cbn [k_is_held k_t212_quantity k_close k_active_stop k_fx_to_gbp_est].
  rewrite Hh, Hq, Hc, Hs, Hf. cbn [isfinite fsub fneg fadd flt].
  pose proof (risk_zero q f) as Hz.
  destruct (Qltb (c + - s) 0) eqn:E; destruct (Qltb (c + - s') 0) eqn:E';
    try (apply Qltb_lt in E); try (apply Qltb_ge in E);
    try (apply Qltb_lt in E'); try (apply Qltb_ge in E');
    cbn [fmul]; eexists; eexists; (split; [reflexivity|]); (split; [reflexivity|]).
  - rewrite Hz. repeat split; try lra.
  - exfalso. lra.
  - rewrite Hz. split; [lra|]. split; [|reflexivity].
    rewrite <- Hz. apply risk_monotone; lra.
  - split; [|split].
    + rewrite <- Hz. apply risk_monotone; lra.
    + apply risk_monotone; lra.
    + intros Hcs. assert (Hd : c + - s' == 0) by lra. rewrite Hd. exact Hz.
Qed.

Lemma tighter_stop_never_adds_risk_witness :
  exists x x',
    held_risk_gbp
      (mkRiskRow STOCK_CORE "TECH" true (Fin 5) (Fin 20) (Fin 17) (Fin 16) (Fin 1))
    = Fin x
    /\ held_risk_gbp
         (mkRiskRow STOCK_CORE "TECH" true (Fin 5) (Fin 20) (Fin 18) (Fin 16) (Fin 1))
       = Fin x'
    /\ 0 <= x' /\ x' <= x /\ (20 <= 18 -> x' == 0).
Proof.
  apply (tighter_stop_never_adds_risk
           (mkRiskRow STOCK_CORE "TECH" true (Fin 5) (Fin 20) (Fin 17) (Fin 16) (Fin 1))
           5 20 17 18 1);
    reflexivity || (vm_compute; discriminate).
Defined.

End RiskLaws.
